(** * VERIFY (verify-authenticity): the request handlers of the three server
      variants, the response normalizer and the history table.

    The development embeds three source files:
    - [src/server.ts], the dev server (module [Dev]),
    - [src/unnamed/part_000], the production server (module [Prod]),
    - [src/unnamed/part_001], the serverless handler (module [Serverless]).

    JavaScript strings are sequences of UTF-16 code units, JSON values are an
    inductive type whose objects keep the property order of the runtime, and
    numbers are IEEE-754 binary64 values held as exact rationals and rounded
    to nearest-even after each operation.

    The reply of the external model, the result of the EXIF parser, the
    clock of the storage engine, the random number of the dev demo text and
    the texts of the errors the runtime raises are inputs of the handlers.
    The prompt a handler builds only travels to the external model and is not
    modelled; the fields of a request are taken at the string types the
    handlers use them at, thrown values are Error objects, statements on the
    table succeed, and a string bound to a statement is kept as the UTF-8
    text the binding writes. *)

From Stdlib Require Import String Ascii.
From Stdlib Require Import List ZArith NArith QArith Qreduction Bool Lia.
From Stdlib Require Import Permutation Sorted.
Import ListNotations.

Local Open Scope Z_scope.

(* ================================================================== *)
(** * JavaScript strings *)
(* ================================================================== *)

(** A string is its sequence of UTF-16 code units; [length] is the [.length]
    of the source. *)
Definition char16 := N.
Definition jsstring := list char16.

(** An ASCII literal of the source. *)
Definition str (s : string) : jsstring :=
  map N_of_ascii (list_ascii_of_string s).

(** The characters the literals of this file cannot hold. *)
Definition dquote : jsstring := [34%N].
Definition newline : jsstring := [10%N].
(** U+26A0 U+FE0F, the warning sign of the demo explanations. *)
Definition warning_sign : jsstring := [9888%N; 65039%N].
(** U+2014, the em dash. *)
Definition em_dash : jsstring := [8212%N].

Definition jsstring_eqb (a b : jsstring) : bool :=
  if list_eq_dec N.eq_dec a b then true else false.

(** [s.startsWith(p)], also giving what follows the prefix. *)
Fixpoint strip_prefix (p s : jsstring) : option jsstring :=
  match p, s with
  | [], _ => Some s
  | c :: p', d :: s' => if N.eqb c d then strip_prefix p' s' else None
  | _ :: _, [] => None
  end.

(** [s.includes(sub)] *)
Fixpoint includes (s sub : jsstring) : bool :=
  match strip_prefix sub s with
  | Some _ => true
  | None => match s with
            | [] => false
            | _ :: s' => includes s' sub
            end
  end.

(** [s.substring(0, n)] *)
Definition substring0 (n : nat) (s : jsstring) : jsstring := firstn n s.

(** [s.split(sep)] for a one-unit separator. *)
Fixpoint split_on (sep : char16) (s : jsstring) : list jsstring :=
  match s with
  | [] => [[]]
  | c :: s' =>
      if N.eqb c sep then [] :: split_on sep s'
      else match split_on sep s' with
           | piece :: rest => (c :: piece) :: rest
           | [] => [[c]]
           end
  end.

(** WhiteSpace and LineTerminator of ECMAScript: the class [\s] of a regular
    expression and what [trim] removes. *)
Definition is_space (c : char16) : bool :=
  ((9 <=? c) && (c <=? 13) || (c =? 32) || (c =? 160) || (c =? 5760)
   || (8192 <=? c) && (c <=? 8202) || (c =? 8232) || (c =? 8233)
   || (c =? 8239) || (c =? 8287) || (c =? 12288) || (c =? 65279))%N.

Fixpoint skip_spaces (s : jsstring) : jsstring :=
  match s with
  | c :: s' => if is_space c then skip_spaces s' else s
  | [] => []
  end.

(** [s.trim()] *)
Definition trim (s : jsstring) : jsstring :=
  rev (skip_spaces (rev (skip_spaces s))).

(** Decimal digits of a non-negative integer. *)
Fixpoint digits_fuel (fuel : nat) (z : Z) (acc : jsstring) : jsstring :=
  match fuel with
  | O => acc
  | S f =>
      let acc' := (48 + Z.to_N (z mod 10))%N :: acc in
      if z <? 10 then acc' else digits_fuel f (z / 10) acc'
  end.

Definition decimal_digits (z : Z) : jsstring :=
  digits_fuel (S (Z.to_nat (Z.log2 z))) z [].

(* ================================================================== *)
(** * Numbers *)
(* ================================================================== *)

(** A Number of the runtime.  A finite value is the rational it denotes, in
    lowest terms; the two zeros are not told apart (no operation of the
    program observes the sign of zero). *)
Inductive number : Type :=
| Fin (q : Q)
| PosInf
| NegInf
| NaN.

Definition pow2 (e : Z) : Q :=
  if 0 <=? e then inject_Z (2 ^ e) else 1 # Z.to_pos (2 ^ (- e)).

Definition pow10 (e : Z) : Q :=
  if 0 <=? e then inject_Z (10 ^ e) else 1 # Z.to_pos (10 ^ (- e)).

(** [floor (log_b (n/d))] for positive [n], [d] and [b] one of 2, 10. *)
Definition floor_log (b : Z) (n d : Z) : Z :=
  let lg z :=
    if b =? 2 then Z.log2 z
    else Z.of_nat (List.length (decimal_digits z)) - 1 in
  let e0 := lg n - lg d in
  let ge e := if 0 <=? e then d * b ^ e <=? n else d <=? n * b ^ (- e) in
  if ge (e0 + 1) then e0 + 1 else if ge e0 then e0
  else if ge (e0 - 1) then e0 - 1 else e0 - 2.

(** Round half to even. *)
Definition round_half_even (n d : Z) : Z :=
  let q := n / d in
  let r := n mod d in
  if 2 * r <? d then q
  else if d <? 2 * r then q + 1
  else if Z.even q then q else q + 1.

(** The binary64 value nearest to a positive rational: 53 bits of
    precision, least exponent -1074, overflow from 2^1024 on. *)
Definition round_pos (n d : Z) : option Q :=
  let e := floor_log 2 n d in
  let qe := Z.max (e - 52) (-1074) in
  let m := round_half_even (n * 2 ^ Z.max 0 (- qe)) (d * 2 ^ Z.max 0 qe) in
  if (1024 <=? e) || ((m =? 2 ^ 53) && (qe =? 971)) then None
  else Some (Qred (inject_Z m * pow2 qe)%Q).

Definition round_Q (q : Q) : number :=
  match Qnum q with
  | Z0 => Fin 0
  | Zpos n =>
      match round_pos (Zpos n) (Zpos (Qden q)) with
      | Some r => Fin r
      | None => PosInf
      end
  | Zneg n =>
      match round_pos (Zpos n) (Zpos (Qden q)) with
      | Some r => Fin (Qred (- r))
      | None => NegInf
      end
  end.

Definition of_Z (z : Z) : number := round_Q (inject_Z z).

(** [a - b] *)
Definition js_sub (a b : number) : number :=
  match a, b with
  | NaN, _ | _, NaN => NaN
  | PosInf, PosInf | NegInf, NegInf => NaN
  | PosInf, _ | _, NegInf => PosInf
  | NegInf, _ | _, PosInf => NegInf
  | Fin x, Fin y => round_Q (x - y)%Q
  end.

(** [a + b] *)
Definition js_add (a b : number) : number :=
  match a, b with
  | NaN, _ | _, NaN => NaN
  | PosInf, NegInf | NegInf, PosInf => NaN
  | PosInf, _ | _, PosInf => PosInf
  | NegInf, _ | _, NegInf => NegInf
  | Fin x, Fin y => round_Q (x + y)%Q
  end.

Definition Q_eqb (x y : Q) : bool :=
  (Qnum x =? Qnum y) && (Pos.eqb (Qden x) (Qden y)).

(** Strict equality [a === b] on numbers. *)
Definition number_eqb (a b : number) : bool :=
  match a, b with
  | Fin x, Fin y => Q_eqb x y
  | PosInf, PosInf | NegInf, NegInf => true
  | _, _ => false
  end.

(** ** Number::toString *)

Fixpoint strip_zeros_rev (r : jsstring) : jsstring :=
  match r with
  | c :: r' => if N.eqb c 48 then strip_zeros_rev r' else r
  | [] => []
  end.

(** The shortest decimal [s * 10^(n-k)] that rounds to the positive value
    [v], as its digits and [n]: digit counts are tried in increasing order,
    and of two candidates the one nearer to [v] is taken. *)
Fixpoint shortest_from (fuel : nat) (k : Z) (v : Q) (n0 : Z) : jsstring * Z :=
  let unit := pow10 (n0 - k) in
  let sc := Qred (v / unit)%Q in
  let lo := Qnum sc / Zpos (Qden sc) in
  let hi := if Pos.eqb (Qden sc) 1 then lo else lo + 1 in
  let ok s := number_eqb (round_Q (inject_Z s * unit)%Q) (Fin v) in
  let result s :=
    let ds := decimal_digits s in
    (rev (strip_zeros_rev (rev ds)), n0 - k + Z.of_nat (length ds)) in
  let lo_nearer :=
    match (v - inject_Z lo * unit) ?= (inject_Z hi * unit - v) with
    | Lt => true
    | Eq => Z.even lo
    | Gt => false
    end%Q in
  match fuel with
  | O => result lo
  | S f =>
      if ok lo && ok hi then result (if lo_nearer then lo else hi)
      else if ok lo then result lo
      else if ok hi then result hi
      else shortest_from f (k + 1) v n0
  end.

Definition shortest_digits (v : Q) : jsstring * Z :=
  shortest_from 17 1 v (floor_log 10 (Qnum v) (Zpos (Qden v)) + 1).

Definition zeros (n : Z) : jsstring := repeat 48%N (Z.to_nat n).

Definition exponent_part (n : Z) : jsstring :=
  str "e" ++ (if 0 <=? n - 1 then str "+" else str "-")
    ++ decimal_digits (Z.abs (n - 1)).

Definition positive_to_string (v : Q) : jsstring :=
  let '(ds, n) := shortest_digits v in
  let k := Z.of_nat (length ds) in
  if (k <=? n) && (n <=? 21) then ds ++ zeros (n - k)
  else if (0 <? n) && (n <=? 21) then
    firstn (Z.to_nat n) ds ++ str "." ++ skipn (Z.to_nat n) ds
  else if (-6 <? n) && (n <=? 0) then str "0." ++ zeros (- n) ++ ds
  else if k =? 1 then ds ++ exponent_part n
  else firstn 1 ds ++ str "." ++ skipn 1 ds ++ exponent_part n.

Definition number_to_string (x : number) : jsstring :=
  match x with
  | NaN => str "NaN"
  | PosInf => str "Infinity"
  | NegInf => str "-Infinity"
  | Fin q =>
      match Qnum q with
      | Z0 => str "0"
      | Zpos _ => positive_to_string q
      | Zneg _ => str "-" ++ positive_to_string (Qred (- q))
      end
  end.

(* ================================================================== *)
(** * JSON values *)
(* ================================================================== *)

(** The values [JSON.parse] builds.  An object is the list of its own
    properties in the order the runtime enumerates them, each key once. *)
#[local] Set Warnings "-register-all".
Inductive json : Type :=
| JNull
| JBool (b : bool)
| JNum (x : number)
| JStr (s : jsstring)
| JArr (items : list json)
| JObj (props : list (jsstring * json)).

Definition is_digit (c : char16) : bool := ((48 <=? c) && (c <=? 57))%N.

Definition digit_value (c : char16) : Z := Z.of_N (c - 48).

(** The value of a digit string in base [b] ([0-9], [a-z], [A-Z]). *)
Definition digit_of (b : Z) (c : char16) : option Z :=
  let v :=
    if is_digit c then Z.of_N c - 48
    else if ((97 <=? c) && (c <=? 122))%N then Z.of_N c - 87
    else if ((65 <=? c) && (c <=? 90))%N then Z.of_N c - 55
    else b in
  if v <? b then Some v else None.

Fixpoint digits_value (b : Z) (acc : Z) (s : jsstring) : option Z :=
  match s with
  | [] => Some acc
  | c :: s' =>
      match digit_of b c with
      | Some v => digits_value b (b * acc + v) s'
      | None => None
      end
  end.

(** The longest prefix of decimal digits, and what follows it. *)
Fixpoint span_digits (s : jsstring) : jsstring * jsstring :=
  match s with
  | c :: s' =>
      if is_digit c then let '(ds, r) := span_digits s' in (c :: ds, r)
      else ([], s)
  | [] => ([], [])
  end.

Definition decimal_value (ds : jsstring) : Z :=
  fold_left (fun acc c => 10 * acc + digit_value c) ds 0.

(** An array index: the canonical decimal form of an integer below
    2^32 - 1.  Such keys come first in an object, in ascending order. *)
Definition array_index (k : jsstring) : option Z :=
  match k with
  | [] => None
  | c :: k' =>
      if forallb is_digit k
         && (negb (N.eqb c 48) || match k' with [] => true | _ => false end)
      then let v := decimal_value k in
           if v <? 4294967295 then Some v else None
      else None
  end.

Fixpoint get_prop (k : jsstring) (props : list (jsstring * json))
  : option json :=
  match props with
  | [] => None
  | (k', v) :: rest => if jsstring_eqb k k' then Some v else get_prop k rest
  end.

Fixpoint replace_prop (k : jsstring) (v : json) (props : list (jsstring * json))
  : list (jsstring * json) :=
  match props with
  | [] => []
  | (k', v') :: rest =>
      if jsstring_eqb k k' then (k', v) :: rest
      else (k', v') :: replace_prop k v rest
  end.

(** Where a new array-index key [i] goes: before the first key that is not
    an index or is a larger one. *)
Fixpoint insert_index (i : Z) (k : jsstring) (v : json)
    (props : list (jsstring * json)) : list (jsstring * json) :=
  match props with
  | [] => [(k, v)]
  | (k', v') :: rest =>
      match array_index k' with
      | Some j => if j <? i then (k', v') :: insert_index i k v rest
                  else (k, v) :: props
      | None => (k, v) :: props
      end
  end.

(** [o[k] = v] on the property list of an ordinary object. *)
Definition set_prop (k : jsstring) (v : json) (props : list (jsstring * json))
  : list (jsstring * json) :=
  match get_prop k props with
  | Some _ => replace_prop k v props
  | None =>
      match array_index k with
      | Some i => insert_index i k v props
      | None => props ++ [(k, v)]
      end
  end.

(** ** ToPrimitive, ToString and ToNumber, as the operators [-] and [>=]
       apply them *)

Fixpoint join_with (sep : jsstring) (l : list jsstring) : jsstring :=
  match l with
  | [] => []
  | [x] => x
  | x :: rest => x ++ sep ++ join_with sep rest
  end.

(** ToString of a value that [JSON.parse] built; [None] is the TypeError of
    ToPrimitive.  An object takes [toString] from [Object.prototype] and
    gives "[object Object]", unless it has a property of its own named
    [toString]: that property is no function and is skipped, [valueOf]
    (its own, which is no function either, or the inherited one, which
    returns the object) gives no primitive value, and nothing is left to
    call.  An array joins the strings of its elements with commas, [null]
    giving the empty string there, and fails when an element does. *)
Fixpoint to_string (v : json) : option jsstring :=
  match v with
  | JNull => Some (str "null")
  | JBool true => Some (str "true")
  | JBool false => Some (str "false")
  | JNum x => Some (number_to_string x)
  | JStr s => Some s
  | JArr items =>
      let fix pieces (l : list json) : option (list jsstring) :=
        match l with
        | [] => Some []
        | item :: l' =>
            match match item with
                  | JNull => Some []
                  | _ => to_string item
                  end, pieces l' with
            | Some piece, Some rest => Some (piece :: rest)
            | _, _ => None
            end
        end in
      option_map (join_with (str ",")) (pieces items)
  | JObj props =>
      match get_prop (str "toString") props with
      | Some _ => None
      | None => Some (str "[object Object]")
      end
  end.

(** The exponent part [e], [e+], [e-] and digits of a decimal literal, if
    there is one. *)
Definition exponent_of (s : jsstring) : option (Z * jsstring) :=
  match s with
  | c :: r =>
      if (N.eqb c 101 || N.eqb c 69)%bool then
        let '(neg, r1) :=
          match r with
          | d :: r' => if N.eqb d 45 then (true, r')
                       else if N.eqb d 43 then (false, r') else (false, r)
          | [] => (false, r)
          end in
        match span_digits r1 with
        | ([], _) => None
        | (ds, r2) =>
            Some (if neg then - decimal_value ds else decimal_value ds, r2)
        end
      else None
  | [] => None
  end.

(** A StrUnsignedDecimalLiteral: digits with an optional fraction and
    exponent, or [Infinity] (then the flag is set). *)
Definition unsigned_literal (r : jsstring) : option (Q * bool) :=
  if jsstring_eqb r (str "Infinity") then Some (0%Q, true)
  else
    let '(ip, r1) := span_digits r in
    let '(fp, r2) :=
      match r1 with
      | c :: r' => if N.eqb c 46 then span_digits r' else ([], r1)
      | [] => ([], r1)
      end in
    match ip ++ fp with
    | [] => None
    | ds =>
        let m := decimal_value ds in
        let scale := - Z.of_nat (List.length fp) in
        match r2 with
        | [] => Some ((inject_Z m * pow10 scale)%Q, false)
        | _ => match exponent_of r2 with
               | Some (e, []) =>
                   Some ((inject_Z m * pow10 (scale + e))%Q, false)
               | _ => None
               end
        end
    end.

(** A literal [0x..], [0o..] or [0b..] after its two-character prefix. *)
Definition radix_literal (b : Z) (r : jsstring) : number :=
  match r with
  | [] => NaN
  | _ => match digits_value b 0 r with
         | Some v => of_Z v
         | None => NaN
         end
  end.

(** StringToNumber: the Number a string converts to. *)
Definition string_to_number (s : jsstring) : number :=
  let signed (neg : bool) (r : jsstring) : number :=
    match unsigned_literal r with
    | Some (_, true) => if neg then NegInf else PosInf
    | Some (q, false) => round_Q (if neg then - q else q)%Q
    | None => NaN
    end in
  match trim s with
  | [] => Fin 0
  | (c :: r) as t =>
      if N.eqb c 45 then signed true r
      else if N.eqb c 43 then signed false r
      else
        match r with
        | x :: r' =>
            if N.eqb c 48 && (N.eqb x 120 || N.eqb x 88)
            then radix_literal 16 r'
            else if N.eqb c 48 && (N.eqb x 111 || N.eqb x 79)
            then radix_literal 8 r'
            else if N.eqb c 48 && (N.eqb x 98 || N.eqb x 66)
            then radix_literal 2 r'
            else signed false t
        | [] => signed false t
        end
  end.

(** ToNumber; [None] is the TypeError of ToPrimitive. *)
Definition to_number (v : json) : option number :=
  match v with
  | JNull => Some (Fin 0)
  | JBool true => Some (Fin 1)
  | JBool false => Some (Fin 0)
  | JNum x => Some x
  | JStr s => Some (string_to_number s)
  | JArr _ | JObj _ => option_map string_to_number (to_string v)
  end.

(** ** JSON.stringify *)

Definition hex_digit (v : N) : char16 :=
  (if v <? 10 then 48 + v else 87 + v)%N.

(** [\uXXXX], four lowercase hexadecimal digits. *)
Definition unicode_escape (c : char16) : jsstring :=
  str "\u" ++ [hex_digit (c / 4096 mod 16); hex_digit (c / 256 mod 16);
               hex_digit (c / 16 mod 16); hex_digit (c mod 16)]%N.

Definition is_high_surrogate (c : char16) : bool :=
  ((55296 <=? c) && (c <=? 56319))%N.

Definition is_low_surrogate (c : char16) : bool :=
  ((56320 <=? c) && (c <=? 57343))%N.

Definition escape_unit (c : char16) : jsstring :=
  if N.eqb c 8 then str "\b"
  else if N.eqb c 9 then str "\t"
  else if N.eqb c 10 then str "\n"
  else if N.eqb c 12 then str "\f"
  else if N.eqb c 13 then str "\r"
  else if N.eqb c 34 then str "\" ++ dquote
  else if N.eqb c 92 then str "\\"
  else if (c <? 32)%N then unicode_escape c
  else [c].

(** The body of QuoteJSONString: a surrogate pair is kept, a lone surrogate
    is escaped. *)
Fixpoint quote_units (s : jsstring) : jsstring :=
  match s with
  | [] => []
  | c :: r =>
      if is_high_surrogate c then
        match r with
        | d :: r' =>
            if is_low_surrogate d then c :: d :: quote_units r'
            else unicode_escape c ++ quote_units r
        | [] => unicode_escape c
        end
      else if is_low_surrogate c then unicode_escape c ++ quote_units r
      else escape_unit c ++ quote_units r
  end.

Definition quote (s : jsstring) : jsstring := dquote ++ quote_units s ++ dquote.

(** [JSON.stringify(v)]: a number that is not finite is written [null]. *)
Fixpoint stringify (v : json) : jsstring :=
  match v with
  | JNull => str "null"
  | JBool true => str "true"
  | JBool false => str "false"
  | JNum (Fin q) => number_to_string (Fin q)
  | JNum _ => str "null"
  | JStr s => quote s
  | JArr items =>
      str "[" ++ join_with (str ",") (map stringify items) ++ str "]"
  | JObj props =>
      str "{"
        ++ join_with (str ",")
             (map (fun kv => quote (fst kv) ++ str ":" ++ stringify (snd kv))
                props)
        ++ str "}"
  end.

(** ** JSON.parse *)

(** The four white space characters of the JSON grammar. *)
Definition is_json_ws (c : char16) : bool :=
  (N.eqb c 9 || N.eqb c 10 || N.eqb c 13 || N.eqb c 32)%bool.

Fixpoint skip_ws (s : jsstring) : jsstring :=
  match s with
  | c :: s' => if is_json_ws c then skip_ws s' else s
  | [] => []
  end.

(** The rest of [s] after white space and the character [c]. *)
Definition expect (c : char16) (s : jsstring) : option jsstring :=
  match skip_ws s with
  | d :: r => if N.eqb c d then Some r else None
  | [] => None
  end.

Definition hex4 (a b c d : char16) : option char16 :=
  match digit_of 16 a, digit_of 16 b, digit_of 16 c, digit_of 16 d with
  | Some x, Some y, Some z, Some w =>
      Some (Z.to_N (((x * 16 + y) * 16 + z) * 16 + w))
  | _, _, _, _ => None
  end.

(** The characters of a string literal after its opening quote, up to the
    closing one; [acc] holds the units read so far, last first. *)
Fixpoint parse_chars (s : jsstring) (acc : jsstring)
  : option (jsstring * jsstring) :=
  match s with
  | [] => None
  | c :: r =>
      if N.eqb c 34 then Some (rev acc, r)
      else if (c <? 32)%N then None
      else if N.eqb c 92 then
        match r with
        | [] => None
        | e :: r1 =>
            if N.eqb e 34 || N.eqb e 92 || N.eqb e 47
            then parse_chars r1 (e :: acc)
            else if N.eqb e 98 then parse_chars r1 (8%N :: acc)
            else if N.eqb e 102 then parse_chars r1 (12%N :: acc)
            else if N.eqb e 110 then parse_chars r1 (10%N :: acc)
            else if N.eqb e 114 then parse_chars r1 (13%N :: acc)
            else if N.eqb e 116 then parse_chars r1 (9%N :: acc)
            else if N.eqb e 117 then
              match r1 with
              | h1 :: h2 :: h3 :: h4 :: r2 =>
                  match hex4 h1 h2 h3 h4 with
                  | Some u => parse_chars r2 (u :: acc)
                  | None => None
                  end
              | _ => None
              end
            else None
        end
      else parse_chars r (c :: acc)
  end.

(** A number of the JSON grammar at the head of [s]: an optional minus
    sign, the integer part (a single 0, or digits that do not start with 0),
    an optional fraction (a dot and at least one digit) and an optional
    exponent (e or E, an optional sign and at least one digit). *)
Definition parse_number (s : jsstring) : option (number * jsstring) :=
  let '(neg, r0) :=
    match s with
    | c :: r => if N.eqb c 45 then (true, r) else (false, s)
    | [] => (false, s)
    end in
  let '(ip, r1) :=
    match r0 with
    | c :: r => if N.eqb c 48 then ([c], r) else span_digits r0
    | [] => ([], r0)
    end in
  match ip with
  | [] => None
  | _ =>
      let frac :=
        match r1 with
        | c :: r =>
            if N.eqb c 46 then
              match span_digits r with
              | ([], _) => None
              | (fp, r2) => Some (fp, r2)
              end
            else Some ([], r1)
        | [] => Some ([], r1)
        end in
      match frac with
      | None => None
      | Some (fp, r2) =>
          let expo :=
            match r2 with
            | c :: _ =>
                if N.eqb c 101 || N.eqb c 69 then exponent_of r2
                else Some (0, r2)
            | [] => Some (0, r2)
            end in
          match expo with
          | None => None
          | Some (e, r3) =>
              let m := decimal_value (ip ++ fp) in
              let q := (inject_Z m * pow10 (e - Z.of_nat (List.length fp)))%Q in
              Some (round_Q (if neg then - q else q)%Q, r3)
          end
      end
  end.

(** A JSON value at the head of [s], and the rest of [s].  [fuel] bounds the
    nesting depth; the loops over elements and members are bounded by the
    length of the text, as each round reads at least one character. *)
Fixpoint parse_value (fuel : nat) (s : jsstring) {struct fuel}
  : option (json * jsstring) :=
  match fuel with
  | O => None
  | S f =>
      let fix elements (n : nat) (s : jsstring) (acc : list json) {struct n}
        : option (json * jsstring) :=
        match n with
        | O => None
        | S n' =>
            match parse_value f s with
            | Some (v, r) =>
                match skip_ws r with
                | c :: r' =>
                    if N.eqb c 44 then elements n' r' (v :: acc)
                    else if N.eqb c 93 then Some (JArr (rev (v :: acc)), r')
                    else None
                | [] => None
                end
            | None => None
            end
        end in
      let fix members (n : nat) (s : jsstring) (acc : list (jsstring * json))
        {struct n} : option (json * jsstring) :=
        match n with
        | O => None
        | S n' =>
            match expect 34%N s with
            | Some r =>
                match parse_chars r [] with
                | Some (k, r1) =>
                    match expect 58%N r1 with
                    | Some r2 =>
                        match parse_value f r2 with
                        | Some (v, r3) =>
                            match skip_ws r3 with
                            | c :: r4 =>
                                if N.eqb c 44
                                then members n' r4 (set_prop k v acc)
                                else if N.eqb c 125 then
                                  Some (JObj (set_prop k v acc), r4)
                                else None
                            | [] => None
                            end
                        | None => None
                        end
                    | None => None
                    end
                | None => None
                end
            | None => None
            end
        end in
      match skip_ws s with
      | [] => None
      | c :: r =>
          if N.eqb c 123 then
            match expect 125%N r with
            | Some r' => Some (JObj [], r')
            | None => members (List.length r) r []
            end
          else if N.eqb c 91 then
            match expect 93%N r with
            | Some r' => Some (JArr [], r')
            | None => elements (List.length r) r []
            end
          else if N.eqb c 34 then
            match parse_chars r [] with
            | Some (x, r') => Some (JStr x, r')
            | None => None
            end
          else if N.eqb c 116 then
            option_map (pair (JBool true)) (strip_prefix (str "rue") r)
          else if N.eqb c 102 then
            option_map (pair (JBool false)) (strip_prefix (str "alse") r)
          else if N.eqb c 110 then
            option_map (pair JNull) (strip_prefix (str "ull") r)
          else
            match parse_number (c :: r) with
            | Some (x, r') => Some (JNum x, r')
            | None => None
            end
      end
  end.

(** [JSON.parse(s)]; [None] stands for the SyntaxError it raises. *)
Definition JSON_parse (s : jsstring) : option json :=
  match parse_value (S (List.length s)) s with
  | Some (v, r) =>
      match skip_ws r with
      | [] => Some v
      | _ => None
      end
  | None => None
  end.

(* ================================================================== *)
(** * Exceptions, the runtime and the external services *)
(* ================================================================== *)

(** A thrown Error: its [message], and the numeric [status] the client
    library sets on an API error. *)
Record js_error : Type := {
  err_status : option number;
  err_message : jsstring
}.

(** The outcome of a statement list inside [try]. *)
Inductive completion (A : Type) : Type :=
| Normal (a : A)
| Throw (e : js_error).
Arguments Normal {A} a.
Arguments Throw {A} e.

Definition bind {A B : Type} (c : completion A) (k : A -> completion B)
  : completion B :=
  match c with
  | Normal a => k a
  | Throw e => Throw e
  end.

Notation "x <- c ;; k" := (bind c (fun x => k))
  (at level 61, c at next level, right associativity).

(** What the handlers take from their surroundings besides the request. *)
Record runtime : Type := {
  (** CURRENT_TIMESTAMP of the storage engine when the handler inserts, in
      seconds. *)
  current_timestamp : Z;
  (** The message of the SyntaxError [JSON.parse] raises on a text. *)
  syntax_error_message : jsstring -> jsstring;
  (** The message of the TypeError raised when a property of the value
      cannot be read or created. *)
  type_error_message : json -> jsstring -> jsstring;
  (** The message of the TypeError raised when the value has no primitive
      value. *)
  primitive_error_message : json -> jsstring;
  (** [exifParser.create(buffer).parse()]; [None] when it throws. *)
  exif_parser : list N -> option json;
  (** [(Math.random() * 0.3 + 0.55).toFixed(2)] *)
  random_score : jsstring
}.

(** What [generateContent] and [sendMessage] give back: [response.text],
    and for each part of [response.candidates[0].content.parts] the data of
    its [inlineData] if it has one ([None] when the parts cannot be read). *)
Record model_response : Type := {
  response_text : option jsstring;
  response_parts : option (list (option jsstring))
}.

(** One round trip to the external model. *)
Inductive reply : Type :=
| Replied (r : model_response)
| Failed (e : js_error).

Definition generateContent (ai : reply) : completion model_response :=
  match ai with
  | Replied r => Normal r
  | Failed e => Throw e
  end.

(** [JSON.parse] inside [try]. *)
Definition JSON_parse_or_throw (w : runtime) (s : jsstring) : completion json :=
  match JSON_parse s with
  | Some v => Normal v
  | None => Throw {| err_status := None;
                     err_message := syntax_error_message w s |}
  end.

(** [v.k] for a key no prototype defines: [None] is [undefined]. *)
Definition read_prop (w : runtime) (v : json) (k : jsstring)
  : completion (option json) :=
  match v with
  | JNull => Throw {| err_status := None;
                      err_message := type_error_message w v k |}
  | JObj props => Normal (get_prop k props)
  | _ => Normal None
  end.

(** [v.k = x] in module (strict) code.  A named property of an array is
    not part of its JSON text, and the value is only serialized afterwards,
    so an array is left as it is. *)
Definition write_prop (w : runtime) (v : json) (k : jsstring) (x : json)
  : completion json :=
  match v with
  | JObj props => Normal (JObj (set_prop k x props))
  | JArr _ => Normal v
  | _ => Throw {| err_status := None;
                  err_message := type_error_message w v k |}
  end.

(** ToNumber inside [try]. *)
Definition to_number_or_throw (w : runtime) (v : json) : completion number :=
  match to_number v with
  | Some x => Normal x
  | None => Throw {| err_status := None;
                     err_message := primitive_error_message w v |}
  end.

(** [x != null] *)
Definition not_nullish (x : option json) : bool :=
  match x with
  | None | Some JNull => false
  | Some _ => true
  end.

(** [s || d] on an optional string. *)
Definition or_else (s : option jsstring) (d : jsstring) : jsstring :=
  match s with
  | Some (c :: r) => c :: r
  | _ => d
  end.

(** A string field that is truthy: present and not empty. *)
Definition truthy (s : option jsstring) : option jsstring :=
  match s with
  | Some (c :: r) => Some (c :: r)
  | _ => None
  end.

(** An object literal; a property whose value is [undefined] is not
    serialized. *)
Definition object_of (fields : list (jsstring * option json)) : json :=
  JObj (flat_map (fun kv => match snd kv with
                            | Some v => [(fst kv, v)]
                            | None => []
                            end) fields).

(* ================================================================== *)
(** * The table analysis_history *)
(* ================================================================== *)

(** A row; [created_at] is the second of the insert. *)
Record row : Type := {
  id : Z;
  user_email : jsstring;
  type : jsstring;
  content : jsstring;
  result : jsstring;
  created_at : Z
}.

(** The table, in insertion order. *)
Definition database := list row.

(** The text the storage engine holds for a string that is bound to a
    statement, as it is read back: the binding writes UTF-8, in which a
    surrogate that is not part of a pair becomes U+FFFD. *)
Fixpoint sqlite_text (s : jsstring) : jsstring :=
  match s with
  | [] => []
  | c :: r =>
      if is_high_surrogate c then
        match r with
        | d :: r' =>
            if is_low_surrogate d then c :: d :: sqlite_text r'
            else 65533%N :: sqlite_text r
        | [] => [65533%N]
        end
      else if is_low_surrogate c then 65533%N :: sqlite_text r
      else c :: sqlite_text r
  end.

(** The key AUTOINCREMENT assigns: one more than the largest so far. *)
Definition next_id (db : database) : Z :=
  1 + fold_right (fun r m => Z.max (id r) m) 0 db.

(** [INSERT INTO analysis_history (user_email, type, content, result)
    VALUES (?, ?, ?, ?)] *)
Definition insert (w : runtime) (db : database)
    (email kind summary payload : jsstring) : database :=
  db ++ [{| id := next_id db; user_email := sqlite_text email;
            type := sqlite_text kind; content := sqlite_text summary;
            result := sqlite_text payload;
            created_at := current_timestamp w |}].

(** ORDER BY created_at DESC.  SQL leaves the order of rows with the same
    [created_at] open; the storage engine reads the table in key order and
    its sorter keeps that order among equal keys, so such rows stay in
    insertion order. *)
Fixpoint insert_desc (r : row) (l : list row) : list row :=
  match l with
  | [] => [r]
  | x :: l' =>
      if created_at x <=? created_at r then r :: l
      else x :: insert_desc r l'
  end.

Definition order_by_created_at_desc (l : list row) : list row :=
  fold_right insert_desc [] l.

(** [SELECT * FROM analysis_history WHERE user_email = ?
    ORDER BY created_at DESC LIMIT n] *)
Definition select_history (n : nat) (email : jsstring) (db : database)
  : list row :=
  firstn n
    (order_by_created_at_desc
       (filter (fun r => jsstring_eqb (user_email r) (sqlite_text email))
          db)).

(* ================================================================== *)
(** * Requests and responses *)
(* ================================================================== *)

(** [req.file] as multer leaves it. *)
Record upload : Type := {
  originalname : jsstring;
  mimetype : jsstring;
  buffer : list N
}.

(** The fields the handlers read from [req.body], [req.file] and
    [req.query], at the string types they are used at; [None] is
    [undefined]. *)
Record request : Type := {
  text : option jsstring;
  userEmail : option jsstring;
  language : option jsstring;
  url : option jsstring;
  profileUrl : option jsstring;
  platform : option jsstring;
  message : option jsstring;
  prompt : option jsstring;
  (** the field [type] of the body of POST /api/generate *)
  body_type : option jsstring;
  content1 : option jsstring;
  content2 : option jsstring;
  file : option upload;
  email : option jsstring
}.

(** What is handed to [res.json]: a value, or the rows of a query. *)
Inductive payload : Type :=
| Value (v : json)
| Rows (rs : list row).

Record response : Type := {
  status : Z;
  body : payload
}.

(** [res.json(v)] *)
Definition res_json (v : json) : response :=
  {| status := 200; body := Value v |}.

(** [res.status(code).json({ error: m })] *)
Definition res_error (code : Z) (m : jsstring) : response :=
  {| status := code; body := Value (JObj [(str "error", JStr m)]) |}.

(* ================================================================== *)
(** * The response normalizer of the production server *)
(* ================================================================== *)

(** [s.replace(re, "")] for a global [re] that matches no empty string:
    [matcher] gives what follows a match at the head of its argument. *)
Fixpoint remove_all (matcher : jsstring -> option jsstring) (fuel : nat)
    (s : jsstring) : jsstring :=
  match fuel with
  | O => s
  | S f =>
      match s with
      | [] => []
      | c :: r =>
          match matcher s with
          | Some rest => remove_all matcher f rest
          | None => c :: remove_all matcher f r
          end
      end
  end.

Definition is_letter (lower : N) (c : char16) : bool :=
  (N.eqb c lower || N.eqb c (lower - 32))%bool.

(** The regular expression of three backticks, the letters j, s, o, n in
    either case and any white space, at the head of [s]. *)
Definition json_fence (s : jsstring) : option jsstring :=
  match s with
  | b1 :: b2 :: b3 :: j :: s' :: o :: n :: r =>
      if N.eqb b1 96 && N.eqb b2 96 && N.eqb b3 96 && is_letter 106 j
         && is_letter 115 s' && is_letter 111 o && is_letter 110 n
      then Some (skip_spaces r) else None
  | _ => None
  end.

(** The regular expression of three backticks and any white space, at the
    head of [s]. *)
Definition fence (s : jsstring) : option jsstring :=
  match s with
  | b1 :: b2 :: b3 :: r =>
      if N.eqb b1 96 && N.eqb b2 96 && N.eqb b3 96
      then Some (skip_spaces r) else None
  | _ => None
  end.

(** The first line of [parseJSON]: both replacements and [trim]. *)
Definition strip_fences (text : jsstring) : jsstring :=
  let t1 := remove_all json_fence (List.length text) text in
  trim (remove_all fence (List.length t1) t1).

Fixpoint drop_until (c : char16) (s : jsstring) : jsstring :=
  match s with
  | d :: r => if N.eqb c d then s else drop_until c r
  | [] => []
  end.

(** [t.match(re)[0]] for the expression of an opening brace, any characters
    and a closing brace: the text from the first opening brace to the last
    closing brace after it. *)
Definition match_braces (t : jsstring) : option jsstring :=
  match rev (drop_until 125%N (rev (drop_until 123%N t))) with
  | [] => None
  | (_ :: _) as m => Some m
  end.

(** [parseJSON] of src/unnamed/part_000 *)
Definition parseJSON (text : jsstring) : json :=
  let t := strip_fences text in
  match JSON_parse t with
  | Some v => v
  | None =>
      match match_braces t with
      | Some m =>
          match JSON_parse m with
          | Some v => v
          | None => JObj []
          end
      | None => JObj []
      end
  end.

(* ================================================================== *)
(** * The dev server, src/server.ts *)
(* ================================================================== *)

Definition anonymous : jsstring := str "anonymous".

(** The last [inlineData] among the parts, as a data URL. *)
Definition last_image (parts : list (option jsstring)) : jsstring :=
  fold_left (fun imageUrl part =>
               match part with
               | Some data => str "data:image/png;base64," ++ data
               | None => imageUrl
               end) parts [].

Module Dev.

Definition isQuotaError (e : js_error) : bool :=
  match err_status e with
  | Some x => number_eqb x (of_Z 429)
  | None => false
  end
  || includes (err_message e) (str "429")
  || includes (err_message e) (str "RESOURCE_EXHAUSTED").

Definition mockTextResult (w : runtime) (text : jsstring) : json :=
  JObj [
    (str "aiProbability",
      JNum (of_Z (if (300 <? List.length text)%nat then 72 else 34)));
    (str "humanProbability",
      JNum (of_Z (if (300 <? List.length text)%nat then 28 else 66)));
    (str "confidence", JStr (str "Medium"));
    (str "explanation",
      JStr ((str "**" ++ warning_sign
             ++ str " Demo Mode** (API quota reset pending)" ++ newline
             ++ newline
             ++ str "Based on linguistic pattern analysis of the provided ")
            ++ number_to_string
                 (of_Z (Z.of_nat (List.length (split_on 32%N text))))
            ++ (str "-word text:" ++ newline ++ newline
                ++ str "- **Structural uniformity** detected across "
                ++ str "paragraph transitions" ++ newline
                ++ str "- **Hedging language** appears at above-average "
                ++ str "frequency" ++ newline
                ++ str "- **Vocabulary diversity** score: ")
            ++ random_score w
            ++ (newline ++ newline
                ++ str "This analysis is a demonstration. Full AI-powered "
                ++ str "detection resumes when the API quota resets.")));
    (str "plagiarism",
      JObj [(str "isPlagiarized", JBool false); (str "sources", JArr []);
            (str "score", JNum (of_Z 12))]);
    (str "credibility",
      JObj [(str "rating", JStr (str "Unverified"));
            (str "reason", JStr (str "No source URL provided for "
                                 ++ str "cross-referencing."))]);
    (str "comparison",
      JObj [(str "humanTraits",
              JStr (str "Personal anecdotes, emotional language, "
                    ++ str "irregular sentence lengths, unique perspective."));
            (str "detectedTraits",
              JStr (str "Consistent sentence structure, formal "
                    ++ str "transitions, lack of personal voice, systematic "
                    ++ str "paragraph flow."))]);
    (str "suspiciousSections",
      if (200 <? List.length text)%nat then
        JArr [JObj [
          (str "text", JStr (hd [] (split_on 46%N text) ++ str "."));
          (str "reason",
            JStr (str "Opening sentence follows a common AI pattern: "
                  ++ str "declarative statement without personal context."));
          (str "severity", JStr (str "Medium"))]]
      else JArr [])
  ].

Definition mockImageResult : json :=
  JObj [
    (str "aiProbability", JNum (of_Z 41));
    (str "humanProbability", JNum (of_Z 59));
    (str "confidence", JStr (str "Medium"));
    (str "explanation",
      JStr (str "**" ++ warning_sign
            ++ str " Demo Mode** (API quota reset pending)" ++ newline
            ++ newline ++ str "Visual forensic analysis detected:" ++ newline
            ++ str "- Natural noise patterns consistent with camera sensor"
            ++ newline ++ str "- No obvious splicing artifacts at major edges"
            ++ newline ++ str "- Lighting direction appears consistent"
            ++ newline ++ newline
            ++ str "Full AI-powered image analysis resumes when the API "
            ++ str "quota resets."));
    (str "watermarkDetected", JBool false);
    (str "manipulatedRegions", JArr []);
    (str "reverseSearch",
      JObj [(str "found", JBool false); (str "similarSources", JArr [])])
  ].

Definition mockVideoResult : json :=
  JObj [
    (str "aiProbability", JNum (of_Z 18));
    (str "humanProbability", JNum (of_Z 82));
    (str "confidence", JStr (str "Low"));
    (str "explanation",
      JStr (str "**" ++ warning_sign
            ++ str " Demo Mode** (API quota reset pending)" ++ newline
            ++ newline
            ++ str "Deepfake forensic scan queued. Full video analysis with "
            ++ str "facial landmark tracking, temporal consistency checks, "
            ++ str "and audio-visual sync analysis will run when API quota "
            ++ str "resets."));
    (str "deepfakeSigns",
      JArr [JStr (str "Demo mode " ++ em_dash
                  ++ str " real analysis pending quota reset")])
  ].

Definition mockLinkResult : json :=
  JObj [
    (str "aiProbability", JNum (of_Z 55));
    (str "humanProbability", JNum (of_Z 45));
    (str "confidence", JStr (str "Low"));
    (str "explanation",
      JStr (str "**" ++ warning_sign
            ++ str " Demo Mode** (API quota reset pending)" ++ newline
            ++ newline
            ++ str "URL content could not be fully analyzed. Real-time link "
            ++ str "verification with Google Search grounding will resume "
            ++ str "when API quota resets."));
    (str "sourceRating", JStr (str "Unverified"));
    (str "isFake", JBool false)
  ].

Definition mockProfileResult : json :=
  JObj [
    (str "isAIInfluencer", JBool false);
    (str "botProbability", JNum (of_Z 38));
    (str "humanProbability", JNum (of_Z 62));
    (str "explanation",
      JStr (str "**" ++ warning_sign
            ++ str " Demo Mode** (API quota reset pending)" ++ newline
            ++ newline
            ++ str "Profile signals suggest moderate bot probability based "
            ++ str "on URL pattern analysis. Full behavioral analysis will "
            ++ str "resume when API quota resets."));
    (str "redFlags",
      JArr [JStr (str "Unable to complete full analysis " ++ em_dash
                  ++ str " API quota limit reached");
            JStr (str "Please retry after quota resets (~6:30 AM IST)")])
  ].

(** POST /api/analyze/text *)
Definition analyze_text (w : runtime) (ai : reply) (req : request)
    (db : database) : database * response :=
  match truthy (text req) with
  | None => (db, res_error 400 (str "Text is required"))
  | Some text =>
      let userEmail := or_else (userEmail req) anonymous in
      let attempt :=
        response <- generateContent ai ;;
        result <- JSON_parse_or_throw w
                    (or_else (response_text response) (str "{}")) ;;
        Normal (insert w db userEmail (str "text") (substring0 500 text)
                  (stringify result),
                res_json result) in
      match attempt with
      | Normal out => out
      | Throw error =>
          if isQuotaError error then
            let mock := mockTextResult w text in
            (insert w db userEmail (str "text") (substring0 500 text)
               (stringify mock),
             res_json mock)
          else (db, res_error 500 (err_message error))
      end
  end.

(** POST /api/analyze/image *)
Definition analyze_image (w : runtime) (ai : reply) (req : request)
    (db : database) : database * response :=
  match file req with
  | None => (db, res_error 400 (str "Image is required"))
  | Some file =>
      let userEmail := or_else (userEmail req) anonymous in
      let label := str "Image: " ++ originalname file in
      let attempt :=
        let exifData :=
          match exif_parser w (buffer file) with
          | Some parsed => parsed
          | None => JObj []
          end in
        response <- generateContent ai ;;
        result <- JSON_parse_or_throw w
                    (or_else (response_text response) (str "{}")) ;;
        result <- write_prop w result (str "exif") exifData ;;
        Normal (insert w db userEmail (str "image") label (stringify result),
                res_json result) in
      match attempt with
      | Normal out => out
      | Throw error =>
          if isQuotaError error then
            let mock := mockImageResult in
            (insert w db userEmail (str "image") label (stringify mock),
             res_json mock)
          else (db, res_error 500 (err_message error))
      end
  end.

(** POST /api/analyze/video *)
Definition analyze_video (w : runtime) (ai : reply) (req : request)
    (db : database) : database * response :=
  match file req with
  | None => (db, res_error 400 (str "Video is required"))
  | Some file =>
      let attempt :=
        response <- generateContent ai ;;
        result <- JSON_parse_or_throw w
                    (or_else (response_text response) (str "{}")) ;;
        Normal (insert w db (or_else (userEmail req) anonymous) (str "video")
                  (str "Video: " ++ originalname file) (stringify result),
                res_json result) in
      match attempt with
      | Normal out => out
      | Throw error =>
          if isQuotaError error then (db, res_json mockVideoResult)
          else (db, res_error 500 (err_message error))
      end
  end.

(** POST /api/analyze/link *)
Definition analyze_link (w : runtime) (ai : reply) (req : request)
    (db : database) : database * response :=
  match truthy (url req) with
  | None => (db, res_error 400 (str "URL is required"))
  | Some url =>
      let attempt :=
        response <- generateContent ai ;;
        result <- JSON_parse_or_throw w
                    (or_else (response_text response) (str "{}")) ;;
        Normal (insert w db (or_else (userEmail req) anonymous) (str "link")
                  url (stringify result),
                res_json result) in
      match attempt with
      | Normal out => out
      | Throw error =>
          if isQuotaError error then (db, res_json mockLinkResult)
          else (db, res_error 500 (err_message error))
      end
  end.

(** POST /api/analyze/profile *)
Definition analyze_profile (w : runtime) (ai : reply) (req : request)
    (db : database) : database * response :=
  match truthy (profileUrl req) with
  | None => (db, res_error 400 (str "Profile URL is required"))
  | Some profileUrl =>
      let attempt :=
        response <- generateContent ai ;;
        result <- JSON_parse_or_throw w
                    (or_else (response_text response) (str "{}")) ;;
        Normal (insert w db (or_else (userEmail req) anonymous)
                  (str "profile") profileUrl (stringify result),
                res_json result) in
      match attempt with
      | Normal out => out
      | Throw error =>
          if isQuotaError error then (db, res_json mockProfileResult)
          else (db, res_error 500 (err_message error))
      end
  end.

(** POST /api/generate *)
Definition generate (w : runtime) (ai : reply) (req : request)
    (db : database) : database * response :=
  let attempt :=
    response <- generateContent ai ;;
    if match body_type req with
       | Some t => jsstring_eqb t (str "image")
       | None => false
       end
    then
      match response_parts response with
      | Some parts =>
          Normal (res_json (JObj [(str "imageUrl", JStr (last_image parts))]))
      | None =>
          Throw {| err_status := None;
                   err_message := type_error_message w JNull (str "parts") |}
      end
    else
      Normal (res_json
                (object_of [(str "text",
                             option_map JStr (response_text response))])) in
  match attempt with
  | Normal out => (db, out)
  | Throw error => (db, res_error 500 (err_message error))
  end.

(** POST /api/chat *)
Definition chat (w : runtime) (ai : reply) (req : request) (db : database)
  : database * response :=
  let attempt :=
    response <- generateContent ai ;;
    Normal (res_json
              (object_of [(str "text",
                           option_map JStr (response_text response))])) in
  match attempt with
  | Normal out => (db, out)
  | Throw error => (db, res_error 500 (err_message error))
  end.

(** GET /api/history *)
Definition history (req : request) (db : database) : database * response :=
  let rows := select_history 20 (or_else (email req) anonymous) db in
  (db, {| status := 200; body := Rows rows |}).

End Dev.

(* ================================================================== *)
(** * The production server, src/unnamed/part_000 *)
(* ================================================================== *)

Module Prod.

Definition isQuotaError (e : js_error) : bool :=
  match err_status e with
  | Some x => number_eqb x (of_Z 429)
  | None => false
  end
  || includes (err_message e) (str "429")
  || includes (err_message e) (str "RESOURCE_EXHAUSTED").

Definition mockTextResult (text : jsstring) : json :=
  JObj [
    (str "aiProbability",
      JNum (of_Z (if (300 <? List.length text)%nat then 72 else 34)));
    (str "humanProbability",
      JNum (of_Z (if (300 <? List.length text)%nat then 28 else 66)));
    (str "confidence", JStr (str "Medium"));
    (str "explanation",
      JStr ((str "**" ++ warning_sign
             ++ str " Demo Mode** (API quota reset pending)" ++ newline
             ++ newline ++ str "Based on linguistic pattern analysis of the ")
            ++ number_to_string
                 (of_Z (Z.of_nat (List.length (split_on 32%N text))))
            ++ (str "-word text, structural uniformity and hedging "
                ++ str "language appear at above-average frequency. This is "
                ++ str "a demonstration; full AI-powered detection resumes "
                ++ str "when the quota resets.")));
    (str "plagiarism",
      JObj [(str "isPlagiarized", JBool false); (str "sources", JArr []);
            (str "score", JNum (of_Z 12))]);
    (str "credibility",
      JObj [(str "rating", JStr (str "Unverified"));
            (str "reason", JStr (str "No source URL provided."))]);
    (str "comparison",
      JObj [(str "humanTraits",
              JStr (str "Personal anecdotes, irregular sentence lengths."));
            (str "detectedTraits",
              JStr (str "Consistent structure, formal transitions."))]);
    (str "suspiciousSections", JArr [])
  ].

Definition mockImageResult : json :=
  JObj [
    (str "aiProbability", JNum (of_Z 41));
    (str "humanProbability", JNum (of_Z 59));
    (str "confidence", JStr (str "Medium"));
    (str "explanation",
      JStr (str "**" ++ warning_sign ++ str " Demo Mode** " ++ em_dash
            ++ str " API quota pending. Full forensic image analysis will "
            ++ str "resume when quota resets."));
    (str "watermarkDetected", JBool false);
    (str "manipulatedRegions", JArr []);
    (str "reverseSearch",
      JObj [(str "found", JBool false); (str "similarSources", JArr [])])
  ].

Definition mockVideoResult : json :=
  JObj [
    (str "aiProbability", JNum (of_Z 18));
    (str "humanProbability", JNum (of_Z 82));
    (str "confidence", JStr (str "Low"));
    (str "explanation",
      JStr (str "**" ++ warning_sign ++ str " Demo Mode** " ++ em_dash
            ++ str " Full deepfake video analysis pending quota reset."));
    (str "deepfakeSigns",
      JArr [JStr (str "Demo mode " ++ em_dash
                  ++ str " real analysis pending quota reset")])
  ].

Definition mockLinkResult : json :=
  JObj [
    (str "aiProbability", JNum (of_Z 55));
    (str "humanProbability", JNum (of_Z 45));
    (str "confidence", JStr (str "Low"));
    (str "explanation",
      JStr (str "**" ++ warning_sign ++ str " Demo Mode** " ++ em_dash
            ++ str " URL verification pending quota reset."));
    (str "sourceRating", JStr (str "Unverified"));
    (str "isFake", JBool false)
  ].

Definition mockProfileResult : json :=
  JObj [
    (str "isAIInfluencer", JBool false);
    (str "botProbability", JNum (of_Z 38));
    (str "humanProbability", JNum (of_Z 62));
    (str "explanation",
      JStr (str "**" ++ warning_sign ++ str " Demo Mode** " ++ em_dash
            ++ str " Profile analysis pending quota reset."));
    (str "redFlags", JArr [JStr (str "API quota limit reached")])
  ].

(** The statement every handler but the profile one runs on the parsed
    result: [if (result.aiProbability != null && result.humanProbability ==
    null) result.humanProbability = 100 - result.aiProbability]. *)
Definition backfill (w : runtime) (result : json) : completion json :=
  aiProbability <- read_prop w result (str "aiProbability") ;;
  match aiProbability with
  | Some ai =>
      if not_nullish (Some ai) then
        humanProbability <- read_prop w result (str "humanProbability") ;;
        if negb (not_nullish humanProbability) then
          x <- to_number_or_throw w ai ;;
          write_prop w result (str "humanProbability")
            (JNum (js_sub (of_Z 100) x))
        else Normal result
      else Normal result
  | None => Normal result
  end.

(** POST /api/analyze/text *)
Definition analyze_text (w : runtime) (ai : reply) (req : request)
    (db : database) : database * response :=
  match truthy (text req) with
  | None => (db, res_error 400 (str "Text is required"))
  | Some text =>
      let attempt :=
        response <- generateContent ai ;;
        result <- backfill w
                    (parseJSON (or_else (response_text response) [])) ;;
        Normal (insert w db (or_else (userEmail req) anonymous) (str "text")
                  (substring0 500 text) (stringify result),
                res_json result) in
      match attempt with
      | Normal out => out
      | Throw error =>
          if isQuotaError error then (db, res_json (mockTextResult text))
          else (db, res_error 500 (err_message error))
      end
  end.

(** POST /api/analyze/image *)
Definition analyze_image (w : runtime) (ai : reply) (req : request)
    (db : database) : database * response :=
  match file req with
  | None => (db, res_error 400 (str "Image is required"))
  | Some file =>
      let attempt :=
        let exifData :=
          match exif_parser w (buffer file) with
          | Some parsed => parsed
          | None => JObj []
          end in
        response <- generateContent ai ;;
        result <- backfill w
                    (parseJSON (or_else (response_text response) [])) ;;
        result <- write_prop w result (str "exif") exifData ;;
        Normal (insert w db (or_else (userEmail req) anonymous) (str "image")
                  (str "Image: "
                     ++ or_else (Some (originalname file)) (str "upload"))
                  (stringify result),
                res_json result) in
      match attempt with
      | Normal out => out
      | Throw error =>
          if isQuotaError error then (db, res_json mockImageResult)
          else (db, res_error 500 (err_message error))
      end
  end.

(** POST /api/analyze/video *)
Definition analyze_video (w : runtime) (ai : reply) (req : request)
    (db : database) : database * response :=
  match file req with
  | None => (db, res_error 400 (str "Video is required"))
  | Some file =>
      let attempt :=
        response <- generateContent ai ;;
        result <- backfill w
                    (parseJSON (or_else (response_text response) [])) ;;
        Normal (insert w db (or_else (userEmail req) anonymous) (str "video")
                  (str "Video: " ++ originalname file) (stringify result),
                res_json result) in
      match attempt with
      | Normal out => out
      | Throw error =>
          if isQuotaError error then (db, res_json mockVideoResult)
          else (db, res_error 500 (err_message error))
      end
  end.

(** POST /api/analyze/link *)
Definition analyze_link (w : runtime) (ai : reply) (req : request)
    (db : database) : database * response :=
  match truthy (url req) with
  | None => (db, res_error 400 (str "URL is required"))
  | Some url =>
      let attempt :=
        response <- generateContent ai ;;
        result <- backfill w
                    (parseJSON (or_else (response_text response) [])) ;;
        Normal (insert w db (or_else (userEmail req) anonymous) (str "link")
                  url (stringify result),
                res_json result) in
      match attempt with
      | Normal out => out
      | Throw error =>
          if isQuotaError error then (db, res_json mockLinkResult)
          else (db, res_error 500 (err_message error))
      end
  end.

(** POST /api/analyze/profile *)
Definition analyze_profile (w : runtime) (ai : reply) (req : request)
    (db : database) : database * response :=
  match truthy (profileUrl req) with
  | None => (db, res_error 400 (str "Profile URL is required"))
  | Some profileUrl =>
      let attempt :=
        response <- generateContent ai ;;
        let result := parseJSON (or_else (response_text response) []) in
        Normal (insert w db (or_else (userEmail req) anonymous)
                  (str "profile") profileUrl (stringify result),
                res_json result) in
      match attempt with
      | Normal out => out
      | Throw error =>
          if isQuotaError error then (db, res_json mockProfileResult)
          else (db, res_error 500 (err_message error))
      end
  end.

(** POST /api/chat *)
Definition chat (w : runtime) (ai : reply) (req : request) (db : database)
  : database * response :=
  let attempt :=
    response <- generateContent ai ;;
    Normal (res_json
              (object_of [(str "text",
                           option_map JStr (response_text response))])) in
  match attempt with
  | Normal out => (db, out)
  | Throw error => (db, res_error 500 (err_message error))
  end.

(** GET /api/history *)
Definition history (req : request) (db : database) : database * response :=
  let rows := select_history 20 (or_else (email req) anonymous) db in
  (db, {| status := 200; body := Rows rows |}).

End Prod.

(* ================================================================== *)
(** * The serverless handler, src/unnamed/part_001 *)
(* ================================================================== *)

Module Serverless.

Definition isQuotaError (e : js_error) : bool :=
  match err_status e with
  | Some x => number_eqb x (of_Z 429)
  | None => false
  end
  || includes (err_message e) (str "429")
  || includes (err_message e) (str "RESOURCE_EXHAUSTED").

Definition mockTextResult (text : jsstring) : json :=
  JObj [
    (str "aiProbability",
      JNum (of_Z (if (300 <? List.length text)%nat then 72 else 34)));
    (str "humanProbability",
      JNum (of_Z (if (300 <? List.length text)%nat then 28 else 66)));
    (str "confidence", JStr (str "Medium"));
    (str "explanation",
      JStr ((str "**" ++ warning_sign
             ++ str " Demo Mode** (API quota reset pending)" ++ newline
             ++ newline
             ++ str "Based on linguistic pattern analysis of the provided ")
            ++ number_to_string
                 (of_Z (Z.of_nat (List.length (split_on 32%N text))))
            ++ (str "-word text:" ++ newline ++ newline
                ++ str "- **Structural uniformity** detected across "
                ++ str "paragraph transitions" ++ newline
                ++ str "- **Hedging language** appears at above-average "
                ++ str "frequency" ++ newline ++ newline
                ++ str "Full AI-powered detection resumes when the API "
                ++ str "quota resets.")));
    (str "plagiarism",
      JObj [(str "isPlagiarized", JBool false); (str "sources", JArr []);
            (str "score", JNum (of_Z 12))]);
    (str "credibility",
      JObj [(str "rating", JStr (str "Unverified"));
            (str "reason", JStr (str "No source URL provided for "
                                 ++ str "cross-referencing."))]);
    (str "comparison",
      JObj [(str "humanTraits",
              JStr (str "Personal anecdotes, emotional language, "
                    ++ str "irregular sentence lengths."));
            (str "detectedTraits",
              JStr (str "Consistent sentence structure, formal "
                    ++ str "transitions, lack of personal voice."))]);
    (str "suspiciousSections",
      JArr [JObj [
        (str "text", JStr (substring0 80 text));
        (str "reason",
          JStr (str "Overly formal sentence structure with uniform "
                ++ str "pacing."));
        (str "severity", JStr (str "Medium"))]])
  ].

Definition mockImageResult : json :=
  JObj [
    (str "aiProbability", JNum (of_Z 41));
    (str "humanProbability", JNum (of_Z 59));
    (str "confidence", JStr (str "Medium"));
    (str "explanation",
      JStr (str "**" ++ warning_sign
            ++ str " Demo Mode** (API quota reset pending)" ++ newline
            ++ newline ++ str "Visual forensic analysis detected:" ++ newline
            ++ newline
            ++ str "- Natural noise patterns consistent with camera sensor"
            ++ newline ++ str "- No obvious splicing artifacts at major edges"
            ++ newline ++ str "- Lighting direction appears consistent"
            ++ newline ++ newline
            ++ str "Full AI-powered image analysis resumes when the API "
            ++ str "quota resets."));
    (str "watermarkDetected", JBool false);
    (str "manipulatedRegions",
      JArr [JObj [(str "region", JStr (str "Background"));
                  (str "issue", JStr (str "Slight compression artifact "
                                      ++ str "detected"));
                  (str "severity", JStr (str "Low"))]]);
    (str "reverseSearch",
      JObj [(str "found", JBool false); (str "similarSources", JArr [])])
  ].

(** POST /api/analyze/text *)
Definition analyze_text (w : runtime) (ai : reply) (req : request)
    (db : database) : database * response :=
  match truthy (text req) with
  | None => (db, res_error 400 (str "Text is required"))
  | Some text =>
      let attempt :=
        response <- generateContent ai ;;
        result <- JSON_parse_or_throw w
                    (or_else (response_text response) (str "{}")) ;;
        Normal (insert w db (or_else (userEmail req) anonymous) (str "text")
                  (substring0 500 text) (stringify result),
                res_json result) in
      match attempt with
      | Normal out => out
      | Throw error =>
          if isQuotaError error then (db, res_json (mockTextResult text))
          else (db, res_error 500 (err_message error))
      end
  end.

(** POST /api/analyze/image *)
Definition analyze_image (w : runtime) (ai : reply) (req : request)
    (db : database) : database * response :=
  match file req with
  | None => (db, res_error 400 (str "Image is required"))
  | Some file =>
      let attempt :=
        let exifData :=
          match exif_parser w (buffer file) with
          | Some parsed => parsed
          | None => JObj []
          end in
        response <- generateContent ai ;;
        result <- JSON_parse_or_throw w
                    (or_else (response_text response) (str "{}")) ;;
        result <- write_prop w result (str "exif") exifData ;;
        Normal (insert w db (or_else (userEmail req) anonymous) (str "image")
                  (str "Image: " ++ originalname file) (stringify result),
                res_json result) in
      match attempt with
      | Normal out => out
      | Throw error =>
          if isQuotaError error then (db, res_json mockImageResult)
          else (db, res_error 500 (err_message error))
      end
  end.

(** POST /api/analyze/video *)
Definition analyze_video (w : runtime) (ai : reply) (req : request)
    (db : database) : database * response :=
  match file req with
  | None => (db, res_error 400 (str "Video is required"))
  | Some file =>
      let attempt :=
        response <- generateContent ai ;;
        result <- JSON_parse_or_throw w
                    (or_else (response_text response) (str "{}")) ;;
        Normal (insert w db (or_else (userEmail req) anonymous) (str "video")
                  (str "Video: " ++ originalname file) (stringify result),
                res_json result) in
      match attempt with
      | Normal out => out
      | Throw error =>
          if isQuotaError error then
            (db, res_json (JObj [
               (str "aiProbability", JNum (of_Z 55));
               (str "humanProbability", JNum (of_Z 45));
               (str "confidence", JStr (str "Medium"));
               (str "explanation",
                 JStr (str "**" ++ warning_sign
                       ++ str " Demo Mode** - Video analysis unavailable "
                       ++ str "during quota limit."));
               (str "deepfakeSigns",
                 JArr [JStr (str "Quota limit reached " ++ em_dash
                             ++ str " demo mode active")])]))
          else (db, res_error 500 (err_message error))
      end
  end.

(** POST /api/analyze/link *)
Definition analyze_link (w : runtime) (ai : reply) (req : request)
    (db : database) : database * response :=
  match truthy (url req) with
  | None => (db, res_error 400 (str "URL is required"))
  | Some url =>
      let attempt :=
        response <- generateContent ai ;;
        result <- JSON_parse_or_throw w
                    (or_else (response_text response) (str "{}")) ;;
        Normal (insert w db (or_else (userEmail req) anonymous) (str "link")
                  url (stringify result),
                res_json result) in
      match attempt with
      | Normal out => out
      | Throw error =>
          if isQuotaError error then
            (db, res_json (JObj [
               (str "aiProbability", JNum (of_Z 40));
               (str "humanProbability", JNum (of_Z 60));
               (str "confidence", JStr (str "Medium"));
               (str "explanation", JStr (str "**" ++ warning_sign
                                         ++ str " Demo Mode**"));
               (str "credibilityRating", JStr (str "Unverified"));
               (str "isFake", JBool false);
               (str "redFlags", JArr [JStr (str "Quota limit reached")])]))
          else (db, res_error 500 (err_message error))
      end
  end.

(** POST /api/analyze/profile *)
Definition analyze_profile (w : runtime) (ai : reply) (req : request)
    (db : database) : database * response :=
  match truthy (url req) with
  | None => (db, res_error 400 (str "Profile URL is required"))
  | Some url =>
      let attempt :=
        response <- generateContent ai ;;
        result <- JSON_parse_or_throw w
                    (or_else (response_text response) (str "{}")) ;;
        Normal (insert w db (or_else (userEmail req) anonymous)
                  (str "profile") url (stringify result),
                res_json result) in
      match attempt with
      | Normal out => out
      | Throw error =>
          if isQuotaError error then
            (db, res_json (JObj [
               (str "aiProbability", JNum (of_Z 35));
               (str "humanProbability", JNum (of_Z 65));
               (str "confidence", JStr (str "Medium"));
               (str "explanation", JStr (str "**" ++ warning_sign
                                         ++ str " Demo Mode**"));
               (str "botProbability", JNum (of_Z 22));
               (str "isAIInfluencer", JBool false);
               (str "redFlags", JArr [JStr (str "Quota limit reached")])]))
          else (db, res_error 500 (err_message error))
      end
  end.

(** POST /api/chat *)
Definition chat (w : runtime) (ai : reply) (req : request) (db : database)
  : database * response :=
  match truthy (message req) with
  | None => (db, res_error 400 (str "Message required"))
  | Some message =>
      match generateContent ai with
      | Normal response =>
          (db, res_json
                 (object_of [(str "text",
                              option_map JStr (response_text response))]))
      | Throw error =>
          (db, res_json (JObj [
             (str "text",
               JStr (str "I'm currently in demo mode due to API quota "
                     ++ str "limits. Please try again later!"))]))
      end
  end.

(** GET /api/history *)
Definition history (req : request) (db : database) : database * response :=
  let rows := select_history 50 (or_else (email req) anonymous) db in
  (db, {| status := 200; body := Rows rows |}).

(** POST /api/compare *)
Definition compare (w : runtime) (ai : reply) (req : request)
    (db : database) : database * response :=
  match generateContent ai with
  | Normal response =>
      (db, res_json
             (object_of [(str "comparison",
                          option_map JStr (response_text response))]))
  | Throw e =>
      (db, res_json (JObj [
         (str "comparison", JStr (str "Comparison unavailable in demo "
                                  ++ str "mode."))]))
  end.

(** POST /api/generate *)
Definition generate (w : runtime) (ai : reply) (req : request)
    (db : database) : database * response :=
  match generateContent ai with
  | Normal response =>
      (db, res_json
             (object_of [(str "text",
                          option_map JStr (response_text response))]))
  | Throw e =>
      (db, res_json (JObj [
         (str "text", JStr (str "Generation unavailable in demo mode."))]))
  end.

End Serverless.

(* ================================================================== *)
(** * The three servers side by side *)
(* ================================================================== *)

Inductive server : Type := DevServer | ProdServer | ServerlessHandler.

Inductive endpoint : Type := Text | Image | Video | Link | Profile.

Definition handler : Type :=
  runtime -> reply -> request -> database -> database * response.

(** POST /api/analyze/... of each server. *)
Definition analyze (v : server) (ep : endpoint) : handler :=
  match v, ep with
  | DevServer, Text => Dev.analyze_text
  | DevServer, Image => Dev.analyze_image
  | DevServer, Video => Dev.analyze_video
  | DevServer, Link => Dev.analyze_link
  | DevServer, Profile => Dev.analyze_profile
  | ProdServer, Text => Prod.analyze_text
  | ProdServer, Image => Prod.analyze_image
  | ProdServer, Video => Prod.analyze_video
  | ProdServer, Link => Prod.analyze_link
  | ProdServer, Profile => Prod.analyze_profile
  | ServerlessHandler, Text => Serverless.analyze_text
  | ServerlessHandler, Image => Serverless.analyze_image
  | ServerlessHandler, Video => Serverless.analyze_video
  | ServerlessHandler, Link => Serverless.analyze_link
  | ServerlessHandler, Profile => Serverless.analyze_profile
  end.

(** GET /api/history of each server. *)
Definition history (v : server) (req : request) (db : database)
  : database * response :=
  match v with
  | DevServer => Dev.history req db
  | ProdServer => Prod.history req db
  | ServerlessHandler => Serverless.history req db
  end.

(** The routes that reach a handler of this repository. *)
Inductive route : Type :=
| Analyze (ep : endpoint)
| Chat
| Generate
| Compare
| History.

Definition serve (v : server) (rt : route) : option handler :=
  match rt, v with
  | Analyze ep, _ => Some (analyze v ep)
  | History, _ => Some (fun _ _ => history v)
  | Chat, DevServer => Some Dev.chat
  | Chat, ProdServer => Some Prod.chat
  | Chat, ServerlessHandler => Some Serverless.chat
  | Generate, DevServer => Some Dev.generate
  | Generate, ServerlessHandler => Some Serverless.generate
  | Compare, ServerlessHandler => Some Serverless.compare
  | Generate, ProdServer | Compare, DevServer | Compare, ProdServer => None
  end.

Definition isQuotaError (v : server) : js_error -> bool :=
  match v with
  | DevServer => Dev.isQuotaError
  | ProdServer => Prod.isQuotaError
  | ServerlessHandler => Serverless.isQuotaError
  end.

(** The LIMIT of the history query. *)
Definition history_limit (v : server) : nat :=
  match v with
  | DevServer | ProdServer => 20%nat
  | ServerlessHandler => 50%nat
  end.

(** The value of the column [type] an endpoint writes. *)
Definition endpoint_name (ep : endpoint) : jsstring :=
  match ep with
  | Text => str "text"
  | Image => str "image"
  | Video => str "video"
  | Link => str "link"
  | Profile => str "profile"
  end.

(** The request passes the guard of the endpoint, so that the external
    model is called. *)
Definition accepted (v : server) (ep : endpoint) (req : request) : bool :=
  match ep, v with
  | Text, _ => match truthy (text req) with Some _ => true | None => false end
  | Image, _ | Video, _ =>
      match file req with Some _ => true | None => false end
  | Link, _ | Profile, ServerlessHandler =>
      match truthy (url req) with Some _ => true | None => false end
  | Profile, _ =>
      match truthy (profileUrl req) with Some _ => true | None => false end
  end.

(** The handlers that also write a row when they answer with the demo
    result. *)
Definition records_fallback (v : server) (ep : endpoint) : bool :=
  match v, ep with
  | DevServer, Text | DevServer, Image => true
  | _, _ => false
  end.

(** What a server makes of the text of a reply before it looks at the
    result: [None] when [JSON.parse] throws. *)
Definition parsed_reply (v : server) (r : model_response) : option json :=
  match v with
  | ProdServer => Some (parseJSON (or_else (response_text r) []))
  | _ => JSON_parse (or_else (response_text r) (str "{}"))
  end.

(** Reading a response. *)
Definition field (k : jsstring) (v : json) : option json :=
  match v with
  | JObj props => get_prop k props
  | _ => None
  end.

Definition response_field (k : jsstring) (r : response) : option json :=
  match body r with
  | Value v => field k v
  | Rows _ => None
  end.

Definition response_rows (r : response) : list row :=
  match body r with
  | Rows rs => rs
  | Value _ => []
  end.

(** The explanation of the response is a string that contains "Demo Mode". *)
Definition demo_mode (r : response) : bool :=
  match response_field (str "explanation") r with
  | Some (JStr s) => includes s (str "Demo Mode")
  | _ => false
  end.

(** [humanProbability + aiProbability] of the returned object is 100. *)
Definition sums_to_100 (r : response) : Prop :=
  exists a h : number,
    response_field (str "aiProbability") r = Some (JNum a)
    /\ response_field (str "humanProbability") r = Some (JNum h)
    /\ js_add h a = of_Z 100.

(** The rows stored for a user identifier: those the condition
    [user_email = ?] selects when the identifier is bound to it. *)
Definition rows_of (email : jsstring) (db : database) : list row :=
  filter (fun r => jsstring_eqb (user_email r) (sqlite_text email)) db.

(** [db'] is [db] with at most one row added at its end. *)
Definition extends (db db' : database) : Prop :=
  exists added, db' = db ++ added /\ (List.length added <= 1)%nat.

(** Descending creation time. *)
Definition newest_first (rs : list row) : Prop :=
  Sorted (fun a b => created_at b <= created_at a) rs.

(* ================================================================== *)
(** * The normalizer as the specification words it *)
(* ================================================================== *)

(** A serialization inside a Markdown fence: an opening fence line with
    the language tag, the text, a closing fence line. *)
Definition wrap_fences (s : jsstring) : jsstring :=
  str "```json" ++ newline ++ s ++ newline ++ str "```".

(** The order of attempts as the specification has it: a strict parse of
    the raw text comes first, and only when it fails are the fences
    stripped.  This definition follows the words of the specification, not
    the source, and is compared with [parseJSON] below. *)
Definition parseJSON_as_specified (text : jsstring) : json :=
  match JSON_parse text with
  | Some v => v
  | None =>
      let t := strip_fences text in
      match JSON_parse t with
      | Some v => v
      | None =>
          match match_braces t with
          | Some m =>
              match JSON_parse m with
              | Some v => v
              | None => JObj []
              end
          | None => JObj []
          end
      end
  end.

(** [a] is [b] with some of its characters left out. *)
Inductive subseq : jsstring -> jsstring -> Prop :=
| subseq_nil : subseq [] []
| subseq_keep (c : char16) (a b : jsstring) :
    subseq a b -> subseq (c :: a) (c :: b)
| subseq_drop (c : char16) (a b : jsstring) :
    subseq a b -> subseq a (c :: b).

(** The text holds an opening brace and a closing brace after it. *)
Definition has_object_pattern (text : jsstring) : bool :=
  match match_braces text with
  | Some _ => true
  | None => false
  end.

(* ================================================================== *)
(** * Sample inputs *)
(* ================================================================== *)

(** A runtime for the examples. *)
Definition sample_runtime (now : Z) : runtime := {|
  current_timestamp := now;
  syntax_error_message := fun s =>
    str "Unexpected token in JSON: " ++ substring0 10 s;
  type_error_message := fun _ k =>
    str "Cannot read properties of null (reading '" ++ k ++ str "')";
  primitive_error_message := fun _ =>
    str "Cannot convert object to primitive value";
  exif_parser := fun _ => None;
  random_score := str "0.63"
|}.

Definition empty_request : request := {|
  text := None; userEmail := None; language := None; url := None;
  profileUrl := None; platform := None; message := None; prompt := None;
  body_type := None; content1 := None; content2 := None; file := None;
  email := None
|}.

Definition text_request (t : jsstring) (user : option jsstring) : request := {|
  text := Some t; userEmail := user; language := None; url := None;
  profileUrl := None; platform := None; message := None; prompt := None;
  body_type := None; content1 := None; content2 := None; file := None;
  email := None
|}.

Definition sample_upload (name kind : jsstring) : upload :=
  {| originalname := name; mimetype := kind; buffer := [137; 80; 78; 71]%N |}.

Definition upload_request (name kind : jsstring) : request := {|
  text := None; userEmail := None; language := None; url := None;
  profileUrl := None; platform := None; message := None; prompt := None;
  body_type := None; content1 := None; content2 := None;
  file := Some (sample_upload name kind);
  email := None
|}.

Definition history_request (user : option jsstring) : request := {|
  text := None; userEmail := None; language := None; url := None;
  profileUrl := None; platform := None; message := None; prompt := None;
  body_type := None; content1 := None; content2 := None; file := None;
  email := user
|}.

(** The error of the client library on HTTP 429. *)
Definition rate_limited : js_error := {|
  err_status := Some (of_Z 429);
  err_message := str "You exceeded your current quota"
|}.

(** An upstream failure that is no rate limit: an internal error whose
    message quotes a request number. *)
Definition unrelated_failure : js_error := {|
  err_status := Some (of_Z 500);
  err_message := str "Internal error while serving request 1042917"
|}.

Definition replied (s : jsstring) : reply :=
  Replied {| response_text := Some s; response_parts := None |}.

Definition quoted (s : string) : jsstring := dquote ++ str s ++ dquote.

(** The reply [{"aiProbability": 70}]. *)
Definition reply_only_ai : jsstring :=
  str "{" ++ quoted "aiProbability" ++ str ": 70}".

(** The reply [{"humanProbability": 30}]. *)
Definition reply_only_human : jsstring :=
  str "{" ++ quoted "humanProbability" ++ str ": 30}".

(** The reply [{"aiProbability": 80, "humanProbability": 20}]. *)
Definition reply_both : jsstring :=
  str "{" ++ quoted "aiProbability" ++ str ": 80, "
    ++ quoted "humanProbability" ++ str ": 20}".

(** The reply [{"aiProbability": 99.9}]. *)
Definition reply_fraction_ai : jsstring :=
  str "{" ++ quoted "aiProbability" ++ str ": 99.9}".

(** The reply [{"aiProbability": "high"}]. *)
Definition reply_word_ai : jsstring :=
  str "{" ++ quoted "aiProbability" ++ str ": " ++ quoted "high" ++ str "}".

(** The reply [{"aiProbability": {"toString": 1}}], whose aiProbability has
    no primitive value. *)
Definition reply_unconvertible_ai : jsstring :=
  str "{" ++ quoted "aiProbability" ++ str ": {" ++ quoted "toString"
    ++ str ": 1}}".

(** The text [{"a":"```"}], the serialization of an object whose one
    string is three backticks. *)
Definition backticks_object : json := JObj [(str "a", JStr (str "```"))].

(** Two analyses for ada@example.org, at seconds 10 and 20, with one of
    another user between them, on the dev server. *)
Definition sample_history : database :=
  let ada := Some (str "ada@example.org") in
  let db1 := fst (Dev.analyze_text (sample_runtime 10) (replied reply_both)
                    (text_request (str "first text") ada) []) in
  let db2 := fst (Dev.analyze_text (sample_runtime 15) (replied reply_both)
                    (text_request (str "other text") None) db1) in
  fst (Dev.analyze_text (sample_runtime 20) (replied reply_only_ai)
         (text_request (str "second text") ada) db2).

(** Two analyses for ada@example.org in the same second, on the dev
    server. *)
Definition same_second_history : database :=
  let ada := Some (str "ada@example.org") in
  let db1 := fst (Dev.analyze_text (sample_runtime 10) (replied reply_both)
                    (text_request (str "first text") ada) []) in
  fst (Dev.analyze_text (sample_runtime 10) (replied reply_only_ai)
         (text_request (str "second text") ada) db1).

(* ================================================================== *)
(** * The client components of src/server.ts *)
(* ================================================================== *)

(** The pure parts of the React components that follow the dev server in
    [src/server.ts]: [HighlightedText], the verdict of [ResultDisplay] and
    the user name of [ProfileVerifier] (module [Client]). *)

(** [s.indexOf(sub)]; [None] is the result -1. *)
Fixpoint index_of (s sub : jsstring) : option nat :=
  match strip_prefix sub s with
  | Some _ => Some O
  | None =>
      match s with
      | [] => None
      | _ :: s' => option_map S (index_of s' sub)
      end
  end.

(** [a >= b] on numbers: false as soon as one side is NaN. *)
Definition js_ge (a b : number) : bool :=
  match a, b with
  | NaN, _ | _, NaN => false
  | PosInf, _ | _, NegInf => true
  | NegInf, _ | _, PosInf => false
  | Fin x, Fin y => Qle_bool y x
  end.

(** [x ?? d] *)
Definition nullish_or (x : option json) (d : json) : json :=
  match x with
  | None | Some JNull => d
  | Some v => v
  end.

Module Client.

(** An element of [suspiciousSections], at the types [HighlightedText]
    uses its fields at. *)
Record suspicious_section : Type := {
  text : jsstring;
  reason : jsstring;
  severity : jsstring
}.

(** The [span] around a match.  [className] holds the arguments of [cn];
    the [key], which React keeps to itself and does not render, is left
    out. *)
Record span : Type := {
  className : list jsstring;
  title : jsstring;
  children : jsstring
}.

(** An element of [parts]: a string, or the node of a match. *)
Inductive part : Type :=
| Plain (s : jsstring)
| Mark (e : span).

Definition severity_class (severity : jsstring) : jsstring :=
  if jsstring_eqb severity (str "High")
  then str "bg-rose-500/20 border-rose-500/50 hover:bg-rose-500/40"
  else if jsstring_eqb severity (str "Medium")
  then str "bg-amber-500/20 border-amber-500/50 hover:bg-amber-500/40"
  else str "bg-blue-500/20 border-blue-500/50 hover:bg-blue-500/40".

Definition mark (section : suspicious_section) (matched : jsstring) : span :=
  {| className := [str "px-1 rounded cursor-help transition-all border-b-2";
                   severity_class (severity section)];
     title := severity section ++ str " Severity: " ++ reason section;
     children := matched |}.

(** The body of the inner [forEach]: what one part adds to [newParts]. *)
Definition split_part (section : suspicious_section) (p : part) : list part :=
  match p with
  | Mark _ => [p]
  | Plain s =>
      match index_of s (text section) with
      | None => [p]
      | Some index =>
          let before := firstn index s in
          let matched :=
            firstn (List.length (text section)) (skipn index s) in
          let after := skipn (index + List.length (text section)) s in
          match before with [] => [] | _ :: _ => [Plain before] end
          ++ [Mark (mark section matched)]
          ++ match after with [] => [] | _ :: _ => [Plain after] end
      end
  end.

(** [sort((a, b) => b.text.length - a.text.length)]: the longest text
    first; the sort is stable. *)
Fixpoint insert_longer (s : suspicious_section) (l : list suspicious_section)
  : list suspicious_section :=
  match l with
  | [] => [s]
  | x :: l' =>
      if (List.length (text x) <=? List.length (text s))%nat then s :: l
      else x :: insert_longer s l'
  end.

Definition sort_by_length_desc (l : list suspicious_section)
  : list suspicious_section :=
  fold_right insert_longer [] l.

(** What [HighlightedText] returns: the paragraph of the plain text, or the
    block of the parts. *)
Inductive rendering : Type :=
| Paragraph (s : jsstring)
| Block (parts : list part).

(** [HighlightedText]; [None] is a [suspiciousSections] that is undefined
    or null. *)
Definition HighlightedText (text : jsstring)
    (suspiciousSections : option (list suspicious_section)) : rendering :=
  match suspiciousSections with
  | None | Some [] => Paragraph text
  | Some sections =>
      Block (fold_left
               (fun parts section => flat_map (split_part section) parts)
               (sort_by_length_desc sections) [Plain text])
  end.

(** The object [verdictColor] of [ResultDisplay]; its field [text] is
    [text_class] here.  The pages render [ResultDisplay] for a result that
    is truthy, so [result] is not [null]. *)
Record verdict : Type := {
  bg : jsstring;
  border : jsstring;
  text_class : jsstring;
  glow : jsstring;
  label : jsstring;
  dot : jsstring
}.

(** [None]: the comparison [aiScore >= 70] throws the TypeError of
    ToPrimitive, and the component does not render. *)
Definition verdictColor (result : json) : option verdict :=
  let aiScore :=
    nullish_or (field (str "aiProbability") result) (JNum (of_Z 0)) in
  match to_number aiScore with
  | None => None
  | Some score =>
      Some
        (if js_ge score (of_Z 70) then
           {| bg := str "bg-rose-500/15"; border := str "border-rose-500/40";
              text_class := str "text-rose-400";
              glow := str "shadow-rose-500/20";
              label := str "LIKELY AI / FAKE"; dot := str "bg-rose-500" |}
         else if js_ge score (of_Z 40) then
           {| bg := str "bg-amber-500/15";
              border := str "border-amber-500/40";
              text_class := str "text-amber-400";
              glow := str "shadow-amber-500/20";
              label := str "SUSPICIOUS"; dot := str "bg-amber-500" |}
         else
           {| bg := str "bg-emerald-500/15";
              border := str "border-emerald-500/40";
              text_class := str "text-emerald-400";
              glow := str "shadow-emerald-500/20";
              label := str "LIKELY AUTHENTIC"; dot := str "bg-emerald-500" |})
  end.

(** [url.split('/').filter(Boolean).pop() ?? url] of [ProfileVerifier] *)
Definition username (url : jsstring) : jsstring :=
  last (filter (fun s => match s with [] => false | _ :: _ => true end)
          (split_on 47%N url))
       url.

End Client.

(* ================================================================== *)
(** * Reading answers and renderings *)
(* ================================================================== *)

(** The error a handler answers with when the request fails its guard. *)
Definition guard_message (ep : endpoint) : jsstring :=
  match ep with
  | Text => str "Text is required"
  | Image => str "Image is required"
  | Video => str "Video is required"
  | Link => str "URL is required"
  | Profile => str "Profile URL is required"
  end.

(** The text a part shows. *)
Definition part_text (p : Client.part) : jsstring :=
  match p with
  | Client.Plain s => s
  | Client.Mark e => Client.children e
  end.

(** The text a rendering shows. *)
Definition text_content (r : Client.rendering) : jsstring :=
  match r with
  | Client.Paragraph s => s
  | Client.Block parts => concat (map part_text parts)
  end.

(** The nodes of a rendering. *)
Definition marks (r : Client.rendering) : list Client.span :=
  match r with
  | Client.Paragraph _ => []
  | Client.Block parts =>
      flat_map (fun p => match p with
                         | Client.Mark e => [e]
                         | Client.Plain _ => []
                         end) parts
  end.

(** What holds of every part while the sections are worked through. *)
Definition part_ok (text : jsstring)
    (sections : list Client.suspicious_section) (p : Client.part) : Prop :=
  match p with
  | Client.Plain s => includes text s = true
  | Client.Mark e =>
      exists section,
        In section sections
        /\ e = Client.mark section (Client.text section)
        /\ includes text (Client.text section) = true
  end.

(** The rank of a verdict: 2 for likely AI, 1 for suspicious, 0 for likely
    authentic. *)
Definition verdict_rank (v : Client.verdict) : nat :=
  if jsstring_eqb (Client.label v) (str "LIKELY AI / FAKE") then 2
  else if jsstring_eqb (Client.label v) (str "SUSPICIOUS") then 1
  else 0.

(** No three backticks in a row. *)
Definition fence_free (s : jsstring) : Prop :=
  includes s (str "```") = false.

(** [2^e <= n/d], as [floor_log] tests it. *)
Definition at_least_pow2 (n d e : Z) : bool :=
  if 0 <=? e then d * 2 ^ e <=? n else d <=? n * 2 ^ (- e).

(** The complement statement of the production server runs to its end on
    the object: [aiProbability] converts to a number where
    [humanProbability] is derived from it.  The other servers have no such
    statement. *)
Definition complement_defined (v : server) (props : list (jsstring * json))
  : bool :=
  match v with
  | ProdServer =>
      match get_prop (str "aiProbability") props with
      | Some a =>
          if not_nullish (Some a)
             && negb (not_nullish (get_prop (str "humanProbability") props))
          then match to_number a with Some _ => true | None => false end
          else true
      | None => true
      end
  | DevServer | ServerlessHandler => true
  end.

(** The letters j, s, o, n, each in either case. *)
Definition json_tag (t : jsstring) : bool :=
  match t with
  | [j; s; o; n] =>
      is_letter 106 j && is_letter 115 s && is_letter 111 o
      && is_letter 110 n
  | _ => false
  end.

(** A fence as it stands in a reply, with the text after it up to the next
    fence: three backticks, the tag or nothing, white space, the text. *)
Record fenced : Type := {
  fence_tag : jsstring;
  fence_space : jsstring;
  fenced_text : jsstring
}.

Definition fenced_units (p : fenced) : jsstring :=
  [96; 96; 96]%N ++ fence_tag p ++ fence_space p ++ fenced_text p.

Definition no_backtick (s : jsstring) : bool :=
  forallb (fun c => negb (N.eqb c 96)) s.

Definition starts_with_space (s : jsstring) : bool :=
  match s with
  | c :: _ => is_space c
  | [] => false
  end.

(** The fence is cut as the regular expressions cut it: the tag is taken
    where it stands, the white space is taken whole, and the text holds no
    backtick. *)
Definition fenced_ok (p : fenced) : bool :=
  match fence_tag p with
  | [] => negb (json_tag (firstn 4 (fence_space p ++ fenced_text p)))
  | _ :: _ => json_tag (fence_tag p)
  end
  && forallb is_space (fence_space p)
  && no_backtick (fenced_text p)
  && negb (starts_with_space (fenced_text p)).

(** What the first replacement leaves of a fence and its text. *)
Definition after_json_fence (p : fenced) : jsstring :=
  match fence_tag p with
  | [] => [96; 96; 96]%N ++ fence_space p ++ fenced_text p
  | _ :: _ => fenced_text p
  end.

(** The units of [s] are below the surrogates. *)
Definition below_surrogates (s : jsstring) : Prop :=
  Forall (fun c : char16 => (c < 55296)%N) s.

(** The binding of the storage engine leaves the units of [s] as they are,
    whatever follows them. *)
Definition passes_binding (s : jsstring) : Prop :=
  forall b, sqlite_text (s ++ b) = s ++ sqlite_text b.

(** A request of the link endpoint. *)
Definition link_request (u : jsstring) : request := {|
  text := None; userEmail := None; language := None; url := Some u;
  profileUrl := None; platform := None; message := None; prompt := None;
  body_type := None; content1 := None; content2 := None; file := None;
  email := None
|}.

(** [s.isWellFormed()]: every surrogate of [s] stands in a pair. *)
Fixpoint isWellFormed (s : jsstring) : bool :=
  match s with
  | [] => true
  | c :: r =>
      if is_high_surrogate c then
        match r with
        | d :: r' => is_low_surrogate d && isWellFormed r'
        | [] => false
        end
      else negb (is_low_surrogate c) && isWellFormed r
  end.

(** A text of 501 units whose units 500 and 501 are the surrogate pair of
    U+1F600. *)
Definition cut_pair_text : jsstring :=
  repeat 97%N 499 ++ [55357; 56832]%N.

(** The row the dev server adds for the text [some text] on its quota
    fallback, and the one it adds for [cut_pair_text]. *)
Definition some_text_row : row :=
  {| id := 1; user_email := anonymous; type := str "text";
     content := str "some text";
     result := stringify (Dev.mockTextResult (sample_runtime 0)
                            (str "some text"));
     created_at := 0 |}.

Definition cut_pair_row : row :=
  {| id := 1; user_email := anonymous; type := str "text";
     content := repeat 97%N 499 ++ [65533%N];
     result := stringify (Dev.mockTextResult (sample_runtime 0)
                            cut_pair_text);
     created_at := 0 |}.

(* ================================================================== *)
(** * The runtime model on known values *)
(* ================================================================== *)

(** Binary64 arithmetic and the shortest decimal that prints a number. *)
Example number_to_string_examples :
  map number_to_string
    [js_add (string_to_number (str "0.1")) (string_to_number (str "0.2"));
     js_sub (of_Z 100) (string_to_number (str "99.9"));
     string_to_number (str "1e21");
     string_to_number (str "1e23");
     string_to_number (str "123456789012345678901234567890");
     string_to_number (str "9007199254740993");
     string_to_number (str "5e-324");
     string_to_number (str "2e-324");
     string_to_number (str "1.7976931348623157e308");
     string_to_number (str "1.8e308");
     string_to_number (str "-42.50");
     string_to_number (str " 0x1F ");
     string_to_number (str "12px")]
  = [str "0.30000000000000004"; str "0.09999999999999432"; str "1e+21";
     str "1e+23"; str "1.2345678901234568e+29"; str "9007199254740992";
     str "5e-324"; str "0"; str "1.7976931348623157e+308"; str "Infinity";
     str "-42.5"; str "31"; str "NaN"].
Proof. vm_compute. reflexivity. Qed.

(** A text with nested values, an escape, a duplicated key and an array
    index among its keys; its value is serialized with the index key first
    and the duplicated key at its first place. *)
Example parse_then_stringify :
  option_map stringify
    (JSON_parse
       (str " { " ++ quoted "b" ++ str " : [1, 2.50, -1e-7, true, null, "
          ++ quoted "x\ny" ++ str "], " ++ quoted "7" ++ str ": {}, "
          ++ quoted "b" ++ str ": [] } "))
  = Some (str "{" ++ quoted "7" ++ str ":{}," ++ quoted "b" ++ str ":[]}").
Proof. vm_compute. reflexivity. Qed.

(** Texts that are no JSON. *)
Example parse_rejects :
  map JSON_parse
    [str ""; str "01"; str "1."; str "[1,]"; str "{,}"; str "tru";
     str "true false"; str "+1"; str ".5"; str "'a'"; [160%N; 49%N]]
  = [None; None; None; None; None; None; None; None; None; None; None].
Proof. vm_compute. reflexivity. Qed.

(** The two replacements and [trim] of the normalizer. *)
Example strip_fences_examples :
  map strip_fences
    [str "  ```json" ++ newline ++ newline ++ str " abc ``` def ```JSONx  ";
     str "````json";
     str "no fence"]
  = [str "abc def x"; str "`"; str "no fence"].
Proof. vm_compute. reflexivity. Qed.

(** The brace expression is greedy. *)
Example match_braces_examples :
  map match_braces [str "ab{cd}ef}gh"; str "}{"; str "{"; str "x{}y"]
  = [Some (str "{cd}ef}"); None; None; Some (str "{}")].
Proof. vm_compute. reflexivity. Qed.

(* ================================================================== *)
(** * Strings: prefixes and substrings *)
(* ================================================================== *)

Lemma strip_prefix_spec (p s r : jsstring) :
  strip_prefix p s = Some r <-> s = p ++ r.
Proof.
  revert s; induction p as [|c p IH]; intros s; simpl.
  - split; [intros [= ->]; reflexivity | intros ->; reflexivity].
  - destruct s as [|d s]; [split; discriminate|].
    destruct (N.eqb_spec c d) as [->|Hne].
    + rewrite IH; split; [intros ->; reflexivity | intros [= ->]; reflexivity].
    + split; [discriminate | intros [= -> _]; congruence].
Qed.

Lemma includes_spec (s sub : jsstring) :
  includes s sub = true <-> exists pre post, s = pre ++ sub ++ post.
Proof.
  induction s as [|c s IH]; simpl.
  - destruct (strip_prefix sub []) as [r|] eqn:E.
    + apply strip_prefix_spec in E.
      split; [intros _; exists [], r; exact E | reflexivity].
    + split; [discriminate|].
      intros (pre & post & H).
      destruct pre; [|discriminate].
      simpl in H. apply strip_prefix_spec in H. congruence.
  - destruct (strip_prefix sub (c :: s)) as [r|] eqn:E.
    + apply strip_prefix_spec in E.
      split; [intros _; exists [], r; exact E | reflexivity].
    + rewrite IH. split.
      * intros (pre & post & ->). exists (c :: pre), post. reflexivity.
      * intros (pre & post & H).
        destruct pre as [|d pre].
        -- simpl in H. apply strip_prefix_spec in H. congruence.
        -- injection H as _ ->. exists pre, post. reflexivity.
Qed.

Lemma includes_app_l (a b sub : jsstring) :
  includes a sub = true -> includes (a ++ b) sub = true.
Proof.
  rewrite !includes_spec. intros (pre & post & ->).
  exists pre, (post ++ b). now rewrite <- !app_assoc.
Qed.

Lemma includes_app_r (a b sub : jsstring) :
  includes b sub = true -> includes (a ++ b) sub = true.
Proof.
  rewrite !includes_spec. intros (pre & post & ->).
  exists (a ++ pre), post. now rewrite <- !app_assoc.
Qed.

(* ================================================================== *)
(** * The rate-limit classifier *)
(* ================================================================== *)

Lemma number_eqb_eq (x y : number) : number_eqb x y = true -> x = y.
Proof.
  destruct x as [[a b]| | |], y as [[c d]| | |]; simpl; try discriminate; auto.
  unfold Q_eqb; simpl. rewrite andb_true_iff, Z.eqb_eq, Pos.eqb_eq.
  intros [-> ->]; reflexivity.
Qed.

Lemma number_eqb_429 (x : number) :
  number_eqb x (of_Z 429) = true <-> x = of_Z 429.
Proof.
  split; [apply number_eqb_eq | intros ->; vm_compute; reflexivity].
Qed.

(** The three servers carry the same classifier. *)
Lemma isQuotaError_same (v : server) (e : js_error) :
  isQuotaError v e = Dev.isQuotaError e.
Proof. destruct v; reflexivity. Qed.

Lemma isQuotaError_iff (v : server) (e : js_error) :
  isQuotaError v e = true <->
  err_status e = Some (of_Z 429)
  \/ (exists pre post, err_message e = pre ++ str "429" ++ post)
  \/ (exists pre post, err_message e = pre ++ str "RESOURCE_EXHAUSTED" ++ post).
Proof.
  rewrite isQuotaError_same. unfold Dev.isQuotaError.
  rewrite !orb_true_iff, !includes_spec.
  destruct (err_status e) as [x|].
  - rewrite number_eqb_429. split.
    + intros [[->|H]|H]; auto.
    + intros [[= ->]|[H|H]]; auto.
  - split.
    + intros [[H|H]|H]; auto; discriminate.
    + intros [H|[H|H]]; auto; discriminate.
Qed.

(* ================================================================== *)
(** * The fallback responder *)
(* ================================================================== *)

(** Evaluates the key comparisons of a property lookup in a literal
    object. *)
Ltac lookup_literal :=
  cbn [body field get_prop response_field res_json];
  repeat match goal with
         | |- context [jsstring_eqb ?a ?b] =>
             let r := eval vm_compute in (jsstring_eqb a b) in
             change (jsstring_eqb a b) with r; cbv iota
         end.

Lemma demo_mode_text_dev (w : runtime) (t : jsstring) :
  demo_mode (res_json (Dev.mockTextResult w t)) = true.
Proof.
  unfold demo_mode, Dev.mockTextResult. lookup_literal.
  apply includes_app_l. vm_compute. reflexivity.
Qed.

Lemma demo_mode_text_prod (t : jsstring) :
  demo_mode (res_json (Prod.mockTextResult t)) = true.
Proof.
  unfold demo_mode, Prod.mockTextResult. lookup_literal.
  apply includes_app_l. vm_compute. reflexivity.
Qed.

Lemma demo_mode_text_serverless (t : jsstring) :
  demo_mode (res_json (Serverless.mockTextResult t)) = true.
Proof.
  unfold demo_mode, Serverless.mockTextResult. lookup_literal.
  apply includes_app_l. vm_compute. reflexivity.
Qed.

(** Unfolds a handler on a request that passes its guard. *)
Ltac enter_handler Hacc :=
  unfold accepted in Hacc;
  cbn [analyze];
  unfold Dev.analyze_text, Dev.analyze_image, Dev.analyze_video,
    Dev.analyze_link, Dev.analyze_profile, Prod.analyze_text,
    Prod.analyze_image, Prod.analyze_video, Prod.analyze_link,
    Prod.analyze_profile, Serverless.analyze_text, Serverless.analyze_image,
    Serverless.analyze_video, Serverless.analyze_link,
    Serverless.analyze_profile;
  match type of Hacc with
  | context [truthy ?x] => destruct (truthy x) eqn:?; [|discriminate Hacc]
  | context [file ?r] => destruct (file r) eqn:?; [|discriminate Hacc]
  end.

(** When the call to the model fails with an error the classifier takes for
    a rate limit, every analyze handler of every server answers 200 with a
    demo result. *)
Lemma quota_fallback (v : server) (ep : endpoint) (w : runtime)
    (e : js_error) (req : request) (db : database) :
  accepted v ep req = true ->
  isQuotaError v e = true ->
  status (snd (analyze v ep w (Failed e) req db)) = 200
  /\ demo_mode (snd (analyze v ep w (Failed e) req db)) = true.
Proof.
  intros Hacc Hq.
  destruct v, ep; cbn [isQuotaError] in Hq; enter_handler Hacc;
    cbn [generateContent bind]; rewrite Hq; cbn [snd];
    (split; [reflexivity|]);
    lazymatch goal with
    | |- context [Dev.mockTextResult] => apply demo_mode_text_dev
    | |- context [Prod.mockTextResult] => apply demo_mode_text_prod
    | |- context [Serverless.mockTextResult] => apply demo_mode_text_serverless
    | |- _ => vm_compute; reflexivity
    end.
Qed.
(* ================================================================== *)
(** * Numbers: integers are exact *)
(* ================================================================== *)

Lemma Qred_integer (n : Z) : Qred (inject_Z n) = inject_Z n.
Proof.
  unfold Qred, inject_Z.
  pose proof (Z.ggcd_gcd n 1) as Hg.
  pose proof (Z.ggcd_correct_divisors n 1) as Hd.
  destruct (Z.ggcd n 1) as [g [aa bb]]; simpl in *.
  rewrite Z.gcd_1_r in Hg; subst g.
  destruct Hd as [-> Hb]. rewrite !Z.mul_1_l in *. subst bb. reflexivity.
Qed.

Lemma floor_log2_integer (n : Z) :
  0 < n -> floor_log 2 n 1 = Z.log2 n.
Proof.
  intros Hn. unfold floor_log.
  change (2 =? 2) with true; cbv iota beta.
  change (Z.log2 1) with 0.
  pose proof (Z.log2_nonneg n) as H0.
  destruct (Z.log2_spec n Hn) as [Hlo Hhi].
  replace (Z.log2 n - 0 + 1) with (Z.succ (Z.log2 n)) by lia.
  replace (Z.log2 n - 0) with (Z.log2 n) by lia.
  destruct (Z.leb_spec 0 (Z.succ (Z.log2 n))); [|lia].
  destruct (Z.leb_spec (1 * 2 ^ Z.succ (Z.log2 n)) n); [lia|].
  destruct (Z.leb_spec 0 (Z.log2 n)); [|lia].
  destruct (Z.leb_spec (1 * 2 ^ Z.log2 n) n); [reflexivity|lia].
Qed.

Lemma round_pos_integer (n : Z) :
  0 < n < 2 ^ 53 -> round_pos n 1 = Some (inject_Z n).
Proof.
  intros [Hn Hb]. unfold round_pos.
  rewrite (floor_log2_integer n Hn).
  pose proof (Z.log2_nonneg n) as H0.
  assert (Z.log2 n < 53) as H53
    by (apply Z.log2_lt_pow2; [exact Hn | exact Hb]).
  set (L := Z.log2 n) in *.
  replace (Z.max (L - 52) (-1074)) with (L - 52) by lia.
  replace (Z.max 0 (- (L - 52))) with (52 - L) by lia.
  replace (Z.max 0 (L - 52)) with 0 by lia.
  change (1 * 2 ^ 0) with 1.
  unfold round_half_even.
  rewrite Z.div_1_r, Z.mod_1_r. change (2 * 0 <? 1) with true. cbv iota.
  destruct (Z.leb_spec 1024 L); [lia|].
  destruct (Z.eqb_spec (L - 52) 971); [lia|].
  rewrite andb_false_r. cbn [orb].
  f_equal. rewrite <- (Qred_integer n). apply Qred_complete.
  assert (0 < 2 ^ (52 - L)) as Hp by (apply Z.pow_pos_nonneg; lia).
  unfold pow2. destruct (Z.leb_spec 0 (L - 52)).
  - replace (L - 52) with 0 by lia. replace (52 - L) with 0 by lia.
    unfold Qeq; simpl. lia.
  - replace (- (L - 52)) with (52 - L) by lia.
    unfold Qeq; simpl. rewrite Z2Pos.id by exact Hp. lia.
Qed.

(** A rational with denominator 1 and magnitude below 2^53 is a binary64
    value: rounding leaves it as it is. *)
Lemma round_Q_integer (q : Q) :
  Qden q = 1%positive -> - 2 ^ 53 < Qnum q < 2 ^ 53 ->
  round_Q q = Fin (inject_Z (Qnum q)).
Proof.
  destruct q as [k d]; simpl. intros -> Hk.
  unfold round_Q; cbn [Qnum Qden].
  destruct k as [|p|p].
  - reflexivity.
  - rewrite round_pos_integer by lia. reflexivity.
  - rewrite round_pos_integer by lia. cbv iota beta.
    rewrite Qred_opp, Qred_integer. reflexivity.
Qed.

Lemma of_Z_integer (n : Z) :
  - 2 ^ 53 < n < 2 ^ 53 -> of_Z n = Fin (inject_Z n).
Proof. intros H. unfold of_Z. now rewrite round_Q_integer. Qed.

(** [100 - n] and the sum of the two are exact for an integer [n] such that
    both [n] and [100 - n] are below 2^53 in magnitude. *)
Lemma complement_exact (n : Z) :
  100 - 2 ^ 53 < n < 2 ^ 53 ->
  js_sub (of_Z 100) (of_Z n) = of_Z (100 - n)
  /\ js_add (of_Z (100 - n)) (of_Z n) = of_Z 100.
Proof.
  intros H.
  assert (- 2 ^ 53 < n < 2 ^ 53 /\ - 2 ^ 53 < 100 - n < 2 ^ 53
          /\ - 2 ^ 53 < 100 < 2 ^ 53) as (Hn & Hc & Hh)
    by (change (2 ^ 53) with 9007199254740992 in *; lia).
  rewrite (of_Z_integer n Hn), (of_Z_integer (100 - n) Hc),
    (of_Z_integer 100 Hh).
  unfold js_sub, js_add, Qminus, Qplus, Qopp, inject_Z; cbn [Qnum Qden].
  split.
  - rewrite round_Q_integer; cbn [Qnum Qden].
    + unfold inject_Z. do 2 f_equal. lia.
    + reflexivity.
    + replace (100 * 1 + - n * 1) with (100 - n) by lia. exact Hc.
  - rewrite round_Q_integer; cbn [Qnum Qden].
    + unfold inject_Z. do 2 f_equal. lia.
    + reflexivity.
    + replace ((100 - n) * 1 + n * 1) with 100 by lia. exact Hh.
Qed.

(* ================================================================== *)
(** * Numbers: rounding to nearest *)
(* ================================================================== *)

(** The rounded quotient is within half a unit of the quotient. *)
Lemma round_half_even_error (n d : Z) :
  0 < d -> 2 * Z.abs (round_half_even n d * d - n) <= d.
Proof.
  intros Hd. unfold round_half_even.
  pose proof (Z.div_mod n d ltac:(lia)) as Hdm.
  pose proof (Z.mod_pos_bound n d Hd) as Hr.
  set (q := n / d) in *. set (r := n mod d) in *.
  destruct (Z.ltb_spec (2 * r) d); [nia|].
  destruct (Z.ltb_spec d (2 * r)); [nia|].
  destruct (Z.even q); nia.
Qed.

(** An even integer within half a unit of the quotient is the rounded
    quotient. *)
Lemma round_half_even_unique (n d m : Z) :
  0 < d -> 2 * Z.abs (m * d - n) <= d -> Z.even m = true ->
  round_half_even n d = m.
Proof.
  intros Hd Hm He. unfold round_half_even.
  pose proof (Z.div_mod n d ltac:(lia)) as Hdm.
  pose proof (Z.mod_pos_bound n d Hd) as Hr.
  set (q := n / d) in *. set (r := n mod d) in *.
  assert (m = q \/ m = q + 1) as Hcase by nia.
  destruct (Z.ltb_spec (2 * r) d); [nia|].
  destruct (Z.ltb_spec d (2 * r)); [nia|].
  destruct Hcase as [->| ->].
  - now rewrite He.
  - rewrite Z.even_add in He. destruct (Z.even q); [discriminate He|].
    reflexivity.
Qed.

Lemma at_least_pow2_bounds (n d : Z) :
  0 < n -> 0 < d ->
  at_least_pow2 n d (Z.log2 n - Z.log2 d - 1) = true
  /\ at_least_pow2 n d (Z.log2 n - Z.log2 d + 1) = false.
Proof.
  intros Hn Hd.
  destruct (Z.log2_spec n Hn) as [Hn1 Hn2].
  destruct (Z.log2_spec d Hd) as [Hd1 Hd2].
  pose proof (Z.log2_nonneg n) as Hln. pose proof (Z.log2_nonneg d) as Hld.
  set (a := Z.log2 n) in *. set (b := Z.log2 d) in *.
  replace (Z.succ a) with (a + 1) in Hn2 by lia.
  replace (Z.succ b) with (b + 1) in Hd2 by lia.
  unfold at_least_pow2. split.
  - destruct (Z.leb_spec 0 (a - b - 1)).
    + apply Z.leb_le.
      assert (2 ^ (b + 1) * 2 ^ (a - b - 1) = 2 ^ a) as E
        by (rewrite <- Z.pow_add_r by lia; f_equal; lia).
      assert (0 < 2 ^ (a - b - 1)) by (apply Z.pow_pos_nonneg; lia).
      nia.
    + apply Z.leb_le.
      assert (2 ^ a * 2 ^ (- (a - b - 1)) = 2 ^ (b + 1)) as E
        by (rewrite <- Z.pow_add_r by lia; f_equal; lia).
      assert (0 < 2 ^ (- (a - b - 1))) by (apply Z.pow_pos_nonneg; lia).
      nia.
  - destruct (Z.leb_spec 0 (a - b + 1)).
    + apply Z.leb_gt.
      assert (2 ^ b * 2 ^ (a - b + 1) = 2 ^ (a + 1)) as E
        by (rewrite <- Z.pow_add_r by lia; f_equal; lia).
      assert (0 < 2 ^ (a - b + 1)) by (apply Z.pow_pos_nonneg; lia).
      nia.
    + apply Z.leb_gt.
      assert (2 ^ (a + 1) * 2 ^ (- (a - b + 1)) = 2 ^ b) as E
        by (rewrite <- Z.pow_add_r by lia; f_equal; lia).
      assert (0 < 2 ^ (- (a - b + 1))) by (apply Z.pow_pos_nonneg; lia).
      nia.
Qed.

(** [floor_log 2 n d] is the exponent [e] with [2^e <= n/d < 2^(e+1)]. *)
Lemma floor_log2_spec (n d : Z) :
  0 < n -> 0 < d ->
  at_least_pow2 n d (floor_log 2 n d) = true
  /\ at_least_pow2 n d (floor_log 2 n d + 1) = false.
Proof.
  intros Hn Hd.
  destruct (at_least_pow2_bounds n d Hn Hd) as [Hlow Hhigh].
  unfold floor_log. change (2 =? 2) with true. cbv iota beta.
  set (e0 := Z.log2 n - Z.log2 d) in *.
  fold (at_least_pow2 n d (e0 + 1)). fold (at_least_pow2 n d e0).
  fold (at_least_pow2 n d (e0 - 1)).
  rewrite Hhigh.
  destruct (at_least_pow2 n d e0) eqn:E0; [now split|].
  rewrite Hlow. split; [exact Hlow|].
  now replace (e0 - 1 + 1) with e0 by lia.
Qed.

Lemma at_least_pow2_below (n d e b : Z) :
  0 < n -> 0 < d -> 0 <= b ->
  at_least_pow2 n d e = true -> n < d * 2 ^ b -> e < b.
Proof.
  intros Hn Hd Hb He Hlt. unfold at_least_pow2 in He.
  destruct (Z.leb_spec 0 e) as [H0|H0]; [|lia].
  apply Z.leb_le in He.
  destruct (Z.lt_ge_cases e b) as [|Hge]; [assumption|exfalso].
  assert (2 ^ b <= 2 ^ e) by (apply Z.pow_le_mono_r; lia).
  nia.
Qed.

Lemma at_least_pow2_above (n d e b : Z) :
  0 < n -> 0 < d -> 0 <= b ->
  at_least_pow2 n d (e + 1) = false -> d * 2 ^ b <= n -> b <= e.
Proof.
  intros Hn Hd Hb He Hle. unfold at_least_pow2 in He.
  destruct (Z.le_gt_cases b e) as [|Hgt]; [assumption|exfalso].
  assert (0 < 2 ^ b) by (apply Z.pow_pos_nonneg; lia).
  destruct (Z.leb_spec 0 (e + 1)) as [H0|H0].
  - apply Z.leb_gt in He.
    assert (2 ^ (e + 1) <= 2 ^ b) by (apply Z.pow_le_mono_r; lia).
    nia.
  - apply Z.leb_gt in He.
    assert (0 < 2 ^ (- (e + 1))) by (apply Z.pow_pos_nonneg; lia).
    assert (1 <= 2 ^ b) by lia.
    nia.
Qed.

(** A positive rational below 128 is rounded to a multiple of [2^(-k)] for
    some [k >= 46], within half of [2^(-k)]. *)
Lemma round_pos_small (n d : Z) :
  0 < n -> 0 < d -> n < d * 2 ^ 7 ->
  exists m k,
    46 <= k
    /\ round_pos n d = Some (Qred (inject_Z m * pow2 (- k)))
    /\ 2 * Z.abs (m * d - n * 2 ^ k) <= d.
Proof.
  intros Hn Hd Hlt. unfold round_pos.
  destruct (floor_log2_spec n d Hn Hd) as [He _].
  pose proof (at_least_pow2_below n d _ 7 Hn Hd ltac:(lia) He Hlt) as H7.
  set (e := floor_log 2 n d) in *.
  set (qe := Z.max (e - 52) (-1074)).
  assert (qe <= -46) as Hqe by (unfold qe; lia).
  replace (Z.max 0 (- qe)) with (- qe) by lia.
  replace (Z.max 0 qe) with 0 by lia.
  change (2 ^ 0) with 1. rewrite Z.mul_1_r.
  exists (round_half_even (n * 2 ^ (- qe)) d), (- qe).
  split; [lia|]. split.
  - destruct (Z.leb_spec 1024 e); [lia|].
    destruct (Z.eqb_spec qe 971); [lia|].
    rewrite andb_false_r. cbn [orb]. now rewrite Z.opp_involutive.
  - apply round_half_even_error. exact Hd.
Qed.

(** A rational within [2^(-47)] of 100 is rounded to 100. *)
Lemma round_pos_near_100 (n d : Z) :
  0 < d ->
  2 * Z.abs (n * 2 ^ 46 - 100 * 2 ^ 46 * d) <= d ->
  round_pos n d = Some (inject_Z 100).
Proof.
  intros Hd Hnear.
  assert (d * 2 ^ 6 <= n < d * 2 ^ 7) as [Hlo Hhi]
    by (change (2 ^ 46) with 70368744177664 in Hnear;
        change (2 ^ 6) with 64; change (2 ^ 7) with 128; lia).
  assert (0 < n) as Hn by (change (2 ^ 6) with 64 in Hlo; lia).
  unfold round_pos.
  destruct (floor_log2_spec n d Hn Hd) as [He1 He2].
  pose proof (at_least_pow2_below n d _ 7 Hn Hd ltac:(lia) He1 Hhi) as H7.
  pose proof (at_least_pow2_above n d _ 6 Hn Hd ltac:(lia) He2 Hlo) as H6.
  replace (floor_log 2 n d) with 6 by lia.
  change (Z.max (6 - 52) (-1074)) with (-46).
  change (Z.max 0 (- -46)) with 46. change (Z.max 0 (-46)) with 0.
  change (2 ^ 0) with 1. rewrite Z.mul_1_r.
  rewrite (round_half_even_unique (n * 2 ^ 46) d (100 * 2 ^ 46)).
  - vm_compute. reflexivity.
  - exact Hd.
  - replace (100 * 2 ^ 46 * d - n * 2 ^ 46)
      with (- (n * 2 ^ 46 - 100 * 2 ^ 46 * d)) by ring.
    now rewrite Z.abs_opp.
  - reflexivity.
Qed.

Lemma round_Q_zero (q : Q) : Qnum q = 0 -> round_Q q = Fin 0.
Proof. unfold round_Q. now intros ->. Qed.

Lemma round_Q_positive (q : Q) :
  0 < Qnum q ->
  round_Q q = match round_pos (Qnum q) (Zpos (Qden q)) with
              | Some r => Fin r
              | None => PosInf
              end.
Proof. unfold round_Q. destruct (Qnum q); [lia | reflexivity | lia]. Qed.

(** [100 - x] and [x] sum to 100 for every number [x] from 0 to 100,
    integer or not: the difference is rounded by at most [2^(-47)], which
    the sum rounds away. *)
Lemma complement_sums (q : Q) :
  (0 <= q)%Q -> (q <= 100)%Q ->
  js_add (js_sub (of_Z 100) (Fin q)) (Fin q) = of_Z 100.
Proof.
  destruct q as [a b]. unfold Qle. cbn [Qnum Qden]. intros H0 H100.
  assert (of_Z 100 = Fin (inject_Z 100)) as ->
    by (apply of_Z_integer; change (2 ^ 53) with 9007199254740992; lia).
  cbn [js_sub].
  set (y := (inject_Z 100 - (a # b))%Q).
  assert (Qnum y = 100 * Zpos b - a /\ Qden y = b) as [Hyn Hyd].
  { unfold y, Qminus, Qplus, Qopp, inject_Z. cbn [Qnum Qden].
    split; [lia | reflexivity]. }
  destruct (Z.eq_dec (Qnum y) 0) as [Hz|Hnz].
  - rewrite (round_Q_zero y Hz). cbn [js_add].
    rewrite round_Q_positive;
      unfold Qplus; cbn [Qnum Qden]; [|lia].
    rewrite round_pos_near_100; [reflexivity | lia |].
    change (2 ^ 46) with 70368744177664. rewrite Pos2Z.inj_mul. lia.
  - rewrite round_Q_positive by lia. rewrite Hyn, Hyd.
    destruct (round_pos_small (100 * Zpos b - a) (Zpos b))
      as (m & k & Hk & -> & Herr); [lia | lia | |].
    { change (2 ^ 7) with 128. lia. }
    cbn [js_add].
    set (r := Qred (inject_Z m * pow2 (- k))).
    assert (Qnum r * 2 ^ k = m * Zpos (Qden r)) as Hr.
    { pose proof (Qred_correct (inject_Z m * pow2 (- k))) as Hq.
      fold r in Hq. unfold Qeq in Hq.
      assert (0 < 2 ^ k) as Hp by (apply Z.pow_pos_nonneg; lia).
      unfold pow2 in Hq.
      destruct (Z.leb_spec 0 (- k)) as [Hs|Hs]; [lia|].
      rewrite Z.opp_involutive in Hq.
      unfold Qmult, inject_Z in Hq. cbn [Qnum Qden] in Hq.
      rewrite Pos.mul_1_l, Z2Pos.id in Hq by exact Hp. lia. }
    assert (2 ^ k = 2 ^ 46 * 2 ^ (k - 46)) as Hsplit
      by (rewrite <- Z.pow_add_r by lia; f_equal; lia).
    assert (0 < 2 ^ (k - 46)) as Hpos by (apply Z.pow_pos_nonneg; lia).
    set (P := 2 ^ (k - 46)) in *. set (K := 2 ^ k) in *.
    change (2 ^ 46) with 70368744177664 in Hsplit.
    set (rn := Qnum r) in *. set (rd := Zpos (Qden r)) in *.
    assert (0 < rd) as Hrd by (unfold rd; lia).
    assert (2 * Z.abs ((rn * Zpos b + a * rd) * 70368744177664
                       - 100 * 70368744177664 * (rd * Zpos b))
            <= rd * Zpos b) as Hnear.
    { assert (P * ((rn * Zpos b + a * rd) * 70368744177664
                   - 100 * 70368744177664 * (rd * Zpos b))
              = rd * (m * Zpos b - (100 * Zpos b - a) * K)) as E by nia.
      assert (2 * Z.abs (rd * (m * Zpos b - (100 * Zpos b - a) * K))
              <= rd * Zpos b) as Hb
        by (rewrite Z.abs_mul, (Z.abs_eq rd) by lia; nia).
      rewrite <- E, Z.abs_mul, (Z.abs_eq P) in Hb by lia.
      nia. }
    assert (0 < rn * Zpos b + a * rd) as Hnum by lia.
    rewrite round_Q_positive;
      unfold Qplus; cbn [Qnum Qden]; fold rn; fold rd; [|exact Hnum].
    rewrite round_pos_near_100; [reflexivity | lia |].
    change (2 ^ 46) with 70368744177664. rewrite Pos2Z.inj_mul.
    fold rd. exact Hnear.
Qed.

(* ================================================================== *)
(** * Properties of objects *)
(* ================================================================== *)

Lemma jsstring_eqb_eq (a b : jsstring) : jsstring_eqb a b = true <-> a = b.
Proof.
  unfold jsstring_eqb. destruct (list_eq_dec N.eq_dec a b); split; auto.
  discriminate.
Qed.

Lemma jsstring_eqb_refl (a : jsstring) : jsstring_eqb a a = true.
Proof. now apply jsstring_eqb_eq. Qed.

Lemma jsstring_eqb_neq (a b : jsstring) : a <> b -> jsstring_eqb a b = false.
Proof.
  intros H. destruct (jsstring_eqb a b) eqn:E; [|reflexivity].
  apply jsstring_eqb_eq in E. contradiction.
Qed.

Section SetProp.

Variables (k : jsstring) (v : json).

Lemma get_replace_same (props : list (jsstring * json)) :
  get_prop k props <> None -> get_prop k (replace_prop k v props) = Some v.
Proof.
  induction props as [|[k' v'] props IH]; simpl; [congruence|].
  destruct (jsstring_eqb k k') eqn:E; simpl; rewrite E; auto.
Qed.

Lemma get_insert_same (i : Z) (props : list (jsstring * json)) :
  get_prop k props = None ->
  get_prop k (insert_index i k v props) = Some v.
Proof.
  induction props as [|[k' v'] props IH]; simpl.
  - now rewrite jsstring_eqb_refl.
  - destruct (jsstring_eqb k k') eqn:E; [discriminate|]. intros Hn.
    destruct (array_index k') as [j|].
    + destruct (j <? i); simpl.
      * rewrite E. auto.
      * now rewrite jsstring_eqb_refl.
    + simpl. now rewrite jsstring_eqb_refl.
Qed.

Lemma get_append_same (props : list (jsstring * json)) :
  get_prop k props = None -> get_prop k (props ++ [(k, v)]) = Some v.
Proof.
  induction props as [|[k' v'] props IH]; simpl.
  - now rewrite jsstring_eqb_refl.
  - destruct (jsstring_eqb k k'); [discriminate | exact IH].
Qed.

(** Reading back the property just written. *)
Lemma get_set_same (props : list (jsstring * json)) :
  get_prop k (set_prop k v props) = Some v.
Proof.
  unfold set_prop. destruct (get_prop k props) eqn:E.
  - apply get_replace_same. congruence.
  - destruct (array_index k).
    + now apply get_insert_same.
    + now apply get_append_same.
Qed.

Variable k' : jsstring.
Hypothesis other : k' <> k.

Lemma get_replace_other (props : list (jsstring * json)) :
  get_prop k' (replace_prop k v props) = get_prop k' props.
Proof.
  induction props as [|[k0 v0] props IH]; simpl; [reflexivity|].
  destruct (jsstring_eqb k k0) eqn:E; simpl.
  - apply jsstring_eqb_eq in E; subst k0. now rewrite jsstring_eqb_neq.
  - now rewrite IH.
Qed.

Lemma get_insert_other (i : Z) (props : list (jsstring * json)) :
  get_prop k' (insert_index i k v props) = get_prop k' props.
Proof.
  induction props as [|[k0 v0] props IH]; simpl.
  - now rewrite jsstring_eqb_neq.
  - destruct (array_index k0) as [j|].
    + destruct (j <? i); simpl.
      * now rewrite IH.
      * now rewrite jsstring_eqb_neq.
    + simpl. now rewrite jsstring_eqb_neq.
Qed.

Lemma get_append_other (props : list (jsstring * json)) :
  get_prop k' (props ++ [(k, v)]) = get_prop k' props.
Proof.
  induction props as [|[k0 v0] props IH]; simpl.
  - now rewrite jsstring_eqb_neq.
  - now rewrite IH.
Qed.

(** Writing a property leaves the others as they are. *)
Lemma get_set_other (props : list (jsstring * json)) :
  get_prop k' (set_prop k v props) = get_prop k' props.
Proof.
  unfold set_prop. destruct (get_prop k props).
  - apply get_replace_other.
  - destruct (array_index k).
    + apply get_insert_other.
    + apply get_append_other.
Qed.

End SetProp.

(* ================================================================== *)
(** * The handlers *)
(* ================================================================== *)

(** The complement statement of the production server on an object. *)
Lemma backfill_object (w : runtime) (props : list (jsstring * json)) :
  Prod.backfill w (JObj props) =
  match get_prop (str "aiProbability") props with
  | Some a =>
      if not_nullish (Some a)
         && negb (not_nullish (get_prop (str "humanProbability") props))
      then
        match to_number a with
        | Some x =>
            Normal (JObj (set_prop (str "humanProbability")
                            (JNum (js_sub (of_Z 100) x)) props))
        | None =>
            Throw {| err_status := None;
                     err_message := primitive_error_message w a |}
        end
      else Normal (JObj props)
  | None => Normal (JObj props)
  end.
Proof.
  unfold Prod.backfill. cbn [read_prop bind].
  destruct (get_prop (str "aiProbability") props) as [a|]; [|reflexivity].
  destruct (not_nullish (Some a)); [|reflexivity].
  cbn [andb].
  destruct (not_nullish (get_prop (str "humanProbability") props));
    [reflexivity|].
  cbn [negb bind]. unfold to_number_or_throw.
  destruct (to_number a); reflexivity.
Qed.

(** When the complement statement runs to its end, its result is an
    object. *)
Lemma backfill_defined (w : runtime) (props : list (jsstring * json)) :
  complement_defined ProdServer props = true ->
  exists props', Prod.backfill w (JObj props) = Normal (JObj props').
Proof.
  rewrite backfill_object. cbn [complement_defined].
  destruct (get_prop (str "aiProbability") props) as [a|]; [|eauto].
  destruct (_ && _); [|eauto].
  destruct (to_number a); [eauto | discriminate].
Qed.

(** When it does not, it throws the TypeError of the conversion. *)
Lemma backfill_undefined (w : runtime) (props : list (jsstring * json)) :
  complement_defined ProdServer props = false ->
  exists a,
    get_prop (str "aiProbability") props = Some a
    /\ to_number a = None
    /\ Prod.backfill w (JObj props)
       = Throw {| err_status := None;
                  err_message := primitive_error_message w a |}.
Proof.
  rewrite backfill_object. cbn [complement_defined].
  destruct (get_prop (str "aiProbability") props) as [a|]; [|discriminate].
  destruct (_ && _); [|discriminate].
  destruct (to_number a) eqn:E; [discriminate|]. eauto.
Qed.

Lemma str_injective_on (a b : string) :
  jsstring_eqb (str a) (str b) = false -> str a <> str b.
Proof. intros H E. apply jsstring_eqb_eq in E. congruence. Qed.

Lemma ai_is_not_human : str "aiProbability" <> str "humanProbability".
Proof. apply str_injective_on. vm_compute. reflexivity. Qed.

(** C1 (amended).  POST /api/analyze/text of the production server, on a
    reply that parses to an object whose aiProbability is present and not
    null and whose humanProbability is absent or null.  When aiProbability
    converts to a number x, the answer is 200 and the returned object keeps
    aiProbability and carries humanProbability = 100 - x; the two sum to 100
    when aiProbability is a number from 0 to 100, integer or not, and when it
    is an integer n with 100 - 2^53 < n < 2^53; when x is no finite number
    (as for a string that is no numeral), 100 - x is not either and the
    body of the answer holds [null] for it.  When aiProbability has no
    primitive value, the subtraction throws and the call is handled as a
    failed call with that TypeError.  When aiProbability is absent or null,
    or humanProbability is supplied, the parsed object is returned as it is;
    the dev and serverless servers return the parsed reply as it is. *)
Theorem complement_backfilled_by_prod_only :
  (forall w r req db t props a x,
      truthy (text req) = Some t ->
      parseJSON (or_else (response_text r) []) = JObj props ->
      get_prop (str "aiProbability") props = Some a -> a <> JNull ->
      not_nullish (get_prop (str "humanProbability") props) = false ->
      to_number a = Some x ->
      let out := snd (Prod.analyze_text w (Replied r) req db) in
      status out = 200
      /\ response_field (str "aiProbability") out = Some a
      /\ response_field (str "humanProbability") out
         = Some (JNum (js_sub (of_Z 100) x))
      /\ (forall q, a = JNum (Fin q) -> (0 <= q)%Q -> (q <= 100)%Q ->
          sums_to_100 out)
      /\ (forall n, a = JNum (of_Z n) -> 100 - 2 ^ 53 < n < 2 ^ 53 ->
          sums_to_100 out)
      /\ ((forall q, x <> Fin q) ->
          stringify (JNum (js_sub (of_Z 100) x)) = str "null"))
  /\ (forall w r req db t props a,
      truthy (text req) = Some t ->
      parseJSON (or_else (response_text r) []) = JObj props ->
      get_prop (str "aiProbability") props = Some a ->
      not_nullish (get_prop (str "humanProbability") props) = false ->
      to_number a = None ->
      Prod.analyze_text w (Replied r) req db
      = Prod.analyze_text w
          (Failed {| err_status := None;
                     err_message := primitive_error_message w a |})
          req db)
  /\ (forall w r req db t props,
      truthy (text req) = Some t ->
      parseJSON (or_else (response_text r) []) = JObj props ->
      not_nullish (get_prop (str "aiProbability") props) = false
      \/ not_nullish (get_prop (str "humanProbability") props) = true ->
      snd (Prod.analyze_text w (Replied r) req db) = res_json (JObj props))
  /\ (forall v w r req db t result,
      v <> ProdServer ->
      truthy (text req) = Some t ->
      parsed_reply v r = Some result ->
      snd (analyze v Text w (Replied r) req db) = res_json result).
Proof.
  split; [|split; [|split]].
  - intros w r req db t props a x Ht Hp Ha Hnn Hh Hx out. subst out.
    unfold Prod.analyze_text. rewrite Ht. cbn [generateContent bind].
    rewrite Hp, backfill_object, Ha, Hh, Hx.
    assert (not_nullish (Some a) = true) as ->
      by (destruct a; simpl; congruence).
    cbn [andb negb bind snd]. unfold response_field, res_json;
      cbn [body field status].
    assert (get_prop (str "aiProbability")
              (set_prop (str "humanProbability")
                 (JNum (js_sub (of_Z 100) x)) props) = Some a) as Hai
      by (rewrite get_set_other; [exact Ha | exact ai_is_not_human]).
    split; [reflexivity|]. split; [exact Hai|].
    split; [apply get_set_same|]. split; [|split].
    + intros q -> Hq0 Hq100. cbn [to_number] in Hx. injection Hx as <-.
      exists (Fin q), (js_sub (of_Z 100) (Fin q)).
      unfold response_field, res_json; cbn [body field].
      rewrite Hai, get_set_same.
      split; [reflexivity|]. split; [reflexivity|].
      now apply complement_sums.
    + intros n -> Hn. cbn [to_number] in Hx. injection Hx as <-.
      destruct (complement_exact n Hn) as [Hs Hsum].
      exists (of_Z n), (of_Z (100 - n)).
      unfold response_field, res_json; cbn [body field].
      rewrite Hai, get_set_same, Hs. auto.
    + intros Hinf. clear - Hinf.
      destruct x as [q| | |]; [now destruct (Hinf q) | | |];
        vm_compute; reflexivity.
  - intros w r req db t props a Ht Hp Ha Hh Hx.
    assert (not_nullish (Some a) = true) as Hnn
      by (destruct a; try reflexivity; discriminate Hx).
    unfold Prod.analyze_text. rewrite Ht. cbn [generateContent bind].
    rewrite Hp, backfill_object, Ha, Hh, Hx, Hnn. reflexivity.
  - intros w r req db t props Ht Hp Hcase.
    unfold Prod.analyze_text. rewrite Ht. cbn [generateContent bind].
    rewrite Hp, backfill_object.
    destruct (get_prop (str "aiProbability") props) as [a|]; [|reflexivity].
    destruct Hcase as [Hc|Hc]; rewrite Hc; [reflexivity|].
    rewrite andb_false_r. reflexivity.
  - intros v w r req db t result Hv Ht Hr.
    destruct v; [| congruence |]; cbn [analyze parsed_reply] in *;
      unfold Dev.analyze_text, Serverless.analyze_text; rewrite Ht;
      cbn [generateContent bind]; unfold JSON_parse_or_throw; rewrite Hr;
      reflexivity.
Qed.

(** The parts of C1 (amended) on the text "hello": the production server
    completes the reply [{"aiProbability": 99.9}] so that the two sum to
    100, writes [null] for the reply [{"aiProbability": "high"}], answers
    500 to the reply [{"aiProbability": {"toString": 1}}], and leaves the
    reply [{"aiProbability": 80, "humanProbability": 20}] as it is; the dev
    server leaves the reply [{"aiProbability": 70}] as it is. *)
Lemma complement_backfilled_witness :
  sums_to_100
    (snd (Prod.analyze_text (sample_runtime 0) (replied reply_fraction_ai)
            (text_request (str "hello") None) []))
  /\ stringify (JNum (js_sub (of_Z 100) (string_to_number (str "high"))))
     = str "null"
  /\ Prod.analyze_text (sample_runtime 0) (replied reply_unconvertible_ai)
       (text_request (str "hello") None) []
     = ([], res_error 500 (str "Cannot convert object to primitive value"))
  /\ snd (Prod.analyze_text (sample_runtime 0) (replied reply_both)
            (text_request (str "hello") None) [])
     = res_json (JObj [(str "aiProbability", JNum (of_Z 80));
                       (str "humanProbability", JNum (of_Z 20))])
  /\ snd (analyze DevServer Text (sample_runtime 0) (replied reply_only_ai)
            (text_request (str "hello") None) [])
     = res_json (JObj [(str "aiProbability", JNum (of_Z 70))]).
Proof.
  destruct complement_backfilled_by_prod_only
    as (Hfill & Hthrow & Hkeep & Hother).
  split; [|split; [|split; [|split]]].
  - refine (proj1 (proj2 (proj2 (proj2
      (Hfill (sample_runtime 0)
         {| response_text := Some reply_fraction_ai;
            response_parts := None |}
         (text_request (str "hello") None) [] (str "hello")
         [(str "aiProbability", JNum (string_to_number (str "99.9")))]
         (JNum (string_to_number (str "99.9")))
         (string_to_number (str "99.9"))
         _ _ _ _ _ _))))
      (3514918771674317 # 35184372088832) _ _ _).
    + reflexivity.
    + vm_compute. reflexivity.
    + vm_compute. reflexivity.
    + discriminate.
    + vm_compute. reflexivity.
    + reflexivity.
    + vm_compute. reflexivity.
    + vm_compute. discriminate.
    + vm_compute. discriminate.
  - apply (proj2 (proj2 (proj2 (proj2 (proj2
      (Hfill (sample_runtime 0)
         {| response_text := Some reply_word_ai; response_parts := None |}
         (text_request (str "hello") None) [] (str "hello")
         [(str "aiProbability", JStr (str "high"))]
         (JStr (str "high")) (string_to_number (str "high"))
         eq_refl ltac:(vm_compute; reflexivity) ltac:(vm_compute; reflexivity)
         ltac:(discriminate) ltac:(vm_compute; reflexivity) eq_refl)))))).
    intros q. vm_compute. discriminate.
  - unfold replied.
    rewrite (Hthrow (sample_runtime 0)
               {| response_text := Some reply_unconvertible_ai;
                  response_parts := None |}
               (text_request (str "hello") None) [] (str "hello")
               [(str "aiProbability",
                 JObj [(str "toString", JNum (of_Z 1))])]
               (JObj [(str "toString", JNum (of_Z 1))])).
    + reflexivity.
    + reflexivity.
    + vm_compute. reflexivity.
    + vm_compute. reflexivity.
    + vm_compute. reflexivity.
    + reflexivity.
  - apply (Hkeep (sample_runtime 0)
             {| response_text := Some reply_both; response_parts := None |}
             (text_request (str "hello") None) [] (str "hello")).
    + reflexivity.
    + vm_compute. reflexivity.
    + right. vm_compute. reflexivity.
  - apply (Hother DevServer (sample_runtime 0)
             {| response_text := Some reply_only_ai; response_parts := None |}
             (text_request (str "hello") None) [] (str "hello")).
    + discriminate.
    + reflexivity.
    + vm_compute. reflexivity.
Defined.

(** C1 as stated fails: on the reply [{"humanProbability": 30}] the
    production server returns an object without aiProbability, whose two
    probabilities do not sum to 100. *)
Lemma sum_not_100_counterexample :
  ~ sums_to_100
      (snd (Prod.analyze_text (sample_runtime 0) (replied reply_only_human)
              (text_request (str "hello") None) [])).
Proof.
  intros (a & h & Ha & _). vm_compute in Ha. discriminate Ha.
Qed.

(** C2.  On every analyze endpoint of every server, when the call to the
    external model throws an error with the rate-limit signature (status
    429, or a message containing "429" or "RESOURCE_EXHAUSTED"), the handler
    answers 200 with a result whose explanation contains "Demo Mode", and
    does not answer 500. *)
Theorem rate_limit_answers_demo_mode (v : server) (ep : endpoint)
    (w : runtime) (e : js_error) (req : request) (db : database) :
  accepted v ep req = true ->
  err_status e = Some (of_Z 429)
  \/ includes (err_message e) (str "429") = true
  \/ includes (err_message e) (str "RESOURCE_EXHAUSTED") = true ->
  let out := snd (analyze v ep w (Failed e) req db) in
  status out = 200 /\ demo_mode out = true /\ status out <> 500.
Proof.
  intros Hacc Hsig out.
  assert (isQuotaError v e = true) as Hq.
  { apply isQuotaError_iff. rewrite <- !includes_spec. exact Hsig. }
  destruct (quota_fallback v ep w e req db Hacc Hq) as [Hs Hd].
  subst out. rewrite Hs. repeat split; [exact Hd | discriminate].
Qed.

(** The video endpoint of the serverless handler on the error of the client
    library for HTTP 429. *)
Lemma rate_limit_answers_demo_mode_witness :
  let out := snd (analyze ServerlessHandler Video (sample_runtime 0)
                    (Failed rate_limited)
                    (upload_request (str "clip.mp4") (str "video/mp4")) [])
  in status out = 200 /\ demo_mode out = true /\ status out <> 500.
Proof.
  apply (rate_limit_answers_demo_mode ServerlessHandler Video
           (sample_runtime 0) rate_limited
           (upload_request (str "clip.mp4") (str "video/mp4")) []).
  - reflexivity.
  - left. reflexivity.
Defined.

(** C3.  POST /api/analyze/text with the empty string as [text] answers 400
    with an error object and leaves the table as it was, on every server
    and whatever the external model would have answered. *)
Theorem empty_text_is_rejected (v : server) (w : runtime) (ai : reply)
    (req : request) (db : database) :
  text req = Some [] ->
  analyze v Text w ai req db = (db, res_error 400 (str "Text is required")).
Proof.
  intros H. destruct v; cbn [analyze];
    unfold Dev.analyze_text, Prod.analyze_text, Serverless.analyze_text;
    rewrite H; reflexivity.
Qed.

(** The dev server on a request whose text is empty. *)
Lemma empty_text_is_rejected_witness :
  analyze DevServer Text (sample_runtime 7) (replied reply_both)
    (text_request [] (Some (str "ada@example.org"))) []
  = ([], res_error 400 (str "Text is required")).
Proof.
  apply (empty_text_is_rejected DevServer (sample_runtime 7)
           (replied reply_both)
           (text_request [] (Some (str "ada@example.org"))) []).
  reflexivity.
Defined.

(** C10.  The classifier of each server is true exactly when the status of
    the error is 429, or its message contains "429", or its message
    contains "RESOURCE_EXHAUSTED"; so a failure whose message contains "429"
    anywhere, whatever its status, is answered with 200 and a demo result
    instead of 500. *)
Theorem classifier_takes_any_429 :
  (forall v e,
      isQuotaError v e = true <->
      err_status e = Some (of_Z 429)
      \/ (exists pre post, err_message e = pre ++ str "429" ++ post)
      \/ (exists pre post,
             err_message e = pre ++ str "RESOURCE_EXHAUSTED" ++ post))
  /\ (forall v ep w e req db pre post,
         accepted v ep req = true ->
         err_message e = pre ++ str "429" ++ post ->
         let out := snd (analyze v ep w (Failed e) req db) in
         status out = 200 /\ demo_mode out = true).
Proof.
  split.
  - exact isQuotaError_iff.
  - intros v ep w e req db pre post Hacc Hm out.
    apply quota_fallback; [exact Hacc|].
    apply isQuotaError_iff. right; left. now exists pre, post.
Qed.

(** An internal error with status 500 whose message quotes the request
    number 1042917 is classified and answered as a rate limit. *)
Lemma classifier_takes_any_429_witness :
  err_status unrelated_failure = Some (of_Z 500)
  /\ isQuotaError ProdServer unrelated_failure = true
  /\ let out := snd (analyze ProdServer Text (sample_runtime 0)
                       (Failed unrelated_failure)
                       (text_request (str "some text") None) [])
     in status out = 200 /\ demo_mode out = true.
Proof.
  destruct classifier_takes_any_429 as (Hiff & Hthen).
  split; [reflexivity|]. split.
  - apply (proj2 (Hiff ProdServer unrelated_failure)).
    right; left.
    exists (str "Internal error while serving request 10"), (str "17").
    reflexivity.
  - apply (Hthen ProdServer Text (sample_runtime 0) unrelated_failure
             (text_request (str "some text") None) []
             (str "Internal error while serving request 10") (str "17")).
    + reflexivity.
    + reflexivity.
Defined.

(** C9 (amended).  POST /api/analyze/image answers 400 with an error object
    when the file is missing.  When the model replies with a JSON object,
    the answer is 200 and the returned object carries [exif], the metadata
    read from the upload or the empty object when the EXIF parser fails; on
    the production server this holds when the complement statement runs to
    its end, and when it throws (an aiProbability without primitive value)
    the call is handled as a failed call with that TypeError, before [exif]
    is set.  The quota-fallback answer is the demo result, which has no
    [exif] field. *)
Theorem image_result_carries_exif :
  (forall v w ai req db,
      file req = None ->
      analyze v Image w ai req db
      = (db, res_error 400 (str "Image is required")))
  /\ (forall v w r req db f props,
         file req = Some f ->
         parsed_reply v r = Some (JObj props) ->
         complement_defined v props = true ->
         let out := snd (analyze v Image w (Replied r) req db) in
         status out = 200
         /\ response_field (str "exif") out
            = Some match exif_parser w (buffer f) with
                   | Some parsed => parsed
                   | None => JObj []
                   end)
  /\ (forall w r req db f props,
         file req = Some f ->
         parsed_reply ProdServer r = Some (JObj props) ->
         complement_defined ProdServer props = false ->
         exists a,
           get_prop (str "aiProbability") props = Some a
           /\ analyze ProdServer Image w (Replied r) req db
              = analyze ProdServer Image w
                  (Failed {| err_status := None;
                             err_message := primitive_error_message w a |})
                  req db)
  /\ (forall v w e req db f,
         file req = Some f ->
         isQuotaError v e = true ->
         let out := snd (analyze v Image w (Failed e) req db) in
         status out = 200 /\ demo_mode out = true
         /\ response_field (str "exif") out = None).
Proof.
  split; [|split; [|split]].
  - intros v w ai req db H. destruct v; cbn [analyze];
      unfold Dev.analyze_image, Prod.analyze_image, Serverless.analyze_image;
      rewrite H; reflexivity.
  - intros v w r req db f props Hf Hr Hc out; subst out.
    destruct v; cbn [analyze parsed_reply] in *;
      unfold Dev.analyze_image, Prod.analyze_image, Serverless.analyze_image;
      rewrite Hf; cbn [generateContent bind].
    + unfold JSON_parse_or_throw; rewrite Hr. cbn [bind write_prop snd].
      split; [reflexivity|].
      unfold response_field, res_json; cbn [body field].
      apply get_set_same.
    + injection Hr as Hr. rewrite Hr.
      destruct (backfill_defined w props Hc) as (props' & ->).
      cbn [bind write_prop snd]. split; [reflexivity|].
      unfold response_field, res_json; cbn [body field].
      apply get_set_same.
    + unfold JSON_parse_or_throw; rewrite Hr. cbn [bind write_prop snd].
      split; [reflexivity|].
      unfold response_field, res_json; cbn [body field].
      apply get_set_same.
  - intros w r req db f props Hf Hr Hc.
    destruct (backfill_undefined w props Hc) as (a & Ha & _ & Hthrow).
    exists a. split; [exact Ha|].
    cbn [analyze parsed_reply] in *. injection Hr as Hr.
    unfold Prod.analyze_image. rewrite Hf. cbn [generateContent bind].
    rewrite Hr, Hthrow. reflexivity.
  - intros v w e req db f Hf Hq out; subst out.
    destruct v; cbn [analyze isQuotaError] in *;
      unfold Dev.analyze_image, Prod.analyze_image, Serverless.analyze_image;
      rewrite Hf; cbn [generateContent bind]; rewrite Hq; cbn [snd];
      vm_compute; auto.
Qed.

(** The parts of C9 (amended) on the production server: no file, an upload
    whose EXIF data cannot be read, a reply whose aiProbability has no
    primitive value, and a quota-fallback call. *)
Lemma image_result_carries_exif_witness :
  analyze ProdServer Image (sample_runtime 0) (replied reply_only_ai)
    empty_request []
  = ([], res_error 400 (str "Image is required"))
  /\ (let out := snd (analyze ProdServer Image (sample_runtime 0)
                        (replied reply_only_ai)
                        (upload_request (str "cat.png") (str "image/png")) [])
      in status out = 200
         /\ response_field (str "exif") out = Some (JObj []))
  /\ (exists a,
         get_prop (str "aiProbability")
           [(str "aiProbability", JObj [(str "toString", JNum (of_Z 1))])]
         = Some a
         /\ analyze ProdServer Image (sample_runtime 0)
              (Replied {| response_text := Some reply_unconvertible_ai;
                          response_parts := None |})
              (upload_request (str "cat.png") (str "image/png")) []
            = analyze ProdServer Image (sample_runtime 0)
                (Failed {| err_status := None;
                           err_message :=
                             primitive_error_message (sample_runtime 0) a |})
                (upload_request (str "cat.png") (str "image/png")) [])
  /\ (let out := snd (analyze ProdServer Image (sample_runtime 0)
                        (Failed rate_limited)
                        (upload_request (str "cat.png") (str "image/png")) [])
      in status out = 200 /\ demo_mode out = true
         /\ response_field (str "exif") out = None).
Proof.
  destruct image_result_carries_exif as (Hmissing & Hexif & Hthrow & Hdemo).
  split; [|split; [|split]].
  - apply (Hmissing ProdServer). reflexivity.
  - apply (Hexif ProdServer (sample_runtime 0)
             {| response_text := Some reply_only_ai; response_parts := None |}
             (upload_request (str "cat.png") (str "image/png")) []
             (sample_upload (str "cat.png") (str "image/png"))
             [(str "aiProbability", JNum (of_Z 70))]).
    + reflexivity.
    + vm_compute. reflexivity.
    + vm_compute. reflexivity.
  - apply (Hthrow (sample_runtime 0)
             {| response_text := Some reply_unconvertible_ai;
                response_parts := None |}
             (upload_request (str "cat.png") (str "image/png")) []
             (sample_upload (str "cat.png") (str "image/png"))).
    + reflexivity.
    + vm_compute. reflexivity.
    + vm_compute. reflexivity.
  - apply (Hdemo ProdServer (sample_runtime 0) rate_limited
             (upload_request (str "cat.png") (str "image/png")) []
             (sample_upload (str "cat.png") (str "image/png"))).
    + reflexivity.
    + reflexivity.
Defined.

(** C9 as stated fails: the quota-fallback answer of the image endpoint is
    a 200 whose body has no [exif] field. *)
Lemma fallback_without_exif_counterexample :
  status (snd (Dev.analyze_image (sample_runtime 0) (Failed rate_limited)
                 (upload_request (str "cat.png") (str "image/png")) [])) = 200
  /\ response_field (str "exif")
       (snd (Dev.analyze_image (sample_runtime 0) (Failed rate_limited)
               (upload_request (str "cat.png") (str "image/png")) [])) = None.
Proof. vm_compute. split; reflexivity. Qed.

(* ================================================================== *)
(** * The table is append-only *)
(* ================================================================== *)

Lemma extends_refl (db : database) : extends db db.
Proof. exists []. split; [now rewrite app_nil_r | simpl; lia]. Qed.

Lemma extends_insert (w : runtime) (db : database) (a b c d : jsstring) :
  extends db (insert w db a b c d).
Proof. unfold insert. eexists. split; [reflexivity | simpl; lia]. Qed.

Create HintDb table.
#[local] Hint Resolve extends_refl extends_insert : table.

Ltac unfold_handlers :=
  unfold Dev.analyze_text, Dev.analyze_image, Dev.analyze_video,
    Dev.analyze_link, Dev.analyze_profile, Dev.chat, Dev.generate,
    Dev.history, Prod.analyze_text, Prod.analyze_image, Prod.analyze_video,
    Prod.analyze_link, Prod.analyze_profile, Prod.chat, Prod.history,
    Serverless.analyze_text, Serverless.analyze_image,
    Serverless.analyze_video, Serverless.analyze_link,
    Serverless.analyze_profile, Serverless.chat, Serverless.generate,
    Serverless.compare, Serverless.history.

(** Splits on every branch a handler takes. *)
Ltac branches :=
  repeat first
    [ progress cbn [bind generateContent fst snd]
    | match goal with
      | |- context [match truthy ?x with _ => _ end] => destruct (truthy x)
      | |- context [match file ?x with _ => _ end] => destruct (file x)
      | |- context [generateContent ?ai] => destruct ai
      | |- context [JSON_parse_or_throw ?w ?s] =>
          unfold JSON_parse_or_throw; destruct (JSON_parse s)
      | |- context [Prod.backfill ?w ?x] => destruct (Prod.backfill w x)
      | |- context [write_prop ?w ?x ?k ?y] => destruct (write_prop w x k y)
      | |- context [if ?b then _ else _] => destruct b
      | |- context [match response_parts ?r with _ => _ end] =>
          destruct (response_parts r)
      end ].

Lemma handlers_extend (v : server) (rt : route) (h : handler) (w : runtime)
    (ai : reply) (req : request) (db : database) :
  serve v rt = Some h -> extends db (fst (h w ai req db)).
Proof.
  intros H.
  destruct rt as [ep| | | |], v; try destruct ep; cbn [serve analyze] in H;
    try discriminate H; injection H as <-; cbn [history];
    unfold_handlers; branches; auto with table.
Qed.

(** What a handler writes when the model replies with a JSON object. *)
Lemma success_is_recorded (v : server) (ep : endpoint) (w : runtime)
    (r : model_response) (req : request) (db : database)
    (props : list (jsstring * json)) :
  accepted v ep req = true ->
  parsed_reply v r = Some (JObj props) ->
  ep = Profile \/ complement_defined v props = true ->
  exists row,
    fst (analyze v ep w (Replied r) req db) = db ++ [row]
    /\ user_email row = sqlite_text (or_else (userEmail req) anonymous)
    /\ type row = endpoint_name ep
    /\ created_at row = current_timestamp w
    /\ id row = next_id db.
Proof.
  intros Hacc Hr Hc.
  destruct v, ep; cbn [parsed_reply] in Hr; enter_handler Hacc;
    cbn [generateContent bind];
    try (injection Hr as Hr; rewrite Hr;
         try (destruct Hc as [Hc|Hc]; [discriminate Hc|];
              destruct (backfill_defined w props Hc) as (props' & ->)));
    try (unfold JSON_parse_or_throw; rewrite Hr);
    cbn [bind write_prop fst]; unfold insert;
    eexists; (split; [reflexivity|]); cbn [user_email type created_at id];
    repeat split; reflexivity.
Qed.

(** A reply on which the complement statement of the production server
    throws leaves no row. *)
Lemma thrown_complement_is_not_recorded (ep : endpoint) (w : runtime)
    (r : model_response) (req : request) (db : database)
    (props : list (jsstring * json)) :
  ep <> Profile ->
  accepted ProdServer ep req = true ->
  parsed_reply ProdServer r = Some (JObj props) ->
  complement_defined ProdServer props = false ->
  exists a,
    get_prop (str "aiProbability") props = Some a
    /\ analyze ProdServer ep w (Replied r) req db
       = analyze ProdServer ep w
           (Failed {| err_status := None;
                      err_message := primitive_error_message w a |})
           req db
    /\ fst (analyze ProdServer ep w (Replied r) req db) = db.
Proof.
  intros Hep Hacc Hr Hc.
  destruct (backfill_undefined w props Hc) as (a & Ha & _ & Hthrow).
  exists a. split; [exact Ha|].
  cbn [parsed_reply] in Hr. injection Hr as Hr.
  destruct ep; try congruence; enter_handler Hacc;
    cbn [generateContent bind]; rewrite Hr, Hthrow; cbn [bind];
    (split; [reflexivity|]);
    destruct (Prod.isQuotaError _); reflexivity.
Qed.

(** What a handler writes when it answers with the demo result. *)
Lemma fallback_is_recorded_by_two (v : server) (ep : endpoint) (w : runtime)
    (e : js_error) (req : request) (db : database) :
  accepted v ep req = true ->
  isQuotaError v e = true ->
  if records_fallback v ep then
    exists row,
      fst (analyze v ep w (Failed e) req db) = db ++ [row]
      /\ user_email row = sqlite_text (or_else (userEmail req) anonymous)
      /\ type row = endpoint_name ep
      /\ created_at row = current_timestamp w
  else fst (analyze v ep w (Failed e) req db) = db.
Proof.
  intros Hacc Hq.
  destruct v, ep; cbn [isQuotaError records_fallback] in *;
    enter_handler Hacc; cbn [generateContent bind]; rewrite Hq; cbn [fst];
    try reflexivity;
    unfold insert; eexists; (split; [reflexivity|]);
    cbn [user_email type created_at]; repeat split; reflexivity.
Qed.

(** C8 (amended).  No operation of the three servers mutates or deletes a
    row: each leaves the table as it was or adds one row at its end.  A row
    is created by each analysis call in which the model replies with a JSON
    object, unless the complement statement of the production server
    throws on it (an aiProbability without primitive value, on the text,
    image, video and link handlers): that call is handled as a failed call
    and writes nothing.  On a quota-fallback call a row is created by the
    text and image handlers of the dev server only; every other handler
    answers with the demo result and writes nothing.  The row holds the
    user identifier as the storage engine keeps it. *)
Theorem rows_are_only_appended :
  (forall v rt h w ai req db,
      serve v rt = Some h ->
      exists added,
        fst (h w ai req db) = db ++ added /\ (List.length added <= 1)%nat)
  /\ (forall v ep w r req db props,
         accepted v ep req = true ->
         parsed_reply v r = Some (JObj props) ->
         ep = Profile \/ complement_defined v props = true ->
         exists row,
           fst (analyze v ep w (Replied r) req db) = db ++ [row]
           /\ user_email row
              = sqlite_text (or_else (userEmail req) anonymous)
           /\ type row = endpoint_name ep
           /\ created_at row = current_timestamp w
           /\ id row = next_id db)
  /\ (forall ep w r req db props,
         ep <> Profile ->
         accepted ProdServer ep req = true ->
         parsed_reply ProdServer r = Some (JObj props) ->
         complement_defined ProdServer props = false ->
         exists a,
           get_prop (str "aiProbability") props = Some a
           /\ analyze ProdServer ep w (Replied r) req db
              = analyze ProdServer ep w
                  (Failed {| err_status := None;
                             err_message := primitive_error_message w a |})
                  req db
           /\ fst (analyze ProdServer ep w (Replied r) req db) = db)
  /\ (forall v ep w e req db,
         accepted v ep req = true ->
         isQuotaError v e = true ->
         if records_fallback v ep then
           exists row,
             fst (analyze v ep w (Failed e) req db) = db ++ [row]
             /\ user_email row
                = sqlite_text (or_else (userEmail req) anonymous)
             /\ type row = endpoint_name ep
             /\ created_at row = current_timestamp w
         else fst (analyze v ep w (Failed e) req db) = db).
Proof.
  split; [|split; [|split]].
  - intros v rt h w ai req db H. exact (handlers_extend v rt h w ai req db H).
  - exact success_is_recorded.
  - exact thrown_complement_is_not_recorded.
  - exact fallback_is_recorded_by_two.
Qed.

(** The parts of C8 (amended): a chat call on a table of one row, an
    analysis the model answers with an object, a reply on which the
    complement statement of the production server throws, and a
    quota-fallback call of the text endpoint of the production server. *)
Lemma rows_are_only_appended_witness :
  (exists added,
      fst (Dev.chat (sample_runtime 0) (replied (str "hi")) empty_request
             sample_history) = sample_history ++ added
      /\ (List.length added <= 1)%nat)
  /\ (exists row,
         fst (analyze ServerlessHandler Text (sample_runtime 30)
                (Replied {| response_text := Some reply_both;
                            response_parts := None |})
                (text_request (str "third text") None) sample_history)
         = sample_history ++ [row]
         /\ user_email row = anonymous
         /\ type row = str "text"
         /\ created_at row = 30
         /\ id row = 4)
  /\ fst (analyze ProdServer Text (sample_runtime 30)
            (Replied {| response_text := Some reply_unconvertible_ai;
                        response_parts := None |})
            (text_request (str "third text") None) sample_history)
     = sample_history
  /\ fst (analyze ProdServer Text (sample_runtime 0) (Failed rate_limited)
            (text_request (str "some text") None) sample_history)
     = sample_history.
Proof.
  destruct rows_are_only_appended as (Hkept & Hsuccess & Hthrow & Hfallback).
  split; [|split; [|split]].
  - apply (Hkept DevServer Chat). reflexivity.
  - apply (Hsuccess ServerlessHandler Text (sample_runtime 30)
             {| response_text := Some reply_both; response_parts := None |}
             (text_request (str "third text") None) sample_history
             [(str "aiProbability", JNum (of_Z 80));
              (str "humanProbability", JNum (of_Z 20))]).
    + reflexivity.
    + vm_compute. reflexivity.
    + right. reflexivity.
  - destruct (Hthrow Text (sample_runtime 30)
                {| response_text := Some reply_unconvertible_ai;
                   response_parts := None |}
                (text_request (str "third text") None) sample_history
                [(str "aiProbability",
                  JObj [(str "toString", JNum (of_Z 1))])])
      as (a & _ & _ & Hdb).
    + discriminate.
    + reflexivity.
    + vm_compute. reflexivity.
    + vm_compute. reflexivity.
    + exact Hdb.
  - apply (Hfallback ProdServer Text (sample_runtime 0) rate_limited
             (text_request (str "some text") None) sample_history).
    + reflexivity.
    + reflexivity.
Defined.

(** C8 as stated fails: a quota-fallback call of the text endpoint of the
    production server answers 200 with the demo result and creates no
    row. *)
Lemma fallback_without_row_counterexample :
  status (snd (Prod.analyze_text (sample_runtime 0) (Failed rate_limited)
                 (text_request (str "some text") None) [])) = 200
  /\ demo_mode (snd (Prod.analyze_text (sample_runtime 0)
                       (Failed rate_limited)
                       (text_request (str "some text") None) [])) = true
  /\ fst (Prod.analyze_text (sample_runtime 0) (Failed rate_limited)
            (text_request (str "some text") None) []) = [].
Proof. vm_compute. repeat split; reflexivity. Qed.

(* ================================================================== *)
(** * The history query *)
(* ================================================================== *)

Lemma insert_desc_perm (r : row) (l : list row) :
  Permutation (insert_desc r l) (r :: l).
Proof.
  induction l as [|x l IH]; simpl; [reflexivity|].
  destruct (created_at x <=? created_at r); [reflexivity|].
  rewrite IH. apply perm_swap.
Qed.

Lemma order_by_created_at_desc_perm (l : list row) :
  Permutation (order_by_created_at_desc l) l.
Proof.
  induction l as [|x l IH]; simpl; [reflexivity|].
  rewrite insert_desc_perm. now constructor.
Qed.

Lemma insert_desc_hd (x r : row) (l : list row) :
  created_at r <= created_at x ->
  HdRel (fun a b => created_at b <= created_at a) x l ->
  HdRel (fun a b => created_at b <= created_at a) x (insert_desc r l).
Proof.
  intros Hr Hl. destruct l as [|y l]; simpl.
  - now constructor.
  - destruct (created_at y <=? created_at r); constructor; auto.
    now inversion Hl.
Qed.

Lemma insert_desc_sorted (r : row) (l : list row) :
  newest_first l -> newest_first (insert_desc r l).
Proof.
  unfold newest_first. induction 1 as [|x l Hs IH Hh]; simpl.
  - repeat constructor.
  - destruct (Z.leb_spec (created_at x) (created_at r)).
    + repeat constructor; auto.
    + constructor; [exact IH|]. apply insert_desc_hd; [lia | exact Hh].
Qed.

Lemma order_by_created_at_desc_sorted (l : list row) :
  newest_first (order_by_created_at_desc l).
Proof.
  induction l as [|x l IH]; simpl; [constructor|].
  now apply insert_desc_sorted.
Qed.

Lemma firstn_newest_first (n : nat) (l : list row) :
  newest_first l -> newest_first (firstn n l).
Proof.
  unfold newest_first. intros H. revert n.
  induction H as [|x l Hs IH Hh]; intros [|n]; simpl; try constructor.
  - apply IH.
  - destruct Hh; destruct n; simpl; constructor; assumption.
Qed.

Lemma firstn_member (n : nat) (l : list row) (r : row) :
  In r (firstn n l) -> In r l.
Proof.
  intros H. rewrite <- (firstn_skipn n l). apply in_or_app. now left.
Qed.

Lemma rows_of_insert (w : runtime) (db : database) (k e t c r : jsstring) :
  rows_of k (insert w db e t c r)
  = rows_of k db
      ++ (if jsstring_eqb (sqlite_text e) (sqlite_text k)
          then [{| id := next_id db; user_email := sqlite_text e;
                   type := sqlite_text t; content := sqlite_text c;
                   result := sqlite_text r;
                   created_at := current_timestamp w |}]
          else []).
Proof.
  unfold rows_of, insert. rewrite filter_app. simpl.
  destruct (jsstring_eqb (sqlite_text e) (sqlite_text k)); reflexivity.
Qed.

Lemma select_history_rows (n : nat) (k : jsstring) (db : database) :
  let rs := select_history n k db in
  (List.length rs <= n)%nat
  /\ newest_first rs
  /\ Forall (fun r => user_email r = sqlite_text k) rs
  /\ ((List.length (rows_of k db) <= n)%nat -> Permutation rs (rows_of k db)).
Proof.
  unfold select_history. fold (rows_of k db).
  set (sorted := order_by_created_at_desc (rows_of k db)).
  assert (Permutation sorted (rows_of k db)) as Hp
    by apply order_by_created_at_desc_perm.
  repeat split.
  - apply firstn_le_length.
  - apply firstn_newest_first, order_by_created_at_desc_sorted.
  - apply Forall_forall. intros r Hr.
    apply firstn_member in Hr. apply (Permutation_in _ Hp) in Hr.
    apply filter_In in Hr. now apply jsstring_eqb_eq.
  - intros Hlen. rewrite firstn_all2; [exact Hp|].
    now rewrite (Permutation_length Hp).
Qed.

(** The order of two rows: the later second first, and the order of
    insertion within one second. *)
Lemma order_of_two (r1 r2 : row) :
  order_by_created_at_desc [r1; r2]
  = if created_at r1 <? created_at r2 then [r2; r1] else [r1; r2].
Proof.
  cbn [order_by_created_at_desc fold_right insert_desc].
  destruct (Z.leb_spec (created_at r2) (created_at r1)),
    (Z.ltb_spec (created_at r1) (created_at r2)); try lia; reflexivity.
Qed.

(** C4 (amended).  An insert adds one row to the rows of its user
    identifier and none to those of another.  GET /api/history?email=x
    reads the table without changing it and returns rows of x only (x as
    the storage engine keeps it), in non-increasing creation time and never
    more than the limit of the server (20 on the dev and production
    servers, 50 on the serverless one); it returns no row when none was
    inserted for x.  The creation time has the resolution of a second:
    when exactly two rows were inserted for x, the history returns exactly
    these two, the second one first if it was made in a later second than
    the first, and the first one first if both were made in the same
    second. *)
Theorem history_returns_recent_rows :
  (forall w db k e t c r,
      rows_of k (insert w db e t c r)
      = rows_of k db
          ++ (if jsstring_eqb (sqlite_text e) (sqlite_text k)
              then [{| id := next_id db; user_email := sqlite_text e;
                       type := sqlite_text t; content := sqlite_text c;
                       result := sqlite_text r;
                       created_at := current_timestamp w |}]
              else []))
  /\ (forall v req db,
         let x := or_else (email req) anonymous in
         let rs := response_rows (snd (history v req db)) in
         fst (history v req db) = db
         /\ body (snd (history v req db)) = Rows rs
         /\ (List.length rs <= history_limit v)%nat
         /\ newest_first rs
         /\ Forall (fun r => user_email r = sqlite_text x) rs
         /\ (rows_of x db = [] -> rs = [])
         /\ (List.length (rows_of x db) = 2%nat ->
             List.length rs = 2%nat /\ Permutation rs (rows_of x db))
         /\ (forall r1 r2,
                rows_of x db = [r1; r2] ->
                rs = if created_at r1 <? created_at r2 then [r2; r1]
                     else [r1; r2])).
Proof.
  split; [exact rows_of_insert|].
  intros v req db x rs.
  assert (rs = select_history (history_limit v) x db) as Hrs
    by (destruct v; reflexivity).
  destruct (select_history_rows (history_limit v) x db)
    as (Hlen & Hsorted & Hmine & Hperm).
  rewrite <- Hrs in *.
  repeat split; auto.
  - destruct v; reflexivity.
  - destruct v; reflexivity.
  - intros Hnone. rewrite Hnone in Hperm.
    apply Permutation_nil, Permutation_sym, Hperm. simpl. lia.
  - apply Permutation_length in Hperm; [lia|].
    destruct v; simpl; lia.
  - apply Hperm. destruct v; simpl; lia.
  - intros r1 r2 Hrows. rewrite Hrs. unfold select_history.
    fold (rows_of x db). rewrite Hrows, order_of_two.
    destruct (created_at r1 <? created_at r2), v; reflexivity.
Qed.

(** The history of ada@example.org after two analyses at seconds 10 and
    20, after two analyses within second 10, and that of an identifier
    nothing was inserted for. *)
Lemma history_returns_recent_rows_witness :
  map (fun r => (id r, created_at r))
    (response_rows
       (snd (history DevServer
               (history_request (Some (str "ada@example.org")))
               sample_history)))
  = [(3, 20); (1, 10)]
  /\ map (fun r => (id r, created_at r))
       (response_rows
          (snd (history DevServer
                  (history_request (Some (str "ada@example.org")))
                  same_second_history)))
     = [(1, 10); (2, 10)]
  /\ response_rows
       (snd (history ServerlessHandler
               (history_request (Some (str "bob@example.org")))
               sample_history)) = [].
Proof.
  destruct history_returns_recent_rows as (_ & Hhistory).
  split; [|split].
  - destruct (Hhistory DevServer
                (history_request (Some (str "ada@example.org")))
                sample_history)
      as (_ & _ & _ & _ & _ & _ & _ & Htwo).
    rewrite (Htwo (nth 0 (rows_of (str "ada@example.org") sample_history)
                     {| id := 0; user_email := []; type := [];
                        content := []; result := []; created_at := 0 |})
                  (nth 1 (rows_of (str "ada@example.org") sample_history)
                     {| id := 0; user_email := []; type := [];
                        content := []; result := []; created_at := 0 |}))
      by (vm_compute; reflexivity).
    vm_compute. reflexivity.
  - destruct (Hhistory DevServer
                (history_request (Some (str "ada@example.org")))
                same_second_history)
      as (_ & _ & _ & _ & _ & _ & _ & Htwo).
    rewrite (Htwo (nth 0 (rows_of (str "ada@example.org")
                            same_second_history)
                     {| id := 0; user_email := []; type := [];
                        content := []; result := []; created_at := 0 |})
                  (nth 1 (rows_of (str "ada@example.org")
                            same_second_history)
                     {| id := 0; user_email := []; type := [];
                        content := []; result := []; created_at := 0 |}))
      by (vm_compute; reflexivity).
    vm_compute. reflexivity.
  - apply (Hhistory ServerlessHandler
             (history_request (Some (str "bob@example.org")))
             sample_history).
    vm_compute. reflexivity.
Defined.

(** C4 as stated fails: of two analyses for one identifier made in the same
    second, the history returns the first one first, so the most recent row
    is the last, not the first. *)
Lemma same_second_oldest_first_counterexample :
  map (fun r => (id r, content r, created_at r))
    (rows_of (str "ada@example.org") same_second_history)
  = [(1, str "first text", 10); (2, str "second text", 10)]
  /\ map (fun r => (id r, content r, created_at r))
       (response_rows
          (snd (history DevServer
                  (history_request (Some (str "ada@example.org")))
                  same_second_history)))
     = [(1, str "first text", 10); (2, str "second text", 10)].
Proof. vm_compute. split; reflexivity. Qed.

(** The rows of the sample, newest first. *)
Example sample_history_order :
  map (fun r => (id r, content r, created_at r))
    (response_rows
       (snd (history DevServer
               (history_request (Some (str "ada@example.org")))
               sample_history)))
  = [(3, str "second text", 20); (1, str "first text", 10)].
Proof. vm_compute. reflexivity. Qed.

(* ================================================================== *)
(** * The normalizer *)
(* ================================================================== *)

Lemma drop_until_split (c : char16) (s : jsstring) :
  exists pre, s = pre ++ drop_until c s /\ ~ In c pre.
Proof.
  induction s as [|d s (pre & IH & Hpre)]; simpl.
  - exists []. auto.
  - destruct (N.eqb_spec c d) as [->|Hne].
    + exists []. auto.
    + exists (d :: pre). split; [simpl; congruence|].
      simpl. intros [H|H]; [congruence | contradiction].
Qed.

Lemma drop_until_head (c : char16) (s : jsstring) :
  drop_until c s = [] \/ exists r, drop_until c s = c :: r.
Proof.
  induction s as [|d s IH]; simpl; [now left|].
  destruct (N.eqb_spec c d) as [->|]; [right; now exists s | exact IH].
Qed.

Lemma drop_until_nil (c : char16) (s : jsstring) :
  drop_until c s = [] <-> ~ In c s.
Proof.
  induction s as [|d s IH]; simpl; [tauto|].
  destruct (N.eqb_spec c d) as [->|Hne].
  - split; [discriminate | intros H; exfalso; apply H; now left].
  - rewrite IH. split; [intros H [E|E]; congruence | tauto].
Qed.

(** The match of the brace expression is the span of the text from its
    first opening brace to its last closing brace. *)
Lemma match_braces_span (t m : jsstring) :
  match_braces t = Some m ->
  exists pre body post,
    t = pre ++ m ++ post /\ m = 123%N :: body ++ [125%N]
    /\ ~ In 123%N pre /\ ~ In 125%N post.
Proof.
  unfold match_braces.
  destruct (drop_until_split 123%N t) as (pre & Ht & Hpre).
  set (t1 := drop_until 123%N t) in *.
  destruct (drop_until_split 125%N (rev t1)) as (q & Hq & Hpost).
  set (u := drop_until 125%N (rev t1)) in *.
  destruct (rev u) as [|c m'] eqn:Hm; [discriminate|].
  intros [= <-].
  assert (t1 = (c :: m') ++ rev q) as Ht1.
  { rewrite <- Hm, <- rev_app_distr, <- Hq. now rewrite rev_involutive. }
  assert (u <> []) as Hu by (intros E; rewrite E in Hm; discriminate).
  destruct (drop_until_head 125%N (rev t1)) as [E | (r & Hr)];
    [contradiction|].
  fold u in Hr.
  assert (c :: m' = rev r ++ [125%N]) as Hlast
    by (rewrite <- Hm, Hr; reflexivity).
  destruct (drop_until_head 123%N t) as [E | (r1 & Hr1)].
  { fold t1 in E. rewrite E in Ht1. discriminate. }
  fold t1 in Hr1. rewrite Hr1 in Ht1. injection Ht1 as <- Hr1'.
  destruct (rev r) as [|c0 body] eqn:Hrev.
  { simpl in Hlast. discriminate. }
  simpl in Hlast. injection Hlast as <- ->.
  exists pre, body, (rev q). repeat split.
  - rewrite Ht at 1. fold t1. rewrite Hr1, Hr1'. reflexivity.
  - exact Hpre.
  - now rewrite <- in_rev.
Qed.

(** ** Stripping leaves out characters and adds none *)

Lemma subseq_refl (s : jsstring) : subseq s s.
Proof. induction s; constructor; assumption. Qed.

Lemma subseq_trans (a b c : jsstring) :
  subseq a b -> subseq b c -> subseq a c.
Proof.
  intros Hab Hbc. revert a Hab.
  induction Hbc as [|x b c Hbc IH|x b c Hbc IH]; intros a Hab.
  - exact Hab.
  - inversion Hab; subst; constructor; auto.
  - constructor. auto.
Qed.

Lemma subseq_app (a b c d : jsstring) :
  subseq a b -> subseq c d -> subseq (a ++ c) (b ++ d).
Proof. induction 1; simpl; intros; try constructor; auto. Qed.

Lemma subseq_nil_l (s : jsstring) : subseq [] s.
Proof. induction s; constructor; assumption. Qed.

Lemma subseq_rev (a b : jsstring) : subseq a b -> subseq (rev a) (rev b).
Proof.
  induction 1; simpl.
  - constructor.
  - apply subseq_app; [assumption | apply subseq_refl].
  - rewrite <- (app_nil_r (rev a)).
    apply subseq_app; [assumption | apply subseq_nil_l].
Qed.

Lemma skip_spaces_subseq (s : jsstring) : subseq (skip_spaces s) s.
Proof.
  induction s as [|c s IH]; simpl; [constructor|].
  destruct (is_space c); [now constructor | apply subseq_refl].
Qed.

Lemma trim_subseq (s : jsstring) : subseq (trim s) s.
Proof.
  unfold trim.
  apply subseq_trans with (skip_spaces s); [|apply skip_spaces_subseq].
  rewrite <- (rev_involutive (skip_spaces s)) at 2.
  apply subseq_rev, skip_spaces_subseq.
Qed.

Lemma subseq_skipn (n : nat) (s : jsstring) : subseq (skipn n s) s.
Proof.
  revert s; induction n as [|n IH]; intros [|c s]; simpl;
    try apply subseq_refl.
  constructor. apply IH.
Qed.

Lemma json_fence_subseq (s r : jsstring) :
  json_fence s = Some r -> subseq r s.
Proof.
  unfold json_fence.
  destruct s as [|b1 [|b2 [|b3 [|j [|s' [|o [|n rest]]]]]]]; try discriminate.
  destruct (_ && _); [|discriminate]. intros [= <-].
  apply subseq_trans with rest; [apply skip_spaces_subseq|].
  apply (subseq_skipn 7 (b1 :: b2 :: b3 :: j :: s' :: o :: n :: rest)).
Qed.

Lemma fence_subseq (s r : jsstring) : fence s = Some r -> subseq r s.
Proof.
  unfold fence. destruct s as [|b1 [|b2 [|b3 rest]]]; try discriminate.
  destruct (_ && _); [|discriminate]. intros [= <-].
  apply subseq_trans with rest; [apply skip_spaces_subseq|].
  apply (subseq_skipn 3 (b1 :: b2 :: b3 :: rest)).
Qed.

Lemma remove_all_subseq (matcher : jsstring -> option jsstring) :
  (forall s r, matcher s = Some r -> subseq r s) ->
  forall fuel s, subseq (remove_all matcher fuel s) s.
Proof.
  intros Hm. induction fuel as [|f IH]; intros s; simpl.
  - apply subseq_refl.
  - destruct s as [|c r]; [constructor|].
    destruct (matcher (c :: r)) as [rest|] eqn:E.
    + apply subseq_trans with rest; [apply IH | now apply Hm].
    + constructor. apply IH.
Qed.

Lemma strip_fences_subseq (text : jsstring) : subseq (strip_fences text) text.
Proof.
  unfold strip_fences.
  eapply subseq_trans; [apply trim_subseq|].
  eapply subseq_trans; apply remove_all_subseq;
    [exact fence_subseq | exact json_fence_subseq].
Qed.

Lemma subseq_single (c : char16) (s : jsstring) : subseq [c] s -> In c s.
Proof.
  induction s as [|d s IH]; intros H; inversion H; subst; simpl; auto.
Qed.

Lemma in_subseq_single (c : char16) (s : jsstring) : In c s -> subseq [c] s.
Proof.
  induction s as [|d s IH]; simpl; [contradiction|].
  intros [->|H].
  - constructor. apply subseq_nil_l.
  - constructor. auto.
Qed.

Lemma braces_after_first (t : jsstring) :
  subseq [123; 125]%N t ->
  exists r, drop_until 123%N t = 123%N :: r /\ In 125%N r.
Proof.
  induction t as [|d t IH]; intros H; inversion H; subst.
  - exists t. split; [reflexivity | now apply subseq_single].
  - destruct (IH H2) as (r & Hr & Hin). cbn [drop_until].
    destruct (N.eqb_spec 123 d) as [<-|Hne].
    + exists t. split; [reflexivity|].
      destruct (drop_until_split 123%N t) as (pre & Ht & _).
      rewrite Ht, Hr. apply in_or_app. right. now right.
    + exists r. split; assumption.
Qed.

(** The brace expression matches exactly the texts that hold an opening
    brace and a closing brace after it. *)
Lemma has_object_pattern_iff (t : jsstring) :
  has_object_pattern t = true <-> subseq [123; 125]%N t.
Proof.
  unfold has_object_pattern. split.
  - destruct (match_braces t) as [m|] eqn:E; [intros _ | discriminate].
    destruct (match_braces_span t m E) as (pre & body & post & -> & -> & _).
    rewrite <- (app_nil_l [123; 125]%N).
    apply subseq_app; [apply subseq_nil_l|].
    simpl. constructor.
    rewrite <- app_assoc.
    rewrite <- (app_nil_l [125%N]) at 1.
    apply subseq_app; [apply subseq_nil_l|].
    simpl. constructor. apply subseq_nil_l.
  - intros H. destruct (braces_after_first t H) as (r & Hr & Hin).
    assert (drop_until 125%N (rev (123%N :: r)) <> []) as Hne.
    { rewrite drop_until_nil. intros Hn. apply Hn.
      apply in_rev. rewrite rev_involutive. now right. }
    unfold match_braces. rewrite Hr.
    change (drop_until 123%N (123%N :: r)) with (123%N :: r).
    match goal with
    | |- context [match ?x with [] => _ | _ :: _ => _ end] =>
        destruct x eqn:E'; [|reflexivity]
    end.
    exfalso. apply Hne.
    apply (f_equal (@rev _)) in E'. rewrite rev_involutive in E'.
    exact E'.
Qed.

(** C6 (amended).  [parseJSON] is a total function: it returns a value on
    every string and raises nothing.  On a text that holds no opening brace
    followed by a closing brace it returns the strict parse of the stripped
    text when that is valid JSON (a number, a string, a boolean, null or an
    array), and the empty object otherwise. *)
Theorem no_pattern_gives_parse_or_empty (text : jsstring) :
  has_object_pattern text = false ->
  parseJSON text = match JSON_parse (strip_fences text) with
                   | Some v => v
                   | None => JObj []
                   end
  /\ (JSON_parse (strip_fences text) = None -> parseJSON text = JObj []).
Proof.
  intros H.
  assert (match_braces (strip_fences text) = None) as Hnone.
  { destruct (match_braces (strip_fences text)) as [m|] eqn:E; [|reflexivity].
    assert (has_object_pattern text = true) as Ht; [|congruence].
    apply has_object_pattern_iff.
    apply subseq_trans with (strip_fences text);
      [|apply strip_fences_subseq].
    apply has_object_pattern_iff. unfold has_object_pattern. now rewrite E. }
  unfold parseJSON. rewrite Hnone.
  split; [reflexivity | intros ->; reflexivity].
Qed.

(** A refusal in prose. *)
Lemma no_pattern_gives_parse_or_empty_witness :
  parseJSON (str "I cannot analyze this text.") = JObj [].
Proof.
  apply (proj2 (no_pattern_gives_parse_or_empty
                  (str "I cannot analyze this text.") eq_refl)).
  reflexivity.
Defined.

(** C6 as stated fails: the text [42] holds no object pattern, and
    [parseJSON] returns the number 42, not the empty object. *)
Lemma scalar_is_returned_counterexample :
  has_object_pattern (str "42") = false
  /\ parseJSON (str "42") = JNum (of_Z 42)
  /\ parseJSON (str "42") <> JObj [].
Proof.
  assert (parseJSON (str "42") = JNum (of_Z 42)) as H
    by (vm_compute; reflexivity).
  rewrite H.
  split; [reflexivity|]. split; [reflexivity|]. discriminate.
Qed.

(** ** A fenced serialization *)

Lemma remove_all_nil (matcher : jsstring -> option jsstring) (fuel : nat) :
  remove_all matcher fuel [] = [].
Proof. destruct fuel; reflexivity. Qed.

(** Where the expression matches at no position, nothing is removed. *)
Lemma remove_all_none (matcher : jsstring -> option jsstring) (fuel : nat) :
  forall s,
    (forall pre suf, s = pre ++ suf -> matcher suf = None) ->
    remove_all matcher fuel s = s.
Proof.
  induction fuel as [|f IH]; intros s H; [reflexivity|].
  destruct s as [|c r]; [reflexivity|]. simpl.
  rewrite (H [] (c :: r) eq_refl). f_equal. apply IH.
  intros pre suf ->. apply (H (c :: pre)). reflexivity.
Qed.

(** Where the only match is the closing fence at the end of the text, the
    closing fence is what is removed. *)
Lemma remove_all_closing (u : jsstring) :
  forall fuel,
    (forall pre c suf, u = pre ++ c :: suf ->
                       fence (c :: suf ++ [96; 96; 96]%N) = None) ->
    (List.length u < fuel)%nat ->
    remove_all fence fuel (u ++ [96; 96; 96]%N) = u.
Proof.
  induction u as [|c u IH]; intros fuel H Hf.
  - destruct fuel as [|f]; [inversion Hf|]. simpl. apply remove_all_nil.
  - destruct fuel as [|f]; [inversion Hf|].
    cbn [app remove_all]. rewrite (H [] c u eq_refl). f_equal.
    apply IH; [|simpl in Hf; lia].
    intros pre d suf ->. apply (H (c :: pre)). reflexivity.
Qed.

Lemma no_fence_step (c : char16) (s : jsstring) :
  includes (c :: s) [96; 96; 96]%N = false ->
  strip_prefix [96; 96; 96]%N (c :: s) = None
  /\ includes s [96; 96; 96]%N = false.
Proof.
  cbn [includes].
  destruct (strip_prefix [96; 96; 96]%N (c :: s)); [discriminate|].
  auto.
Qed.

(** In a text without three backticks in a row that is followed by a line
    break and a fence, the only three backticks in a row are that fence. *)
Lemma fence_only_at_end (s : jsstring) :
  includes s [96; 96; 96]%N = false ->
  forall pre r,
    s ++ [10; 96; 96; 96]%N = pre ++ [96; 96; 96]%N ++ r ->
    pre = s ++ [10%N] /\ r = [].
Proof.
  induction s as [|c s IH]; intros Hinc pre r H.
  - destruct pre as [|p0 [|p1 [|p2 [|p3 pre]]]]; simpl in H;
      try discriminate H.
    + injection H as <- <-. auto.
    + destruct pre; discriminate H.
  - apply no_fence_step in Hinc. destruct Hinc as [Hhead Hinc].
    destruct pre as [|p pre]; simpl in H.
    + exfalso. injection H as -> H.
      destruct s as [|c1 [|c2 s]]; simpl in H; try discriminate H.
      injection H as -> -> H. simpl in Hhead. discriminate Hhead.
    + injection H as -> H. destruct (IH Hinc pre r H) as [-> ->]. auto.
Qed.

Lemma fence_prefix (s x : jsstring) :
  fence s = Some x -> exists r, s = [96; 96; 96]%N ++ r.
Proof.
  unfold fence. destruct s as [|b1 [|b2 [|b3 r]]]; try discriminate.
  destruct (N.eqb_spec b1 96), (N.eqb_spec b2 96), (N.eqb_spec b3 96);
    try discriminate.
  subst. intros _. now exists r.
Qed.

Lemma json_fence_prefix (s x : jsstring) :
  json_fence s = Some x ->
  exists c r, s = [96; 96; 96]%N ++ c :: r.
Proof.
  unfold json_fence.
  destruct s as [|b1 [|b2 [|b3 [|j [|s' [|o [|n r]]]]]]]; try discriminate.
  destruct (N.eqb_spec b1 96), (N.eqb_spec b2 96), (N.eqb_spec b3 96);
    try discriminate.
  subst. intros _. now exists j, (s' :: o :: n :: r).
Qed.

Lemma trim_line_break (c : char16) (s : jsstring) :
  is_space c = false -> trim ((c :: s) ++ [10%N]) = trim (c :: s).
Proof.
  intros Hc. unfold trim. cbn [app skip_spaces]. rewrite Hc.
  change (c :: s ++ [10%N]) with ((c :: s) ++ [10%N]).
  rewrite rev_app_distr. reflexivity.
Qed.

Lemma remove_all_step (matcher : jsstring -> option jsstring) (f : nat)
    (c : char16) (r : jsstring) :
  remove_all matcher (S f) (c :: r)
  = match matcher (c :: r) with
    | Some rest => remove_all matcher f rest
    | None => c :: remove_all matcher f r
    end.
Proof. reflexivity. Qed.

Lemma opening_fence_removed (c : char16) (s : jsstring) :
  is_space c = false ->
  includes (c :: s) [96; 96; 96]%N = false ->
  remove_all json_fence (List.length (wrap_fences (c :: s)))
    (wrap_fences (c :: s))
  = (c :: s) ++ [10; 96; 96; 96]%N.
Proof.
  intros Hc Hinc. unfold wrap_fences, newline.
  change (str "```json") with [96; 96; 96; 106; 115; 111; 110]%N.
  change (str "```") with [96; 96; 96]%N.
  cbn [app List.length]. rewrite remove_all_step.
  change (json_fence
            (96%N :: 96%N :: 96%N :: 106%N :: 115%N :: 111%N :: 110%N
               :: 10%N :: c :: s ++ [10; 96; 96; 96]%N))
    with (Some (skip_spaces (10%N :: c :: s ++ [10; 96; 96; 96]%N))).
  cbn [skip_spaces]. change (is_space 10%N) with true. cbv iota. rewrite Hc.
  apply remove_all_none. intros pre suf Ht.
  destruct (json_fence suf) as [x|] eqn:E; [|reflexivity].
  apply json_fence_prefix in E. destruct E as (d & r & ->).
  destruct (fence_only_at_end (c :: s) Hinc pre (d :: r) Ht) as [_ Hr].
  discriminate Hr.
Qed.

(** The fences around a text that starts with no white space and holds no
    three backticks in a row are removed, and nothing else is. *)
Lemma strip_fences_wrap (c : char16) (s : jsstring) :
  is_space c = false ->
  includes (c :: s) (str "```") = false ->
  strip_fences (wrap_fences (c :: s)) = trim (c :: s).
Proof.
  intros Hc Hinc. change (str "```") with [96; 96; 96]%N in Hinc.
  unfold strip_fences. rewrite (opening_fence_removed c s Hc Hinc).
  replace ((c :: s) ++ [10; 96; 96; 96]%N)
    with (((c :: s) ++ [10%N]) ++ [96; 96; 96]%N)
    by (now rewrite <- app_assoc).
  rewrite remove_all_closing.
  - apply trim_line_break, Hc.
  - intros pre d suf Hu.
    destruct (fence (d :: suf ++ [96; 96; 96]%N)) as [x|] eqn:E;
      [|reflexivity].
    apply fence_prefix in E. destruct E as (r & E).
    assert ((c :: s) ++ [10; 96; 96; 96]%N
            = pre ++ [96; 96; 96]%N ++ r) as Hsplit.
    { transitivity (((c :: s) ++ [10%N]) ++ [96; 96; 96]%N).
      - now rewrite <- app_assoc.
      - rewrite Hu, <- app_assoc. f_equal. exact E. }
    destruct (fence_only_at_end (c :: s) Hinc pre r Hsplit) as [Hpre ->].
    apply (f_equal (@List.length _)) in E. simpl in E.
    rewrite length_app in E. simpl in E. lia.
  - rewrite !length_app. simpl. lia.
Qed.

Lemma trim_braced (body : jsstring) :
  trim (123%N :: body ++ [125%N]) = 123%N :: body ++ [125%N].
Proof.
  unfold trim. cbn [skip_spaces]. change (is_space 123%N) with false.
  cbv iota.
  change (123%N :: body ++ [125%N]) with ((123%N :: body) ++ [125%N]).
  rewrite rev_app_distr. cbn [rev app skip_spaces].
  change (is_space 125%N) with false. cbv iota.
  change (125%N :: rev body ++ [123%N])
    with (rev [125%N] ++ rev (123%N :: body)).
  rewrite <- rev_app_distr. apply rev_involutive.
Qed.

(** C5 (amended).  For every JSON object whose serialization holds no three
    backticks in a row, [parseJSON] on the serialization wrapped in Markdown
    fences returns what [JSON.parse] returns on the raw serialization, and
    so does [parseJSON] on the raw serialization. *)
Theorem fenced_serialization_is_recovered (props : list (jsstring * json))
    (v : json) :
  let s := stringify (JObj props) in
  includes s (str "```") = false ->
  JSON_parse s = Some v ->
  parseJSON (wrap_fences s) = v /\ parseJSON s = v
  /\ strip_fences (wrap_fences s) = s.
Proof.
  intros s Hinc Hparse.
  assert (exists body, s = 123%N :: body ++ [125%N]) as (body & Hs).
  { unfold s. cbn [stringify]. change (str "{") with [123%N].
    change (str "}") with [125%N]. eexists. reflexivity. }
  assert (strip_fences (wrap_fences s) = s) as Hwrap.
  { rewrite Hs in *. rewrite strip_fences_wrap; auto using trim_braced. }
  assert (strip_fences s = s) as Hraw.
  { unfold strip_fences.
    rewrite (remove_all_none json_fence).
    - rewrite (remove_all_none fence); [rewrite Hs; apply trim_braced|].
      intros pre suf E.
      destruct (fence suf) as [x|] eqn:F; [|reflexivity].
      apply fence_prefix in F. destruct F as (r & ->).
      assert (includes s (str "```") = true) as Hc; [|congruence].
      apply includes_spec. now exists pre, r.
    - intros pre suf E.
      destruct (json_fence suf) as [x|] eqn:F; [|reflexivity].
      apply json_fence_prefix in F. destruct F as (d & r & ->).
      assert (includes s (str "```") = true) as Hc; [|congruence].
      apply includes_spec. now exists pre, (d :: r). }
  unfold parseJSON. rewrite Hwrap, Hraw, Hparse. auto.
Qed.

(** The object [{"aiProbability":80,"humanProbability":20}] in a fence. *)
Lemma fenced_serialization_is_recovered_witness :
  parseJSON (wrap_fences
               (stringify (JObj [(str "aiProbability", JNum (of_Z 80));
                                 (str "humanProbability", JNum (of_Z 20))])))
  = JObj [(str "aiProbability", JNum (of_Z 80));
          (str "humanProbability", JNum (of_Z 20))].
Proof.
  apply (fenced_serialization_is_recovered
           [(str "aiProbability", JNum (of_Z 80));
            (str "humanProbability", JNum (of_Z 20))]
           (JObj [(str "aiProbability", JNum (of_Z 80));
                  (str "humanProbability", JNum (of_Z 20))])).
  - vm_compute. reflexivity.
  - vm_compute. reflexivity.
Defined.

(** C5 as stated fails: the object [{"a":"```"}] serializes to valid JSON
    that parses back to it, but wrapped in fences it is recovered as
    [{"a":""}]. *)
Lemma fenced_backticks_counterexample :
  JSON_parse (stringify backticks_object) = Some backticks_object
  /\ parseJSON (wrap_fences (stringify backticks_object))
     = JObj [(str "a", JStr [])]
  /\ parseJSON (wrap_fences (stringify backticks_object))
     <> backticks_object.
Proof.
  assert (parseJSON (wrap_fences (stringify backticks_object))
          = JObj [(str "a", JStr [])]) as H by (vm_compute; reflexivity).
  rewrite H.
  split; [vm_compute; reflexivity|].
  split; [reflexivity|].
  vm_compute. discriminate.
Qed.

(* ================================================================== *)
(** * What the normalizer leaves of the fences *)
(* ================================================================== *)

Lemma fence_at_backticks (r : jsstring) :
  fence (96 :: 96 :: 96 :: r)%N = Some (skip_spaces r).
Proof. reflexivity. Qed.

Lemma skip_spaces_suffix (s : jsstring) :
  exists p, s = p ++ skip_spaces s.
Proof.
  induction s as [|c s (p & IH)]; [now exists []|]. cbn [skip_spaces].
  destruct (is_space c); [|now exists []].
  exists (c :: p). cbn [app]. now f_equal.
Qed.

Lemma skip_spaces_length (s : jsstring) :
  (List.length (skip_spaces s) <= List.length s)%nat.
Proof.
  destruct (skip_spaces_suffix s) as (p & H). rewrite H at 2.
  rewrite length_app. lia.
Qed.

(** After the second replacement no three backticks in a row are left; a
    backtick at the head of the result was at the head of the text. *)
Lemma remove_fences_spec (fuel : nat) :
  forall s,
    (List.length s <= fuel)%nat ->
    let o := remove_all fence fuel s in
    (forall t, o = 96%N :: t -> exists t', s = 96%N :: t')
    /\ (forall t, o = 96%N :: 96%N :: t -> exists t', s = 96%N :: 96%N :: t')
    /\ includes o [96; 96; 96]%N = false.
Proof.
  induction fuel as [|f IH]; intros s Hlen o; subst o.
  - destruct s; [|simpl in Hlen; lia]. cbn [remove_all].
    split; [discriminate|]. split; [discriminate | reflexivity].
  - destruct s as [|c r].
    + cbn [remove_all].
      split; [discriminate|]. split; [discriminate | reflexivity].
    + rewrite remove_all_step. destruct (fence (c :: r)) as [rest|] eqn:E.
      * destruct (fence_prefix _ _ E) as (r' & Hs).
        cbn [app] in Hs. injection Hs as -> ->.
        rewrite fence_at_backticks in E. injection E as <-.
        assert (List.length (skip_spaces r') <= f)%nat as Hf.
        { pose proof (skip_spaces_length r'). cbn [List.length] in Hlen.
          lia. }
        destruct (IH _ Hf) as (_ & _ & H3).
        repeat split; eauto.
      * cbn [List.length] in Hlen.
        assert (List.length r <= f)%nat as Hf by lia.
        destruct (IH r Hf) as (H1 & H2 & H3).
        split; [|split].
        -- intros t [= -> _]. eauto.
        -- intros t [= -> Ht]. destruct (H1 _ Ht) as (t' & ->). eauto.
        -- cbn [includes].
           destruct (strip_prefix [96; 96; 96]%N
                       (c :: remove_all fence f r)) as [x|] eqn:Ep;
             [|exact H3].
           apply strip_prefix_spec in Ep. cbn [app] in Ep.
           injection Ep as -> Ep.
           destruct (H2 _ Ep) as (t' & ->).
           rewrite fence_at_backticks in E. discriminate E.
Qed.

(** [trim] cuts at both ends only. *)
Lemma trim_infix (s : jsstring) : exists p q, s = p ++ trim s ++ q.
Proof.
  unfold trim.
  destruct (skip_spaces_suffix s) as (p & Hp).
  destruct (skip_spaces_suffix (rev (skip_spaces s))) as (q & Hq).
  exists p, (rev q). rewrite <- rev_app_distr, <- Hq, rev_involutive.
  exact Hp.
Qed.

Lemma includes_false_infix (s p q sub : jsstring) :
  includes (p ++ s ++ q) sub = false -> includes s sub = false.
Proof.
  intros H. destruct (includes s sub) eqn:E; [|reflexivity].
  rewrite <- H. symmetry.
  apply includes_app_r, includes_app_l, E.
Qed.

Lemma skip_spaces_head (s : jsstring) (c : char16) (r : jsstring) :
  skip_spaces s = c :: r -> is_space c = false.
Proof.
  induction s as [|d s IH]; cbn [skip_spaces]; [discriminate|].
  destruct (is_space d) eqn:E; [exact IH|]. now intros [= <- _].
Qed.

Lemma skip_spaces_fixed (s : jsstring) :
  (forall c r, s = c :: r -> is_space c = false) -> skip_spaces s = s.
Proof.
  destruct s as [|c r]; [reflexivity|]. intros H. cbn [skip_spaces].
  now rewrite (H c r eq_refl).
Qed.

Lemma trim_idempotent (s : jsstring) : trim (trim s) = trim s.
Proof.
  unfold trim.
  set (a := skip_spaces s).
  set (b := skip_spaces (rev a)).
  assert (skip_spaces (rev b) = rev b) as H1.
  { apply skip_spaces_fixed. intros c r Hc.
    destruct (skip_spaces_suffix (rev a)) as (q & Hq). fold b in Hq.
    apply (f_equal (@rev char16)) in Hq.
    rewrite rev_involutive, rev_app_distr, Hc in Hq.
    apply (skip_spaces_head s c (r ++ rev q)). exact Hq. }
  rewrite H1, rev_involutive.
  assert (skip_spaces b = b) as H2.
  { apply skip_spaces_fixed. intros c r Hc.
    apply (skip_spaces_head (rev a) c r). exact Hc. }
  now rewrite H2.
Qed.

Lemma no_fence_no_match (u : jsstring) :
  includes u [96; 96; 96]%N = false ->
  forall pre suf, u = pre ++ suf ->
                  fence suf = None /\ json_fence suf = None.
Proof.
  intros Hu pre suf ->. split.
  - destruct (fence suf) as [x|] eqn:E; [|reflexivity].
    destruct (fence_prefix _ _ E) as (r & ->). exfalso.
    assert (includes (pre ++ [96; 96; 96]%N ++ r) [96; 96; 96]%N = true)
      by (apply includes_spec; now exists pre, r).
    congruence.
  - destruct (json_fence suf) as [x|] eqn:E; [|reflexivity].
    destruct (json_fence_prefix _ _ E) as (c & r & ->). exfalso.
    assert (includes (pre ++ [96; 96; 96]%N ++ c :: r) [96; 96; 96]%N
            = true)
      by (apply includes_spec; now exists pre, (c :: r)).
    congruence.
Qed.

Lemma strip_fences_fence_free (text : jsstring) :
  includes (strip_fences text) [96; 96; 96]%N = false.
Proof.
  unfold strip_fences.
  set (t1 := remove_all json_fence (List.length text) text).
  destruct (trim_infix (remove_all fence (List.length t1) t1))
    as (p & q & H).
  apply (includes_false_infix _ p q). rewrite <- H.
  apply (remove_fences_spec (List.length t1) t1). lia.
Qed.

Lemma strip_fences_fixed (u : jsstring) :
  includes u [96; 96; 96]%N = false -> strip_fences u = trim u.
Proof.
  intros Hu. unfold strip_fences.
  rewrite (remove_all_none json_fence) by
    (intros pre suf H; apply (no_fence_no_match u Hu pre suf H)).
  rewrite (remove_all_none fence) by
    (intros pre suf H; apply (no_fence_no_match u Hu pre suf H)).
  reflexivity.
Qed.


(** ** A text with one fence *)

Lemma fence_needs_backtick (c : char16) (r x : jsstring) :
  fence (c :: r) = Some x -> c = 96%N.
Proof.
  intros H. destruct (fence_prefix _ _ H) as (r' & E).
  now injection E.
Qed.

Lemma json_fence_needs_backtick (c : char16) (r x : jsstring) :
  json_fence (c :: r) = Some x -> c = 96%N.
Proof.
  intros H. destruct (json_fence_prefix _ _ H) as (d & r' & E).
  now injection E.
Qed.

Section Backticks.

Variable matcher : jsstring -> option jsstring.
Hypothesis needs_backtick :
  forall c r x, matcher (c :: r) = Some x -> c = 96%N.

(** A text without backticks is left as it is. *)
Lemma remove_all_plain (fuel : nat) (s : jsstring) :
  ~ In 96%N s -> remove_all matcher fuel s = s.
Proof.
  revert s. induction fuel as [|f IH]; intros s Hs; [reflexivity|].
  destruct s as [|c r]; [reflexivity|]. rewrite remove_all_step.
  destruct (matcher (c :: r)) as [x|] eqn:E.
  - exfalso. apply Hs. left. exact (needs_backtick _ _ _ E).
  - f_equal. apply IH. intros H. apply Hs. now right.
Qed.

(** The scan passes over a head without backticks. *)
Lemma remove_all_skip (a : jsstring) (fuel : nat) (x : jsstring) :
  ~ In 96%N a ->
  remove_all matcher (List.length a + fuel) (a ++ x)
  = a ++ remove_all matcher fuel x.
Proof.
  induction a as [|c a IH]; intros Ha; [reflexivity|].
  cbn [List.length app Nat.add]. rewrite remove_all_step.
  destruct (matcher (c :: a ++ x)) as [y|] eqn:E.
  - exfalso. apply Ha. left. exact (needs_backtick _ _ _ E).
  - f_equal. apply IH. intros H. apply Ha. now right.
Qed.

End Backticks.

Lemma no_backtick_spec (s : jsstring) :
  no_backtick s = true -> ~ In 96%N s.
Proof.
  unfold no_backtick. rewrite forallb_forall. intros H Hin.
  specialize (H _ Hin). now rewrite N.eqb_refl in H.
Qed.

Lemma spaces_are_no_backticks (ws : jsstring) :
  forallb is_space ws = true -> ~ In 96%N ws.
Proof.
  rewrite forallb_forall. intros H Hin.
  specialize (H _ Hin). discriminate H.
Qed.

Lemma skip_spaces_all (ws b : jsstring) :
  forallb is_space ws = true -> skip_spaces b = b ->
  skip_spaces (ws ++ b) = b.
Proof.
  intros Hws Hb. induction ws as [|c ws IH]; [exact Hb|].
  cbn [forallb] in Hws. apply andb_true_iff in Hws as [Hc Hws].
  cbn [app skip_spaces]. rewrite Hc. now apply IH.
Qed.

Lemma skip_spaces_app_fixed (a r : jsstring) :
  starts_with_space a = false -> skip_spaces r = r ->
  skip_spaces (a ++ r) = a ++ r.
Proof.
  destruct a as [|c a]; intros Ha Hr; [exact Hr|].
  cbn [starts_with_space] in Ha. cbn [app skip_spaces]. now rewrite Ha.
Qed.

(** The parts of [fenced_ok]. *)
Lemma fenced_ok_parts (p : fenced) :
  fenced_ok p = true ->
  match fence_tag p with
  | [] => json_tag (firstn 4 (fence_space p ++ fenced_text p)) = false
  | _ :: _ => json_tag (fence_tag p) = true
  end
  /\ forallb is_space (fence_space p) = true
  /\ ~ In 96%N (fenced_text p)
  /\ starts_with_space (fenced_text p) = false.
Proof.
  unfold fenced_ok. rewrite !andb_true_iff, !negb_true_iff.
  intros [[[H1 H2] H3] H4]. repeat split; auto.
  - destruct (fence_tag p); [now apply negb_true_iff|exact H1].
  - now apply no_backtick_spec.
Qed.

(** What follows a piece starts with a fence or is empty. *)
Lemma units_head (pieces : list fenced) :
  concat (map fenced_units pieces) = []
  \/ exists z, concat (map fenced_units pieces) = (96 :: 96 :: 96 :: z)%N.
Proof.
  destruct pieces as [|p pieces]; [now left|]. right.
  cbn [map concat]. unfold fenced_units at 1. cbn [app]. eauto.
Qed.

Lemma units_head_fixed (pieces : list fenced) :
  skip_spaces (concat (map fenced_units pieces))
  = concat (map fenced_units pieces).
Proof.
  destruct (units_head pieces) as [-> | (z & ->)]; reflexivity.
Qed.

Lemma after_head_fixed (pieces : list fenced) :
  forallb fenced_ok pieces = true ->
  skip_spaces (concat (map after_json_fence pieces))
  = concat (map after_json_fence pieces).
Proof.
  induction pieces as [|p pieces IH]; intros Hok; [reflexivity|].
  cbn [forallb] in Hok. apply andb_true_iff in Hok as [Hp Hok].
  destruct (fenced_ok_parts p Hp) as (_ & _ & _ & Hs).
  cbn [map concat]. unfold after_json_fence at 1 3.
  destruct (fence_tag p); [reflexivity|].
  apply skip_spaces_app_fixed; auto.
Qed.

(** No tag after the backticks when the text that follows is too short for
    one or is another fence. *)
Lemma json_tag_before_fence (x r : jsstring) :
  json_tag (firstn 4 x) = false ->
  r = [] \/ (exists z, r = (96 :: 96 :: 96 :: z)%N) ->
  json_tag (firstn 4 (x ++ r)) = false.
Proof.
  intros Hx Hr.
  destruct x as [|a [|b [|c [|d x]]]]; [| | | |exact Hx];
    destruct Hr as [-> | (z & ->)]; try reflexivity;
    cbn [app firstn json_tag].
  - destruct z; reflexivity.
  - destruct (is_letter 106 a); reflexivity.
  - destruct (is_letter 106 a), (is_letter 115 b); reflexivity.
  - destruct (is_letter 106 a), (is_letter 115 b), (is_letter 111 c);
      reflexivity.
Qed.

Lemma json_fence_untagged (y : jsstring) :
  json_tag (firstn 4 y) = false ->
  json_fence (96 :: 96 :: 96 :: y)%N = None.
Proof.
  intros Ht. cbn [json_fence].
  destruct y as [|j [|s [|o [|n r]]]]; try reflexivity.
  cbn [firstn json_tag] in Ht. cbn [N.eqb Pos.eqb andb].
  now rewrite Ht.
Qed.

(** The first expression does not match inside the backticks of a
    fence. *)
Lemma json_fence_inside (y : jsstring) :
  (forall c r, y = c :: r ->
               c <> 96%N \/ exists z, y = (96 :: 96 :: 96 :: z)%N) ->
  json_fence (96 :: 96 :: y)%N = None /\ json_fence (96 :: y)%N = None.
Proof.
  intros H. destruct y as [|c r]; [split; reflexivity|].
  destruct (H c r eq_refl) as [Hc | (z & E)].
  - apply N.eqb_neq in Hc. split.
    + destruct r as [|? [|? [|? [|? ?]]]]; try reflexivity.
      cbn [json_fence]. rewrite Hc. reflexivity.
    + destruct r as [|? [|? [|? [|? [|? ?]]]]]; try reflexivity.
      cbn [json_fence]. rewrite Hc. reflexivity.
  - rewrite E. split.
    + destruct z as [|? [|? ?]]; reflexivity.
    + destruct z as [|? [|? [|? ?]]]; reflexivity.
Qed.

(** The first replacement takes the tagged fences and leaves the others. *)
Lemma first_replacement (pieces : list fenced) :
  forallb fenced_ok pieces = true ->
  forall fuel,
    (List.length (concat (map fenced_units pieces)) <= fuel)%nat ->
    remove_all json_fence fuel (concat (map fenced_units pieces))
    = concat (map after_json_fence pieces).
Proof.
  induction pieces as [|p pieces IH]; intros Hok fuel Hfuel;
    [apply remove_all_nil|].
  cbn [forallb] in Hok. apply andb_true_iff in Hok as [Hp Hok].
  destruct (fenced_ok_parts p Hp) as (Ht & Hws & Ha & Hs).
  specialize (IH Hok). pose proof (units_head pieces) as Hr.
  pose proof (units_head_fixed pieces) as Hr0.
  revert Hfuel. cbn [map concat].
  unfold fenced_units at 1 3, after_json_fence at 1.
  destruct p as [t ws a]. cbn [fence_tag fence_space fenced_text] in *.
  set (R := concat (map fenced_units pieces)) in *.
  destruct t as [|j t].
  - cbn [app]. rewrite <- !app_assoc. cbn [List.length].
    rewrite app_assoc, length_app. intros Hfuel.
    destruct fuel as [|[|[|f]]]; try lia.
    assert (forall c r, (ws ++ a) ++ R = c :: r ->
              c <> 96%N \/ exists z, (ws ++ a) ++ R = (96 :: 96 :: 96 :: z)%N)
      as Hy.
    { intros c r E. destruct (N.eq_dec c 96) as [->|Hc]; [|now left].
      right. destruct ws as [|w ws].
      - destruct a as [|x a].
        + cbn [app] in *.
          destruct Hr as [Hr | (z & Hr)]; [congruence|eauto].
        + exfalso. injection E as -> _. apply Ha. now left.
      - exfalso. injection E as -> _.
        apply (spaces_are_no_backticks _ Hws). now left. }
    destruct (json_fence_inside _ Hy) as (E2 & E3).
    pose proof (json_fence_untagged _
                  (json_tag_before_fence (ws ++ a) R Ht Hr)) as E1.
    rewrite !remove_all_step.
    repeat match goal with
           | |- context [json_fence ?y] =>
               replace (json_fence y) with (@None jsstring)
                 by (symmetry; first [exact E1 | exact E2 | exact E3])
           end.
    do 3 f_equal.
    replace f
      with (List.length (ws ++ a) + (f - List.length (ws ++ a)))%nat by lia.
    rewrite (remove_all_skip json_fence json_fence_needs_backtick).
    + rewrite IH by lia. now rewrite <- app_assoc.
    + intros H. apply in_app_or in H.
      destruct H as [H|H]; [now apply (spaces_are_no_backticks ws Hws)|auto].
  - destruct t as [|s [|o [|n [|x t]]]]; try discriminate Ht.
    cbn [json_tag] in Ht. rewrite <- !app_assoc. cbn [app List.length].
    rewrite !length_app. intros Hfuel.
    destruct fuel as [|f]; [lia|].
    rewrite remove_all_step. cbn [json_fence N.eqb Pos.eqb andb].
    rewrite Ht.
    rewrite (skip_spaces_all ws (a ++ R) Hws
               (skip_spaces_app_fixed a R Hs Hr0)).
    replace f with (List.length a + (f - List.length a))%nat by lia.
    rewrite (remove_all_skip json_fence json_fence_needs_backtick)
      by exact Ha.
    now rewrite IH by lia.
Qed.

(** The second replacement takes the fences that are left. *)
Lemma second_replacement (pieces : list fenced) :
  forallb fenced_ok pieces = true ->
  forall fuel,
    (List.length (concat (map after_json_fence pieces)) <= fuel)%nat ->
    remove_all fence fuel (concat (map after_json_fence pieces))
    = concat (map fenced_text pieces).
Proof.
  induction pieces as [|p pieces IH]; intros Hok fuel Hfuel;
    [apply remove_all_nil|].
  cbn [forallb] in Hok. apply andb_true_iff in Hok as [Hp Hok].
  destruct (fenced_ok_parts p Hp) as (_ & Hws & Ha & Hs).
  specialize (IH Hok). pose proof (after_head_fixed pieces Hok) as Hr0.
  revert Hfuel. cbn [map concat]. unfold after_json_fence at 1 3.
  set (R := concat (map after_json_fence pieces)) in *.
  destruct (fence_tag p).
  - cbn [app]. rewrite <- !app_assoc. cbn [List.length].
    rewrite !length_app. intros Hfuel.
    destruct fuel as [|f]; [lia|].
    rewrite remove_all_step, fence_at_backticks.
    rewrite (skip_spaces_all (fence_space p) (fenced_text p ++ R) Hws
               (skip_spaces_app_fixed _ R Hs Hr0)).
    replace f
      with (List.length (fenced_text p)
            + (f - List.length (fenced_text p)))%nat by lia.
    rewrite (remove_all_skip fence fence_needs_backtick) by exact Ha.
    now rewrite IH by lia.
  - rewrite length_app. intros Hfuel.
    replace fuel
      with (List.length (fenced_text p)
            + (fuel - List.length (fenced_text p)))%nat by lia.
    rewrite (remove_all_skip fence fence_needs_backtick) by exact Ha.
    now rewrite IH by lia.
Qed.

(** A text cut into pieces by its fences: the fences go, the pieces stay,
    and the whole is trimmed. *)
Lemma strip_fenced_pieces (a : jsstring) (pieces : list fenced) :
  no_backtick a = true -> forallb fenced_ok pieces = true ->
  strip_fences (a ++ concat (map fenced_units pieces))
  = trim (a ++ concat (map fenced_text pieces)).
Proof.
  intros Ha Hok. apply no_backtick_spec in Ha.
  unfold strip_fences. cbv zeta. rewrite length_app.
  rewrite (remove_all_skip json_fence json_fence_needs_backtick)
    by exact Ha.
  rewrite (first_replacement pieces Hok) by lia.
  rewrite length_app.
  rewrite (remove_all_skip fence fence_needs_backtick) by exact Ha.
  now rewrite (second_replacement pieces Hok) by lia.
Qed.

(* ================================================================== *)
(** * C7: the normalizer strips, then parses *)
(* ================================================================== *)

(** C7 (amended).  [parseJSON] first removes the fences everywhere in the
    text and trims it, whether or not the raw text is valid JSON: the
    stripped text holds no three backticks in a row and is its own trim;
    it is the trimmed text when the text has no fence; and for a text cut
    by fences (three backticks, the tag json in either case or nothing,
    any white space) into pieces without backticks, it is the trimmed
    concatenation of the pieces.  [parseJSON] then returns the strict
    parse of the stripped text; when that fails, the strict parse of the
    span from the first opening brace to the last closing brace of the
    stripped text; and the empty object when there is no such span or it
    does not parse. *)
Theorem parseJSON_strips_then_parses (text : jsstring) :
  let t := strip_fences text in
  fence_free t
  /\ trim t = t
  /\ (fence_free text -> t = trim text)
  /\ (forall a pieces,
         no_backtick a = true -> forallb fenced_ok pieces = true ->
         text = a ++ concat (map fenced_units pieces) ->
         t = trim (a ++ concat (map fenced_text pieces)))
  /\ (forall v, JSON_parse t = Some v -> parseJSON text = v)
  /\ (forall m v,
         JSON_parse t = None -> match_braces t = Some m ->
         JSON_parse m = Some v ->
         parseJSON text = v
         /\ exists pre body post,
              t = pre ++ m ++ post /\ m = 123%N :: body ++ [125%N]
              /\ ~ In 123%N pre /\ ~ In 125%N post)
  /\ (JSON_parse t = None ->
      match_braces t = None
      \/ (exists m, match_braces t = Some m /\ JSON_parse m = None) ->
      parseJSON text = JObj []).
Proof.
  intros t. split; [apply strip_fences_fence_free|].
  split; [unfold t, strip_fences; cbv zeta; apply trim_idempotent|].
  split; [apply strip_fences_fixed|].
  split; [intros a pieces Ha Hok ->; now apply strip_fenced_pieces|].
  unfold parseJSON. fold t. repeat split.
  - intros v ->. reflexivity.
  - rewrite H, H0, H1. reflexivity.
  - now apply match_braces_span.
  - intros -> [-> | (m & -> & ->)]; reflexivity.
Qed.

(** The parts of C7 (amended) that have a hypothesis: a text without
    fence, a fenced object cut into its pieces, the same object parsed, an
    object with prose around it (the span between the braces is what is
    parsed), and prose alone. *)
Lemma parseJSON_strips_then_parses_witness :
  strip_fences (str "  {} ") = str "{}"
  /\ strip_fences (wrap_fences reply_only_ai) = reply_only_ai
  /\ parseJSON (wrap_fences reply_only_ai)
     = JObj [(str "aiProbability", JNum (of_Z 70))]
  /\ parseJSON (str "Here is the result: " ++ reply_only_ai
                  ++ str " Hope it helps.")
     = JObj [(str "aiProbability", JNum (of_Z 70))]
  /\ parseJSON (str "I cannot analyze this text.") = JObj [].
Proof.
  split; [|split; [|split; [|split]]].
  - apply (proj1 (proj2 (proj2
             (parseJSON_strips_then_parses (str "  {} "))))).
    vm_compute. reflexivity.
  - apply (proj1 (proj2 (proj2 (proj2
             (parseJSON_strips_then_parses (wrap_fences reply_only_ai)))))
             []
             [ {| fence_tag := str "json"; fence_space := [10%N];
                  fenced_text := reply_only_ai ++ [10%N] |};
               {| fence_tag := []; fence_space := [];
                  fenced_text := [] |} ]).
    + vm_compute. reflexivity.
    + vm_compute. reflexivity.
    + vm_compute. reflexivity.
  - apply (proj1 (proj2 (proj2 (proj2 (proj2
             (parseJSON_strips_then_parses
                (wrap_fences reply_only_ai))))))).
    vm_compute. reflexivity.
  - apply (proj1 (proj2 (proj2 (proj2 (proj2 (proj2
             (parseJSON_strips_then_parses
                (str "Here is the result: " ++ reply_only_ai
                   ++ str " Hope it helps."))))))) reply_only_ai
             (JObj [(str "aiProbability", JNum (of_Z 70))])).
    + vm_compute. reflexivity.
    + vm_compute. reflexivity.
    + vm_compute. reflexivity.
  - apply (proj2 (proj2 (proj2 (proj2 (proj2 (proj2
             (parseJSON_strips_then_parses
                (str "I cannot analyze this text.")))))))).
    + vm_compute. reflexivity.
    + left. vm_compute. reflexivity.
Defined.

(** C7 as stated fails: the text [{"a":"```"}] is valid JSON, so the order
    of the specification returns its strict parse, while [parseJSON] strips
    the backticks inside the string first and returns another object. *)
Lemma strict_parse_is_not_first_counterexample :
  parseJSON_as_specified (stringify backticks_object) = backticks_object
  /\ parseJSON (stringify backticks_object) = JObj [(str "a", JStr [])]
  /\ parseJSON (stringify backticks_object)
     <> parseJSON_as_specified (stringify backticks_object).
Proof.
  assert (parseJSON_as_specified (stringify backticks_object)
          = backticks_object) as H1 by (vm_compute; reflexivity).
  assert (parseJSON (stringify backticks_object)
          = JObj [(str "a", JStr [])]) as H2 by (vm_compute; reflexivity).
  rewrite H1, H2.
  split; [reflexivity|]. split; [reflexivity|].
  vm_compute. discriminate.
Qed.

(* ================================================================== *)
(** * Serializations pass the binding unchanged *)
(* ================================================================== *)

Lemma passes_nil : passes_binding [].
Proof. intros b. reflexivity. Qed.

Lemma passes_app (a b : jsstring) :
  passes_binding a -> passes_binding b -> passes_binding (a ++ b).
Proof.
  intros Ha Hb x. now rewrite <- app_assoc, Ha, Hb, app_assoc.
Qed.

Lemma passes_unit (c : char16) :
  is_high_surrogate c = false -> is_low_surrogate c = false ->
  passes_binding [c].
Proof.
  intros H1 H2 b. cbn [app sqlite_text]. now rewrite H1, H2.
Qed.

Lemma passes_pair (c d : char16) :
  is_high_surrogate c = true -> is_low_surrogate d = true ->
  passes_binding [c; d].
Proof.
  intros H1 H2 b. cbn [app sqlite_text]. now rewrite H1, H2.
Qed.

Lemma passes_below (s : jsstring) :
  below_surrogates s -> passes_binding s.
Proof.
  induction 1 as [|c s Hc _ IH]; [apply passes_nil|].
  change (c :: s) with ([c] ++ s). apply passes_app; [|exact IH].
  apply passes_unit.
  - unfold is_high_surrogate.
    now rewrite (proj2 (N.leb_gt 55296 c)) by exact Hc.
  - unfold is_low_surrogate.
    now rewrite (proj2 (N.leb_gt 56320 c)) by lia.
Qed.

Lemma passes_fixed (s : jsstring) :
  passes_binding s -> sqlite_text s = s.
Proof.
  intros H. specialize (H []). now rewrite !app_nil_r in H.
Qed.

Lemma below_app (a b : jsstring) :
  below_surrogates a -> below_surrogates b -> below_surrogates (a ++ b).
Proof. intros Ha Hb. apply Forall_app. now split. Qed.

Lemma below_str (s : string) : below_surrogates (str s).
Proof.
  unfold str. induction s as [|a s IH]; cbn [list_ascii_of_string map];
    constructor; [|exact IH].
  pose proof (N_ascii_bounded a). lia.
Qed.

Lemma below_firstn (n : nat) (s : jsstring) :
  below_surrogates s -> below_surrogates (firstn n s).
Proof.
  intros H. rewrite <- (firstn_skipn n s) in H.
  now apply Forall_app in H.
Qed.

Lemma below_skipn (n : nat) (s : jsstring) :
  below_surrogates s -> below_surrogates (skipn n s).
Proof.
  intros H. rewrite <- (firstn_skipn n s) in H.
  now apply Forall_app in H.
Qed.

Lemma below_rev (s : jsstring) :
  below_surrogates s -> below_surrogates (rev s).
Proof. apply Forall_rev. Qed.

Lemma below_zeros (n : Z) : below_surrogates (zeros n).
Proof.
  unfold zeros. induction (Z.to_nat n); cbn [repeat]; constructor;
    [lia | assumption].
Qed.

Lemma below_strip_zeros (r : jsstring) :
  below_surrogates r -> below_surrogates (strip_zeros_rev r).
Proof.
  induction 1 as [|c r Hc Hr IH]; cbn [strip_zeros_rev]; [constructor|].
  destruct (N.eqb c 48); [exact IH | now constructor].
Qed.

Lemma below_digits_fuel (fuel : nat) :
  forall z acc,
    below_surrogates acc -> below_surrogates (digits_fuel fuel z acc).
Proof.
  induction fuel as [|f IH]; intros z acc Hacc; cbn [digits_fuel];
    [exact Hacc|]. cbv zeta.
  assert (below_surrogates ((48 + Z.to_N (z mod 10))%N :: acc)) as H.
  { constructor; [|exact Hacc].
    pose proof (Z.mod_pos_bound z 10). lia. }
  destruct (z <? 10); [exact H | now apply IH].
Qed.

Lemma below_decimal_digits (z : Z) : below_surrogates (decimal_digits z).
Proof. apply below_digits_fuel. constructor. Qed.

Lemma below_shortest_from (fuel : nat) :
  forall k v n0, below_surrogates (fst (shortest_from fuel k v n0)).
Proof.
  assert (forall s y,
            below_surrogates
              (fst (rev (strip_zeros_rev (rev (decimal_digits s))), y : Z)))
    as Hres.
  { intros s y. cbn [fst].
    apply below_rev, below_strip_zeros, below_rev, below_decimal_digits. }
  induction fuel as [|f IH]; intros k v n0; cbn [shortest_from]; cbv zeta.
  - apply Hres.
  - repeat match goal with
           | |- context [if ?b then _ else _] => destruct b
           end; first [apply Hres | apply IH].
Qed.

Lemma below_exponent_part (n : Z) : below_surrogates (exponent_part n).
Proof.
  unfold exponent_part. apply below_app; [apply below_str|].
  apply below_app; [|apply below_decimal_digits].
  destruct (0 <=? n - 1); apply below_str.
Qed.

Lemma below_positive_to_string (v : Q) :
  below_surrogates (positive_to_string v).
Proof.
  unfold positive_to_string.
  pose proof (below_shortest_from 17 1 v
                (floor_log 10 (Qnum v) (Zpos (Qden v)) + 1)) as H.
  fold (shortest_digits v) in H.
  destruct (shortest_digits v) as (ds, n). cbn [fst] in H.
  repeat match goal with
         | |- context [if ?b then _ else _] => destruct b
         end;
    repeat first [apply below_exponent_part | apply below_app];
    auto using below_str, below_zeros, below_firstn, below_skipn,
      below_exponent_part.
Qed.

Lemma below_number_to_string (x : number) :
  below_surrogates (number_to_string x).
Proof.
  destruct x as [q| | |]; cbn [number_to_string]; try apply below_str.
  destruct (Qnum q); [apply below_str | apply below_positive_to_string |].
  apply below_app; [apply below_str | apply below_positive_to_string].
Qed.

Lemma below_unicode_escape (c : char16) :
  below_surrogates (unicode_escape c).
Proof.
  assert (forall v, (v < 16)%N -> (hex_digit v < 55296)%N) as Hh.
  { intros v Hv. unfold hex_digit. destruct (v <? 10)%N; lia. }
  unfold unicode_escape. apply below_app; [apply below_str|].
  repeat constructor; apply Hh; apply N.mod_upper_bound; discriminate.
Qed.

Lemma passes_escape_unit (c : char16) :
  is_high_surrogate c = false -> is_low_surrogate c = false ->
  passes_binding (escape_unit c).
Proof.
  intros H1 H2. unfold escape_unit.
  repeat match goal with
         | |- context [if ?b then _ else _] => destruct b
         end;
    first [ now apply passes_unit
          | apply passes_below, below_unicode_escape
          | intros b; reflexivity ].
Qed.

Lemma passes_quote_units (n : nat) :
  forall s, (List.length s <= n)%nat -> passes_binding (quote_units s).
Proof.
  induction n as [|n IH]; intros [|c r] Hlen; cbn [List.length] in Hlen;
    try lia; cbn [quote_units]; try apply passes_nil.
  assert (passes_binding (quote_units r)) as Hr by (apply IH; lia).
  destruct (is_high_surrogate c) eqn:Eh.
  - destruct r as [|d r'];
      [apply passes_below, below_unicode_escape|].
    destruct (is_low_surrogate d) eqn:El.
    + change (c :: d :: quote_units r') with ([c; d] ++ quote_units r').
      apply passes_app; [now apply passes_pair|].
      apply IH. cbn [List.length] in Hlen. lia.
    + apply passes_app; [apply passes_below, below_unicode_escape|].
      exact Hr.
  - destruct (is_low_surrogate c) eqn:El.
    + apply passes_app; [apply passes_below, below_unicode_escape|].
      exact Hr.
    + apply passes_app; [now apply passes_escape_unit | exact Hr].
Qed.

Lemma passes_quote (s : jsstring) : passes_binding (quote s).
Proof.
  unfold quote.
  apply passes_app; [intros b; reflexivity|].
  apply passes_app; [|intros b; reflexivity].
  apply (passes_quote_units (List.length s)). lia.
Qed.

Lemma passes_join_with (sep : jsstring) (l : list jsstring) :
  passes_binding sep -> Forall passes_binding l ->
  passes_binding (join_with sep l).
Proof.
  intros Hsep. induction 1 as [|x l Hx Hl IH]; [apply passes_nil|].
  cbn [join_with]. destruct l as [|y l]; [exact Hx|].
  apply passes_app; [exact Hx|]. apply passes_app; [exact Hsep|exact IH].
Qed.

(** [JSON.stringify] writes a surrogate that stands alone as an escape, so
    its text is stored as it is. *)
Lemma passes_stringify : forall v, passes_binding (stringify v).
Proof.
  fix IH 1.
  intros [| [|] | [q| | |] | s | items | props]; cbn [stringify];
    try (intros b; reflexivity).
  - apply passes_below, (below_number_to_string (Fin q)).
  - apply passes_quote.
  - apply passes_app; [intros b; reflexivity|].
    apply passes_app; [|intros b; reflexivity].
    apply passes_join_with; [intros b; reflexivity|].
    induction items as [|x items IHi]; cbn [map]; constructor;
      [apply IH | exact IHi].
  - apply passes_app; [intros b; reflexivity|].
    apply passes_app; [|intros b; reflexivity].
    apply passes_join_with; [intros b; reflexivity|].
    induction props as [|[k x] props IHp]; cbn [map fst snd]; constructor;
      [|exact IHp].
    apply passes_app; [apply passes_quote|].
    apply passes_app; [intros b; reflexivity | apply IH].
Qed.

Lemma sqlite_text_stringify (v : json) :
  sqlite_text (stringify v) = stringify v.
Proof. apply passes_fixed, passes_stringify. Qed.

Lemma sqlite_text_str (s : string) : sqlite_text (str s) = str s.
Proof. apply passes_fixed, passes_below, below_str. Qed.

(** ** Texts that are not serializations *)

Lemma high_is_not_low (c : char16) :
  is_high_surrogate c = true -> is_low_surrogate c = false.
Proof.
  unfold is_high_surrogate, is_low_surrogate.
  rewrite andb_true_iff, !N.leb_le. intros [_ H].
  now rewrite (proj2 (N.leb_gt 56320 c)) by lia.
Qed.

(** The binding changes units, not their number. *)
Lemma sqlite_text_length_upto (n : nat) :
  forall s, (List.length s <= n)%nat ->
            List.length (sqlite_text s) = List.length s.
Proof.
  induction n as [|n IH]; intros [|c r] H; cbn [List.length] in H;
    try lia; try reflexivity.
  cbn [sqlite_text]. destruct (is_high_surrogate c).
  - destruct r as [|d r']; [reflexivity|]. cbn [List.length] in H.
    destruct (is_low_surrogate d); cbn [List.length].
    + now rewrite IH by lia.
    + now rewrite (IH (d :: r')) by (cbn [List.length]; lia).
  - destruct (is_low_surrogate c); cbn [List.length];
      now rewrite IH by lia.
Qed.

Lemma sqlite_text_length (s : jsstring) :
  List.length (sqlite_text s) = List.length s.
Proof. apply (sqlite_text_length_upto (List.length s)). lia. Qed.

(** A well-formed text is stored as it is. *)
Lemma sqlite_text_well_formed_upto (n : nat) :
  forall s, (List.length s <= n)%nat -> isWellFormed s = true ->
            sqlite_text s = s.
Proof.
  induction n as [|n IH]; intros [|c r] H Hw; cbn [List.length] in H;
    try lia; try reflexivity.
  cbn [sqlite_text isWellFormed] in *. destruct (is_high_surrogate c).
  - destruct r as [|d r']; [discriminate Hw|]. cbn [List.length] in H.
    apply andb_true_iff in Hw as [Hd Hw]. rewrite Hd.
    now rewrite IH by (auto; lia).
  - apply andb_true_iff in Hw as [Hc Hw].
    apply negb_true_iff in Hc. rewrite Hc.
    now rewrite IH by (auto; lia).
Qed.

Lemma sqlite_text_well_formed (s : jsstring) :
  isWellFormed s = true -> sqlite_text s = s.
Proof. apply (sqlite_text_well_formed_upto (List.length s)). lia. Qed.

(** A high surrogate at the end of a text is stored as U+FFFD. *)
Lemma sqlite_text_lone_high_upto (n : nat) :
  forall s c, (List.length s <= n)%nat -> is_high_surrogate c = true ->
              sqlite_text (s ++ [c]) = sqlite_text s ++ [65533%N].
Proof.
  induction n as [|n IH]; intros [|x r] c H Hc; cbn [List.length] in H;
    try lia; pose proof (high_is_not_low c Hc) as Hl;
    try (cbn [app sqlite_text]; now rewrite Hc).
  cbn [app sqlite_text]. destruct (is_high_surrogate x).
  - destruct r as [|d r'].
    + cbn [app sqlite_text]. now rewrite Hl, Hc.
    + cbn [app List.length] in *. destruct (is_low_surrogate d).
      * now rewrite IH by (auto; lia).
      * change (d :: r' ++ [c]) with ((d :: r') ++ [c]).
        now rewrite IH by (cbn [List.length]; auto; lia).
  - destruct (is_low_surrogate x); now rewrite IH by (auto; lia).
Qed.

Lemma sqlite_text_lone_high (s : jsstring) (c : char16) :
  is_high_surrogate c = true ->
  sqlite_text (s ++ [c]) = sqlite_text s ++ [65533%N].
Proof. apply (sqlite_text_lone_high_upto (List.length s)). lia. Qed.

(* ================================================================== *)
(** * What a handler writes and what it answers *)
(* ================================================================== *)

(** A handler leaves the table as it is, or it adds the row that holds the
    serialization of the value it answers with status 200. *)
Lemma handler_outcome (v : server) (rt : route) (h : handler) (w : runtime)
    (ai : reply) (req : request) (db : database) :
  serve v rt = Some h ->
  fst (h w ai req db) = db
  \/ exists email kind summary val,
       h w ai req db
       = (insert w db email kind summary (stringify val), res_json val).
Proof.
  intros H.
  destruct rt as [ep| | | |], v; try destruct ep; cbn [serve analyze] in H;
    try discriminate H; injection H as <-; cbn [history];
    unfold_handlers; branches;
    first [ left; reflexivity
          | right; do 4 eexists; reflexivity ].
Qed.

Lemma singleton_inj (A : Type) (a b : A) : [a] = [b] -> a = b.
Proof. intros H. now injection H. Qed.

(** The row a call adds holds the value the call answers with. *)
Lemma added_row_holds_answer (v : server) (rt : route) (h : handler)
    (w : runtime) (ai : reply) (req : request) (db : database) (r : row) :
  serve v rt = Some h ->
  fst (h w ai req db) = db ++ [r] ->
  exists val,
    snd (h w ai req db) = res_json val
    /\ result r = stringify val
    /\ id r = next_id db
    /\ created_at r = current_timestamp w.
Proof.
  intros Hs Hr.
  destruct (handler_outcome v rt h w ai req db Hs)
    as [Hsame | (e & k & c & val & Hout)].
  - rewrite Hsame in Hr. rewrite <- (app_nil_r db) in Hr at 1.
    apply app_inv_head in Hr. discriminate.
  - rewrite Hout in *. cbn [fst snd] in *. unfold insert in Hr.
    apply app_inv_head, singleton_inj in Hr. subst r.
    exists val. cbn [result id created_at].
    rewrite sqlite_text_stringify. auto.
Qed.

(** X1.  Whenever a call of any route of any server adds a row, the call was
    answered with status 200, the column [result] of the row is the
    serialization of exactly the value sent to the client, and the row
    carries the next key and the time of the call.  So an answer with
    status 400 or 500 never leaves a row. *)
Theorem recorded_row_holds_the_answer (v : server) (rt : route) (h : handler)
    (w : runtime) (ai : reply) (req : request) (db : database) (r : row) :
  serve v rt = Some h ->
  fst (h w ai req db) = db ++ [r] ->
  status (snd (h w ai req db)) = 200
  /\ exists val,
       body (snd (h w ai req db)) = Value val
       /\ result r = stringify val
       /\ id r = next_id db
       /\ created_at r = current_timestamp w.
Proof.
  intros Hs Hr.
  destruct (added_row_holds_answer v rt h w ai req db r Hs Hr)
    as (val & -> & Hrest).
  split; [reflexivity|]. exists val. split; [reflexivity | exact Hrest].
Qed.

(** X1 on the text endpoint of the serverless handler, for a reply that is a
    JSON object. *)
Lemma recorded_row_holds_the_answer_witness :
  status (snd (analyze ServerlessHandler Text (sample_runtime 30)
                 (replied reply_both)
                 (text_request (str "third text") None) sample_history))
  = 200
  /\ exists val,
    body (snd (analyze ServerlessHandler Text (sample_runtime 30)
                 (replied reply_both)
                 (text_request (str "third text") None) sample_history))
    = Value val
    /\ result {| id := 4; user_email := anonymous; type := str "text";
                 content := str "third text";
                 result := stringify
                   (JObj [(str "aiProbability", JNum (of_Z 80));
                          (str "humanProbability", JNum (of_Z 20))]);
                 created_at := 30 |} = stringify val
    /\ 4 = next_id sample_history
    /\ 30 = current_timestamp (sample_runtime 30).
Proof.
  apply (recorded_row_holds_the_answer ServerlessHandler (Analyze Text)
           (analyze ServerlessHandler Text) (sample_runtime 30)
           (replied reply_both) (text_request (str "third text") None)
           sample_history
           {| id := 4; user_email := anonymous; type := str "text";
              content := str "third text";
              result := stringify
                (JObj [(str "aiProbability", JNum (of_Z 80));
                       (str "humanProbability", JNum (of_Z 20))]);
              created_at := 30 |}).
  - reflexivity.
  - vm_compute. reflexivity.
Defined.

Lemma next_id_above (db : database) :
  Forall (fun r => id r < next_id db) db.
Proof.
  unfold next_id. induction db as [|x db IH]; constructor;
    cbn [fold_right].
  - lia.
  - eapply Forall_impl; [|exact IH]. intros a Ha. cbn beta in Ha. lia.
Qed.

Lemma next_id_fresh (db : database) : ~ In (next_id db) (map id db).
Proof.
  intros H. apply in_map_iff in H. destruct H as (r & Hid & Hin).
  pose proof (next_id_above db) as Hall.
  rewrite Forall_forall in Hall. specialize (Hall r Hin). lia.
Qed.

(** X2.  The keys of the table stay distinct and positive under every route
    of every server: a row that is added gets a key above all the keys in
    the table. *)
Theorem keys_stay_distinct (v : server) (rt : route) (h : handler)
    (w : runtime) (ai : reply) (req : request) (db : database) :
  serve v rt = Some h ->
  NoDup (map id db) -> Forall (fun r => 0 < id r) db ->
  NoDup (map id (fst (h w ai req db)))
  /\ Forall (fun r => 0 < id r) (fst (h w ai req db)).
Proof.
  intros Hs Hnd Hpos.
  destruct (handler_outcome v rt h w ai req db Hs)
    as [-> | (e & k & c & val & ->)]; [auto|].
  cbn [fst]. unfold insert. split.
  - rewrite map_app. cbn [map id].
    apply (Permutation_NoDup (l := next_id db :: map id db)).
    + apply Permutation_cons_append.
    + constructor; [apply next_id_fresh | exact Hnd].
  - apply Forall_app. split; [exact Hpos|].
    constructor; [|constructor]. cbn [id]. unfold next_id.
    assert (0 <= fold_right (fun r m => Z.max (id r) m) 0 db)
      by (clear; induction db; cbn [fold_right]; lia).
    lia.
Qed.

(** X2 on the sample table of three rows and the image endpoint of the dev
    server. *)
Lemma keys_stay_distinct_witness :
  NoDup (map id (fst (analyze DevServer Image (sample_runtime 40)
                        (replied reply_both)
                        (upload_request (str "a.png") (str "image/png"))
                        sample_history)))
  /\ Forall (fun r => 0 < id r)
       (fst (analyze DevServer Image (sample_runtime 40)
               (replied reply_both)
               (upload_request (str "a.png") (str "image/png"))
               sample_history)).
Proof.
  apply (keys_stay_distinct DevServer (Analyze Image)
           (analyze DevServer Image)).
  - reflexivity.
  - vm_compute. repeat constructor; simpl; intuition discriminate.
  - vm_compute. repeat constructor.
Defined.

(* ================================================================== *)
(** * The error paths of the analyze handlers *)
(* ================================================================== *)

(** X3.  A request that fails the guard of its endpoint is answered 400 with
    the error of the endpoint on every server; the reply of the model plays
    no part and nothing is written. *)
Theorem failed_guard_answers_400 (v : server) (ep : endpoint) (w : runtime)
    (ai : reply) (req : request) (db : database) :
  accepted v ep req = false ->
  analyze v ep w ai req db = (db, res_error 400 (guard_message ep)).
Proof.
  intros H.
  destruct v, ep; cbn [analyze accepted] in *; unfold_handlers;
    match type of H with
    | context [truthy ?x] => destruct (truthy x); [discriminate H|]
    | context [file ?r] => destruct (file r); [discriminate H|]
    end; reflexivity.
Qed.

(** X3 on a profile request that names its address in the field the
    serverless handler does not read. *)
Lemma failed_guard_answers_400_witness :
  analyze ServerlessHandler Profile (sample_runtime 0)
    (replied reply_both)
    {| text := None; userEmail := None; language := None; url := None;
       profileUrl := Some (str "https://example.org/ada");
       platform := None; message := None; prompt := None;
       body_type := None; content1 := None; content2 := None;
       file := None; email := None |} sample_history
  = (sample_history, res_error 400 (str "Profile URL is required")).
Proof.
  apply (failed_guard_answers_400 ServerlessHandler Profile).
  reflexivity.
Defined.

(** X4.  When the call to the model fails with an error the classifier does
    not take for a rate limit, every analyze handler of every server answers
    500 with the message of the error and writes nothing. *)
Theorem other_failure_answers_500 (v : server) (ep : endpoint) (w : runtime)
    (e : js_error) (req : request) (db : database) :
  accepted v ep req = true ->
  isQuotaError v e = false ->
  analyze v ep w (Failed e) req db = (db, res_error 500 (err_message e)).
Proof.
  intros Hacc Hq.
  destruct v, ep; cbn [isQuotaError] in Hq; enter_handler Hacc;
    cbn [generateContent bind]; rewrite Hq; reflexivity.
Qed.

Lemma other_failure_answers_500_witness :
  analyze DevServer Video (sample_runtime 0)
    (Failed {| err_status := Some (of_Z 503);
               err_message := str "The model is overloaded" |})
    (upload_request (str "clip.mp4") (str "video/mp4")) sample_history
  = (sample_history, res_error 500 (str "The model is overloaded")).
Proof.
  apply (other_failure_answers_500 DevServer Video).
  - reflexivity.
  - vm_compute. reflexivity.
Defined.

(** X5.  On the dev server and the serverless handler a reply that is not
    JSON is handled exactly as a failed call whose error is the SyntaxError
    of the parser: the answer is 500 with the message of the parser, or the
    demo result when that message happens to hold a marker of the
    classifier. *)
Theorem unparsable_reply_is_a_failed_call (v : server) (ep : endpoint)
    (w : runtime) (r : model_response) (req : request) (db : database) :
  v <> ProdServer ->
  accepted v ep req = true ->
  parsed_reply v r = None ->
  analyze v ep w (Replied r) req db
  = analyze v ep w
      (Failed {| err_status := None;
                 err_message :=
                   syntax_error_message w
                     (or_else (response_text r) (str "{}")) |})
      req db.
Proof.
  intros Hv Hacc Hr.
  destruct v; [| congruence |]; destruct ep; cbn [parsed_reply] in Hr;
    enter_handler Hacc; cbn [generateContent bind];
    unfold JSON_parse_or_throw; rewrite Hr; reflexivity.
Qed.

Lemma unparsable_reply_is_a_failed_call_witness :
  analyze DevServer Link (sample_runtime 0)
    (replied (str "Sorry, error 429 occurred"))
    {| text := None; userEmail := None; language := None;
       url := Some (str "https://example.org"); profileUrl := None;
       platform := None; message := None; prompt := None;
       body_type := None; content1 := None; content2 := None;
       file := None; email := None |} []
  = analyze DevServer Link (sample_runtime 0)
      (Failed {| err_status := None;
                 err_message :=
                   syntax_error_message (sample_runtime 0)
                     (or_else (response_text
                                 {| response_text :=
                                      Some (str "Sorry, error 429 occurred");
                                    response_parts := None |})
                              (str "{}")) |})
      {| text := None; userEmail := None; language := None;
         url := Some (str "https://example.org"); profileUrl := None;
         platform := None; message := None; prompt := None;
         body_type := None; content1 := None; content2 := None;
         file := None; email := None |} [].
Proof.
  apply (unparsable_reply_is_a_failed_call DevServer Link).
  - discriminate.
  - reflexivity.
  - vm_compute. reflexivity.
Defined.

(* ================================================================== *)
(** * The complement statement and the replies of the production server *)
(* ================================================================== *)

Lemma human_is_not_null (x : number) (props : list (jsstring * json)) :
  not_nullish
    (get_prop (str "humanProbability")
       (set_prop (str "humanProbability") (JNum x) props)) = true.
Proof. rewrite get_set_same. reflexivity. Qed.

Lemma Normal_inj (A : Type) (a b : A) : Normal a = Normal b -> a = b.
Proof. intros H. now injection H. Qed.

(** Where the complement statement runs to its end it changes no property
    but [humanProbability]; it does so on every value but [null] and the
    objects whose [aiProbability] has no primitive value. *)
Lemma backfill_total (w : runtime) (val : json) :
  val <> JNull ->
  (forall props, val = JObj props ->
                 complement_defined ProdServer props = true) ->
  exists out,
    Prod.backfill w val = Normal out
    /\ (forall k, k <> str "humanProbability" -> field k out = field k val)
    /\ ((forall props, val <> JObj props) -> out = val).
Proof.
  intros Hn Hc.
  destruct val as [|b|x|s|l|props]; try congruence;
    try (eexists; split; [reflexivity|]; split; [reflexivity|];
         reflexivity).
  specialize (Hc props eq_refl). cbn [complement_defined] in Hc.
  rewrite backfill_object.
  destruct (get_prop (str "aiProbability") props) as [a|].
  - destruct (_ && _).
    + destruct (to_number a) as [x|]; [|discriminate Hc].
      eexists. split; [reflexivity|]. split.
      * intros k Hk. cbn [field]. now apply get_set_other.
      * intros H. now specialize (H props).
    + eexists. split; [reflexivity|]. split; [reflexivity|].
      intros H. now specialize (H props).
  - eexists. split; [reflexivity|]. split; [reflexivity|].
    intros H. now specialize (H props).
Qed.

(** X6.  The complement statement of the production server settles: run on
    its own result it changes nothing.  It changes no property other than
    [humanProbability], and in its result [humanProbability] is present and
    not null whenever [aiProbability] is. *)
Theorem backfill_settles (w : runtime) (x y : json) :
  Prod.backfill w x = Normal y ->
  Prod.backfill w y = Normal y
  /\ (forall k, k <> str "humanProbability" -> field k y = field k x)
  /\ (not_nullish (field (str "aiProbability") y) = true ->
      not_nullish (field (str "humanProbability") y) = true).
Proof.
  intros H.
  destruct x as [|b|n|s|l|props];
    try (injection H as <-; repeat split; auto; discriminate).
  - discriminate H.
  - rewrite backfill_object in H.
    destruct (get_prop (str "aiProbability") props) as [a|] eqn:Ha.
    + destruct (not_nullish (Some a)) eqn:Hnn; cbn [andb] in H.
      * destruct (not_nullish (get_prop (str "humanProbability") props))
          eqn:Hh; cbn [negb] in H.
        -- apply Normal_inj in H. subst y.
           rewrite backfill_object, Ha, Hnn, Hh. repeat split; auto.
        -- destruct (to_number a) as [n|]; [|discriminate H].
           apply Normal_inj in H. subst y.
           rewrite backfill_object.
           rewrite (get_set_other _ _ _ ai_is_not_human), Ha, Hnn.
           rewrite human_is_not_null. cbn [andb negb].
           split; [reflexivity|]. split.
           ++ intros k Hk. cbn [field]. now apply get_set_other.
           ++ intros _. cbn [field]. apply human_is_not_null.
      * apply Normal_inj in H. subst y.
        rewrite backfill_object, Ha, Hnn. cbn [andb].
        repeat split; auto. cbn [field]. rewrite Ha. congruence.
    + apply Normal_inj in H. subst y.
      rewrite backfill_object, Ha. repeat split; auto.
      cbn [field]. rewrite Ha. discriminate.
Qed.

(** X6 on the object [{"aiProbability": 70}]. *)
Lemma backfill_settles_witness :
  Prod.backfill (sample_runtime 0)
    (JObj [(str "aiProbability", JNum (of_Z 70));
           (str "humanProbability", JNum (of_Z 30))])
  = Normal (JObj [(str "aiProbability", JNum (of_Z 70));
                  (str "humanProbability", JNum (of_Z 30))])
  /\ (forall k, k <> str "humanProbability" ->
      field k (JObj [(str "aiProbability", JNum (of_Z 70));
                     (str "humanProbability", JNum (of_Z 30))])
      = field k (JObj [(str "aiProbability", JNum (of_Z 70))]))
  /\ (not_nullish
        (field (str "aiProbability")
           (JObj [(str "aiProbability", JNum (of_Z 70));
                  (str "humanProbability", JNum (of_Z 30))])) = true ->
      not_nullish
        (field (str "humanProbability")
           (JObj [(str "aiProbability", JNum (of_Z 70));
                  (str "humanProbability", JNum (of_Z 30))])) = true).
Proof.
  apply (backfill_settles (sample_runtime 0)
           (JObj [(str "aiProbability", JNum (of_Z 70))])).
  vm_compute. reflexivity.
Defined.

(** X7.  The text, video, link and profile handlers of the production
    server on a reply of the model, whatever its text.  When the reply
    normalizes to a value other than [null] on which the complement
    statement runs to its end (a value that is no object, or an object
    whose [aiProbability] converts to a number where [humanProbability] is
    derived from it), the answer is 200 and is recorded: it is the
    normalized value with at most [humanProbability] changed, and a value
    that is no object is answered as it is.  The profile handler, which has
    no complement statement, does so on every reply.  On the other three a
    reply that normalizes to [null] is handled as a failed call whose error
    is the TypeError of reading [aiProbability], and an object whose
    [aiProbability] has no primitive value as a failed call whose error is
    the TypeError of the conversion. *)
Theorem prod_handles_every_reply (ep : endpoint) (w : runtime)
    (r : model_response) (req : request) (db : database) :
  ep <> Image ->
  accepted ProdServer ep req = true ->
  let val := parseJSON (or_else (response_text r) []) in
  (ep = Profile
   \/ (val <> JNull
       /\ forall props, val = JObj props ->
                        complement_defined ProdServer props = true) ->
   exists out added,
     analyze ProdServer ep w (Replied r) req db
     = (db ++ [added], res_json out)
     /\ result added = stringify out
     /\ (forall k, k <> str "humanProbability" -> field k out = field k val)
     /\ ((forall props, val <> JObj props) -> out = val))
  /\ (val = JNull -> ep <> Profile ->
      analyze ProdServer ep w (Replied r) req db
      = analyze ProdServer ep w
          (Failed {| err_status := None;
                     err_message :=
                       type_error_message w JNull (str "aiProbability") |})
          req db)
  /\ (forall props,
         val = JObj props ->
         complement_defined ProdServer props = false -> ep <> Profile ->
         exists a,
           get_prop (str "aiProbability") props = Some a
           /\ to_number a = None
           /\ analyze ProdServer ep w (Replied r) req db
              = analyze ProdServer ep w
                  (Failed {| err_status := None;
                             err_message := primitive_error_message w a |})
                  req db).
Proof.
  intros Hep Hacc val. split; [|split].
  - intros Hval.
    destruct ep; try congruence; enter_handler Hacc;
      cbn [generateContent bind]; fold val;
      try (destruct Hval as [Hval|[Hval Hc]]; [discriminate Hval|];
           destruct (backfill_total w val Hval Hc) as (out & -> & Hk & Hv);
           cbn [bind]; unfold insert; do 2 eexists;
           split; [reflexivity|]; cbn [result];
           rewrite sqlite_text_stringify; auto).
    unfold insert. do 2 eexists.
    split; [reflexivity|]. cbn [result].
    rewrite sqlite_text_stringify. auto.
  - intros Hval Hp.
    destruct ep; try congruence; enter_handler Hacc;
      cbn [generateContent bind]; fold val; rewrite Hval; reflexivity.
  - intros props Hval Hc Hp.
    destruct (backfill_undefined w props Hc) as (a & Ha & Hn & Hthrow).
    exists a. split; [exact Ha|]. split; [exact Hn|].
    destruct ep; try congruence; enter_handler Hacc;
      cbn [generateContent bind]; fold val; rewrite Hval, Hthrow;
      reflexivity.
Qed.

(** X7 on the replies [42], [null] and [{"aiProbability":{"toString":1}}],
    each sent to the link handler. *)
Lemma prod_handles_every_reply_witness :
  (exists out added,
      analyze ProdServer Link (sample_runtime 5) (replied (str "42"))
        (link_request (str "https://example.org")) []
      = ([] ++ [added], res_json out)
      /\ result added = stringify out
      /\ (forall k, k <> str "humanProbability" ->
          field k out = field k (JNum (of_Z 42)))
      /\ ((forall props, JNum (of_Z 42) <> JObj props) ->
          out = JNum (of_Z 42)))
  /\ analyze ProdServer Link (sample_runtime 5) (replied (str "null"))
       (link_request (str "https://example.org")) []
     = analyze ProdServer Link (sample_runtime 5)
         (Failed {| err_status := None;
                    err_message :=
                      type_error_message (sample_runtime 5) JNull
                        (str "aiProbability") |})
         (link_request (str "https://example.org")) []
  /\ (exists a,
        get_prop (str "aiProbability")
          [(str "aiProbability", JObj [(str "toString", JNum (of_Z 1))])]
        = Some a
        /\ to_number a = None
        /\ analyze ProdServer Link (sample_runtime 5)
             (replied reply_unconvertible_ai)
             (link_request (str "https://example.org")) []
           = analyze ProdServer Link (sample_runtime 5)
               (Failed {| err_status := None;
                          err_message :=
                            primitive_error_message (sample_runtime 5) a |})
               (link_request (str "https://example.org")) []).
Proof.
  split; [|split].
  - apply (proj1 (prod_handles_every_reply Link (sample_runtime 5)
                    {| response_text := Some (str "42");
                       response_parts := None |}
                    (link_request (str "https://example.org")) []
                    ltac:(discriminate) eq_refl)).
    right. split; [vm_compute; discriminate|].
    intros props H. vm_compute in H. discriminate H.
  - apply (proj1 (proj2 (prod_handles_every_reply Link (sample_runtime 5)
                    {| response_text := Some (str "null");
                       response_parts := None |}
                    (link_request (str "https://example.org")) []
                    ltac:(discriminate) eq_refl))).
    + vm_compute. reflexivity.
    + discriminate.
  - apply (proj2 (proj2 (prod_handles_every_reply Link (sample_runtime 5)
                    {| response_text := Some reply_unconvertible_ai;
                       response_parts := None |}
                    (link_request (str "https://example.org")) []
                    ltac:(discriminate) eq_refl))).
    + vm_compute. reflexivity.
    + vm_compute. reflexivity.
    + discriminate.
Defined.

(* ================================================================== *)
(** * Chat, generate and compare *)
(* ================================================================== *)

(** X8.  The chat, generate and compare routes of the serverless handler
    never answer 500: when the call to the model fails, for whatever
    reason, the answer is 200 with a text that names the demo mode, and
    nothing is written.  The chat and generate routes of the dev server and
    the chat route of the production server have no demo mode: every
    failure, a rate limit included, is answered 500 with the message of the
    error. *)
Theorem side_routes_on_failure :
  (forall rt h w e req db,
      rt = Chat \/ rt = Generate \/ rt = Compare ->
      serve ServerlessHandler rt = Some h ->
      (rt = Chat -> truthy (message req) <> None) ->
      fst (h w (Failed e) req db) = db
      /\ status (snd (h w (Failed e) req db)) = 200
      /\ exists k s,
           body (snd (h w (Failed e) req db)) = Value (JObj [(k, JStr s)])
           /\ includes s (str "demo mode") = true)
  /\ (forall v rt h w e req db,
         v <> ServerlessHandler ->
         rt = Chat \/ rt = Generate ->
         serve v rt = Some h ->
         h w (Failed e) req db = (db, res_error 500 (err_message e))).
Proof.
  split.
  - intros rt h w e req db Hrt Hs Hm.
    destruct Hrt as [->|[->| ->]]; cbn [serve] in Hs; injection Hs as <-.
    + unfold Serverless.chat.
      destruct (truthy (message req)); [|now destruct Hm].
      cbn [generateContent fst snd]. split; [reflexivity|].
      split; [reflexivity|]. do 2 eexists. split; [reflexivity|].
      vm_compute. reflexivity.
    + cbn. split; [reflexivity|]. split; [reflexivity|].
      do 2 eexists. split; [reflexivity|]. vm_compute. reflexivity.
    + cbn. split; [reflexivity|]. split; [reflexivity|].
      do 2 eexists. split; [reflexivity|]. vm_compute. reflexivity.
  - intros v rt h w e req db Hv Hrt Hs.
    destruct v; [| |congruence]; destruct Hrt as [->| ->]; cbn [serve] in Hs;
      try discriminate Hs; injection Hs as <-; reflexivity.
Qed.

(** X8 on a rate-limit error: the compare route of the serverless handler
    and the chat route of the dev server. *)
Lemma side_routes_on_failure_witness :
  (fst (Serverless.compare (sample_runtime 0) (Failed rate_limited)
          empty_request sample_history) = sample_history
   /\ status (snd (Serverless.compare (sample_runtime 0)
                     (Failed rate_limited) empty_request sample_history))
      = 200
   /\ exists k s,
        body (snd (Serverless.compare (sample_runtime 0)
                     (Failed rate_limited) empty_request sample_history))
        = Value (JObj [(k, JStr s)])
        /\ includes s (str "demo mode") = true)
  /\ Dev.chat (sample_runtime 0) (Failed rate_limited) empty_request
       sample_history
     = (sample_history, res_error 500 (err_message rate_limited)).
Proof.
  destruct side_routes_on_failure as [Hserverless Hothers].
  split.
  - apply (Hserverless Compare Serverless.compare).
    + right; right; reflexivity.
    + reflexivity.
    + discriminate.
  - apply (Hothers DevServer Chat Dev.chat).
    + discriminate.
    + left; reflexivity.
    + reflexivity.
Defined.

(* ================================================================== *)
(** * The demo results *)
(* ================================================================== *)

(** X9.  The two probabilities of a quota-fallback answer sum to 100, for
    every text and every upload, on every endpoint that reports both: all
    endpoints of the serverless handler, and all but the profile endpoint
    of the dev and production servers, whose demo profile has no
    [aiProbability]. *)
Theorem demo_probabilities_sum_to_100 (v : server) (ep : endpoint)
    (w : runtime) (e : js_error) (req : request) (db : database) :
  accepted v ep req = true ->
  isQuotaError v e = true ->
  (if match ep, v with
      | Profile, DevServer | Profile, ProdServer => true
      | _, _ => false
      end
   then response_field (str "aiProbability")
          (snd (analyze v ep w (Failed e) req db)) = None
   else sums_to_100 (snd (analyze v ep w (Failed e) req db))).
Proof.
  intros Hacc Hq.
  destruct v, ep; cbn [isQuotaError] in Hq; enter_handler Hacc;
    cbn [generateContent bind]; rewrite Hq; cbn [snd];
    lazymatch goal with
    | |- _ = None => lookup_literal; reflexivity
    | |- _ =>
        unfold sums_to_100, Dev.mockTextResult, Prod.mockTextResult,
          Serverless.mockTextResult;
        do 2 eexists;
        (split; [lookup_literal; reflexivity|]);
        (split; [lookup_literal; reflexivity|]);
        try destruct (300 <? List.length _)%nat; vm_compute; reflexivity
    end.
Qed.

Lemma demo_probabilities_sum_to_100_witness :
  sums_to_100
    (snd (analyze DevServer Text (sample_runtime 0) (Failed rate_limited)
            (text_request (str "some text") None) []))
  /\ response_field (str "aiProbability")
       (snd (analyze ProdServer Profile (sample_runtime 0)
               (Failed rate_limited)
               {| text := None; userEmail := None; language := None;
                  url := None;
                  profileUrl := Some (str "https://example.org/ada");
                  platform := None; message := None; prompt := None;
                  body_type := None; content1 := None; content2 := None;
                  file := None; email := None |} [])) = None.
Proof.
  split.
  - apply (demo_probabilities_sum_to_100 DevServer Text (sample_runtime 0)
             rate_limited (text_request (str "some text") None) []).
    + reflexivity.
    + reflexivity.
  - apply (demo_probabilities_sum_to_100 ProdServer Profile
             (sample_runtime 0) rate_limited).
    + reflexivity.
    + reflexivity.
Defined.

(* ================================================================== *)
(** * The column content of a text row *)
(* ================================================================== *)

(** X10.  The row a text analysis adds, on a reply of the model or on the
    quota fallback of the dev server, holds in [content] the first 500 code
    units of the text as the storage engine keeps them: as many units as
    the text has, up to 500.  When those units are well formed the column
    is a prefix of the text, and the whole text when it has at most 500
    units.  When unit 500 is the first half of a surrogate pair, the cut
    parts the pair and the column ends in U+FFFD instead: it is then no
    prefix of the text. *)
Theorem text_rows_hold_the_first_500 (v : server) (w : runtime)
    (ai : reply) (req : request) (db : database) (t : jsstring) (r : row) :
  truthy (text req) = Some t ->
  fst (analyze v Text w ai req db) = db ++ [r] ->
  type r = str "text"
  /\ content r = sqlite_text (firstn 500 t)
  /\ List.length (content r) = Nat.min 500 (List.length t)
  /\ (isWellFormed (firstn 500 t) = true ->
      content r = firstn 500 t /\ exists rest, t = content r ++ rest)
  /\ ((List.length t <= 500)%nat -> isWellFormed t = true -> content r = t)
  /\ (forall pre c post,
         t = pre ++ c :: post -> List.length pre = 499%nat ->
         is_high_surrogate c = true ->
         content r = sqlite_text pre ++ [65533%N]
         /\ forall rest, t <> content r ++ rest).
Proof.
  intros Ht Hr.
  assert (content r = sqlite_text (firstn 500 t) /\ type r = str "text")
    as [Hc Hty].
  { revert Hr.
    destruct v; cbn [analyze]; unfold_handlers; rewrite Ht;
      branches; cbn [fst]; unfold insert; intros Hr;
      solve [ apply app_inv_head, singleton_inj in Hr; subst r;
              split; reflexivity
            | exfalso; apply (f_equal (@List.length row)) in Hr;
              rewrite length_app in Hr; cbn [List.length] in Hr; lia ]. }
  split; [exact Hty|]. split; [exact Hc|]. rewrite Hc.
  split; [rewrite sqlite_text_length; apply length_firstn|].
  split; [|split].
  - intros Hw. rewrite (sqlite_text_well_formed _ Hw).
    split; [reflexivity|].
    exists (skipn 500 t). symmetry. apply firstn_skipn.
  - intros Hlen Hw. rewrite (firstn_all2 t Hlen).
    now apply sqlite_text_well_formed.
  - intros pre c post -> Hpre Hhigh.
    assert (firstn 500 (pre ++ c :: post) = pre ++ [c]) as ->.
    { rewrite firstn_app, Hpre, (firstn_all2 pre) by lia.
      reflexivity. }
    rewrite (sqlite_text_lone_high pre c Hhigh).
    split; [reflexivity|]. intros rest E.
    apply (f_equal (fun l => nth (List.length pre) l 0%N)) in E.
    rewrite nth_middle, <- app_assoc in E. cbn [app] in E.
    rewrite <- (sqlite_text_length pre), nth_middle in E. subst c.
    vm_compute in Hhigh. discriminate Hhigh.
Qed.

(** X10 on the quota fallback of the dev server: a short text, and a text
    whose unit 500 is the first half of a surrogate pair. *)
Lemma text_rows_hold_the_first_500_witness :
  content some_text_row = str "some text"
  /\ (content cut_pair_row = sqlite_text (repeat 97%N 499) ++ [65533%N]
      /\ forall rest, cut_pair_text <> content cut_pair_row ++ rest).
Proof.
  split.
  - apply (proj1 (proj2 (proj2 (proj2 (proj2
             (text_rows_hold_the_first_500 DevServer (sample_runtime 0)
                (Failed rate_limited)
                (text_request (str "some text") None) []
                (str "some text") some_text_row
                eq_refl ltac:(vm_compute; reflexivity))))))).
    + vm_compute. lia.
    + vm_compute. reflexivity.
  - apply (proj2 (proj2 (proj2 (proj2 (proj2
             (text_rows_hold_the_first_500 DevServer (sample_runtime 0)
                (Failed rate_limited)
                (text_request cut_pair_text None) []
                cut_pair_text cut_pair_row
                eq_refl ltac:(vm_compute; reflexivity))))))
             (repeat 97%N 499) 55357%N [56832%N]).
    + reflexivity.
    + vm_compute. reflexivity.
    + vm_compute. reflexivity.
Defined.

(* ================================================================== *)
(** * Analyses and the history that is read back *)
(* ================================================================== *)

Lemma history_rows (v : server) (q : request) (db : database) :
  history v q db
  = (db, {| status := 200;
            body := Rows (select_history (history_limit v)
                            (or_else (email q) anonymous) db) |}).
Proof. destruct v; reflexivity. Qed.

(** A row that is newer than all the others comes first. *)
Lemma order_append_newest (l : list row) (r : row) :
  Forall (fun x => created_at x < created_at r) l ->
  order_by_created_at_desc (l ++ [r]) = r :: order_by_created_at_desc l.
Proof.
  induction 1 as [|x l Hx Hl IH]; [reflexivity|].
  cbn [app order_by_created_at_desc fold_right].
  fold (order_by_created_at_desc (l ++ [r])). rewrite IH.
  cbn [insert_desc].
  destruct (Z.leb_spec (created_at r) (created_at x)); [lia|reflexivity].
Qed.

Lemma firstn_pred_firstn (n : nat) (l : list row) :
  firstn (n - 1) (firstn n l) = firstn (n - 1) l.
Proof. rewrite firstn_firstn. f_equal. lia. Qed.

(** X11.  Insert and lookup compose.  After an analysis that the model
    answers with a JSON object on which the handler runs to its end (any
    object, but for the complement statement of the production server an
    object whose [aiProbability] converts to a number where
    [humanProbability] is derived from it), made at a time later than every
    earlier row of the same user identifier, GET /api/history for that
    identifier returns the new row first: its [result] is the serialization
    of the value the analysis answered, and it is followed by the rows the
    history returned before, the last of them left out when the limit is
    reached.  The identifier is the address of the request, or "anonymous"
    when the address is missing or empty, on both sides; two identifiers
    are the same when the storage engine keeps the same text for them. *)
Theorem new_analysis_heads_history (v : server) (ep : endpoint)
    (w : runtime) (r : model_response) (req q : request) (db : database)
    (props : list (jsstring * json)) :
  accepted v ep req = true ->
  parsed_reply v r = Some (JObj props) ->
  ep = Profile \/ complement_defined v props = true ->
  sqlite_text (or_else (email q) anonymous)
  = sqlite_text (or_else (userEmail req) anonymous) ->
  Forall (fun x => created_at x < current_timestamp w)
    (rows_of (or_else (userEmail req) anonymous) db) ->
  let out := analyze v ep w (Replied r) req db in
  exists val newest,
    snd out = res_json val
    /\ response_rows (snd (history v q (fst out)))
       = newest
         :: firstn (history_limit v - 1)
              (response_rows (snd (history v q db)))
    /\ result newest = stringify val
    /\ type newest = endpoint_name ep
    /\ id newest = next_id db.
Proof.
  intros Hacc Hr Hc Hq Hnew out. subst out.
  destruct (success_is_recorded v ep w r req db props Hacc Hr Hc)
    as (new & Hdb & Hmail & Hty & Hat & Hid).
  destruct (added_row_holds_answer v (Analyze ep) (analyze v ep) w
              (Replied r) req db new eq_refl Hdb)
    as (val & Hval & Hres & _).
  exists val, new. split; [exact Hval|].
  split; [|auto].
  rewrite Hdb, !history_rows. unfold response_rows; cbn [snd body].
  unfold select_history. rewrite Hq.
  set (k := or_else (userEmail req) anonymous) in *.
  rewrite filter_app. cbn [filter].
  rewrite Hmail, jsstring_eqb_refl. fold (rows_of k db).
  rewrite order_append_newest by (rewrite Hat; exact Hnew).
  rewrite firstn_pred_firstn.
  destruct v; reflexivity.
Qed.

(** X11 on the sample table: a third analysis of ada@example.org at second
    30 on the production server, whose reply holds [aiProbability] only. *)
Lemma new_analysis_heads_history_witness :
  exists val newest,
    snd (analyze ProdServer Text (sample_runtime 30)
           (replied reply_only_ai)
           (text_request (str "third text") (Some (str "ada@example.org")))
           sample_history) = res_json val
    /\ response_rows
         (snd (history ProdServer
                 (history_request (Some (str "ada@example.org")))
                 (fst (analyze ProdServer Text (sample_runtime 30)
                         (replied reply_only_ai)
                         (text_request (str "third text")
                            (Some (str "ada@example.org")))
                         sample_history))))
       = newest
         :: firstn (history_limit ProdServer - 1)
              (response_rows
                 (snd (history ProdServer
                         (history_request (Some (str "ada@example.org")))
                         sample_history)))
    /\ result newest = stringify val
    /\ type newest = endpoint_name Text
    /\ id newest = next_id sample_history.
Proof.
  apply (new_analysis_heads_history ProdServer Text (sample_runtime 30)
           {| response_text := Some reply_only_ai;
              response_parts := None |}
           (text_request (str "third text") (Some (str "ada@example.org")))
           (history_request (Some (str "ada@example.org"))) sample_history
           [(str "aiProbability", JNum (of_Z 70))]).
  - reflexivity.
  - vm_compute. reflexivity.
  - right. vm_compute. reflexivity.
  - reflexivity.
  - vm_compute. repeat constructor.
Defined.

Lemma strongly_sorted_split (l1 l2 : list row) :
  StronglySorted (fun a b => created_at b <= created_at a) (l1 ++ l2) ->
  forall a b, In a l1 -> In b l2 -> created_at b <= created_at a.
Proof.
  induction l1 as [|x l1 IH]; intros Hs a b Ha Hb; [contradiction|].
  cbn [app] in Hs. apply StronglySorted_inv in Hs. destruct Hs as [Hs Hx].
  destruct Ha as [->|Ha].
  - rewrite Forall_forall in Hx. apply Hx, in_or_app. now right.
  - now apply IH.
Qed.

(** X12.  GET /api/history returns the newest rows of the identifier: as
    many as the identifier has, up to the limit of the server, and no row
    it leaves out is newer than a row it returns.  The table is left as it
    is. *)
Theorem history_keeps_the_newest (v : server) (q : request) (db : database) :
  let k := or_else (email q) anonymous in
  let rs := response_rows (snd (history v q db)) in
  fst (history v q db) = db
  /\ List.length rs
     = Nat.min (history_limit v) (List.length (rows_of k db))
  /\ (forall old new,
         In old (rows_of k db) -> ~ In old rs -> In new rs ->
         created_at old <= created_at new).
Proof.
  intros k rs. subst rs. rewrite history_rows.
  unfold response_rows; cbn [fst snd body]. fold k.
  unfold select_history. fold (rows_of k db).
  set (sorted := order_by_created_at_desc (rows_of k db)).
  assert (Permutation sorted (rows_of k db)) as Hp
    by apply order_by_created_at_desc_perm.
  split; [reflexivity|]. split.
  - rewrite length_firstn. now rewrite (Permutation_length Hp).
  - intros old new Hold Hout Hnew.
    assert (In old (skipn (history_limit v) sorted)) as Hskip.
    { apply (Permutation_in _ (Permutation_sym Hp)) in Hold.
      rewrite <- (firstn_skipn (history_limit v) sorted) in Hold.
      apply in_app_or in Hold. tauto. }
    apply (strongly_sorted_split (firstn (history_limit v) sorted)
             (skipn (history_limit v) sorted)); [|assumption|assumption].
    rewrite firstn_skipn.
    apply Sorted_StronglySorted.
    + intros a b c Hab Hbc. lia.
    + apply order_by_created_at_desc_sorted.
Qed.

(* ================================================================== *)
(** * The image of POST /api/generate *)
(* ================================================================== *)

Lemma last_image_none (parts : list (option jsstring)) (url : jsstring) :
  Forall (eq None) parts ->
  fold_left (fun imageUrl part =>
               match part with
               | Some data => str "data:image/png;base64," ++ data
               | None => imageUrl
               end) parts url = url.
Proof.
  induction 1 as [|p parts <- _ IH]; [reflexivity | exact IH].
Qed.

(** X13.  POST /api/generate of the dev server, asked for an image: the
    answer carries the data URL of the last part of the reply that holds
    inline data, whatever parts come before it, and the empty string when no
    part holds inline data. *)
Theorem generated_image_is_the_last_part :
  (forall w r req db parts,
      body_type req = Some (str "image") ->
      response_parts r = Some parts ->
      Forall (eq None) parts ->
      Dev.generate w (Replied r) req db
      = (db, res_json (JObj [(str "imageUrl", JStr [])])))
  /\ (forall w r req db parts data rest,
         body_type req = Some (str "image") ->
         response_parts r = Some (parts ++ Some data :: rest) ->
         Forall (eq None) rest ->
         Dev.generate w (Replied r) req db
         = (db, res_json
                  (JObj [(str "imageUrl",
                          JStr (str "data:image/png;base64," ++ data))]))).
Proof.
  split.
  - intros w r req db parts Hty Hparts Hnone.
    unfold Dev.generate. cbn [generateContent bind].
    rewrite Hty, Hparts, jsstring_eqb_refl. unfold last_image.
    now rewrite last_image_none.
  - intros w r req db parts data rest Hty Hparts Hnone.
    unfold Dev.generate. cbn [generateContent bind].
    rewrite Hty, Hparts, jsstring_eqb_refl. unfold last_image.
    rewrite fold_left_app. cbn [fold_left].
    now rewrite last_image_none.
Qed.

Lemma generated_image_is_the_last_part_witness :
  Dev.generate (sample_runtime 0)
    (Replied {| response_text := None;
                response_parts := Some [None; None] |})
    {| text := None; userEmail := None; language := None; url := None;
       profileUrl := None; platform := None; message := None;
       prompt := Some (str "a cat"); body_type := Some (str "image");
       content1 := None; content2 := None; file := None; email := None |}
    []
  = ([], res_json (JObj [(str "imageUrl", JStr [])]))
  /\ Dev.generate (sample_runtime 0)
       (Replied {| response_text := None;
                   response_parts :=
                     Some ([Some (str "AAAA"); None]
                             ++ Some (str "BBBB") :: [None]) |})
       {| text := None; userEmail := None; language := None; url := None;
          profileUrl := None; platform := None; message := None;
          prompt := Some (str "a cat"); body_type := Some (str "image");
          content1 := None; content2 := None; file := None; email := None |}
       []
     = ([], res_json
              (JObj [(str "imageUrl",
                      JStr (str "data:image/png;base64," ++ str "BBBB"))])).
Proof.
  destruct generated_image_is_the_last_part as [Hnone Hlast].
  split.
  - apply (Hnone (sample_runtime 0)
             {| response_text := None;
                response_parts := Some [None; None] |})
      with (parts := [None; None]).
    + reflexivity.
    + reflexivity.
    + repeat constructor.
  - apply (Hlast (sample_runtime 0)
             {| response_text := None;
                response_parts :=
                  Some ([Some (str "AAAA"); None]
                          ++ Some (str "BBBB") :: [None]) |})
      with (parts := [Some (str "AAAA"); None]) (rest := [None]).
    + reflexivity.
    + reflexivity.
    + repeat constructor.
Defined.

(* ================================================================== *)
(** * Stripping is idempotent *)
(* ================================================================== *)

(** X14.  What the first line of [parseJSON] returns never holds three
    backticks in a row, whatever the text.  Stripping is idempotent, so
    [parseJSON] gives the same value on a text and on the text already
    stripped. *)
Theorem stripping_leaves_no_fence (text : jsstring) :
  fence_free (strip_fences text)
  /\ strip_fences (strip_fences text) = strip_fences text
  /\ parseJSON (strip_fences text) = parseJSON text.
Proof.
  assert (strip_fences (strip_fences text) = strip_fences text) as Hidem.
  { rewrite strip_fences_fixed by apply strip_fences_fence_free.
    unfold strip_fences. cbv zeta. apply trim_idempotent. }
  split; [apply strip_fences_fence_free|]. split; [exact Hidem|].
  unfold parseJSON. cbv zeta. now rewrite Hidem.
Qed.

(* ================================================================== *)
(** * The value of the brace match *)
(* ================================================================== *)

(** A text that starts with an opening brace parses to an object or not at
    all. *)
Lemma parse_value_brace (fuel : nat) (r : jsstring) (v : json)
    (rest : jsstring) :
  parse_value fuel (123%N :: r) = Some (v, rest) ->
  exists props, v = JObj props.
Proof.
  destruct fuel as [|f]; [discriminate|].
  cbn [parse_value skip_ws is_json_ws N.eqb Pos.eqb orb].
  destruct (expect 125%N r) as [r'|].
  - intros [= <- _]. now exists [].
  - generalize (@nil (jsstring * json)) as acc.
    generalize r at 2 as s.
    generalize (List.length r) as n.
    induction n as [|n IH]; intros s acc; [discriminate|].
    cbv beta iota fix.
    destruct (expect 34%N s) as [r0|]; [|discriminate].
    destruct (parse_chars r0 []) as [[k r1]|]; [|discriminate].
    destruct (expect 58%N r1) as [r2|]; [|discriminate].
    destruct (parse_value f r2) as [[x r3]|]; [|discriminate].
    destruct (skip_ws r3) as [|c r4]; [discriminate|].
    destruct (N.eqb c 44); [apply IH|].
    destruct (N.eqb c 125); [|discriminate].
    intros [= <- _]. eauto.
Qed.

Lemma JSON_parse_brace (r : jsstring) (v : json) :
  JSON_parse (123%N :: r) = Some v -> exists props, v = JObj props.
Proof.
  unfold JSON_parse.
  destruct (parse_value _ (123%N :: r)) as [[x rest]|] eqn:E;
    [|discriminate].
  destruct (skip_ws rest); [|discriminate].
  intros [= <-]. exact (parse_value_brace _ _ _ _ E).
Qed.

(** X15.  When the stripped text is not valid JSON, [parseJSON] returns an
    object: the value of the brace match when that is valid JSON, which is
    then an object, and the empty object otherwise.  So a value that is no
    object is only ever returned for a reply that is valid JSON as a
    whole. *)
Theorem fallback_yields_an_object (text : jsstring) :
  JSON_parse (strip_fences text) = None ->
  exists props, parseJSON text = JObj props.
Proof.
  intros H. unfold parseJSON. cbv zeta. rewrite H.
  destruct (match_braces (strip_fences text)) as [m|] eqn:Em;
    [|now exists []].
  destruct (match_braces_span _ _ Em) as (pre & body & post & _ & -> & _).
  destruct (JSON_parse (123%N :: body ++ [125%N])) as [v|] eqn:Ev;
    [|now exists []].
  exact (JSON_parse_brace _ _ Ev).
Qed.

(** X15 on a reply in prose around the array [[1, {"a": 2}, 3]]: the value
    is the object of the brace match, not the array. *)
Lemma fallback_yields_an_object_witness :
  exists props,
    parseJSON (str "Result: [1, {" ++ quoted "a" ++ str ": 2}, 3] done")
    = JObj props.
Proof.
  apply (fallback_yields_an_object
           (str "Result: [1, {" ++ quoted "a" ++ str ": 2}, 3] done")).
  vm_compute. reflexivity.
Defined.

(** ** An object inside prose *)

Lemma drop_until_app (c : char16) (p r : jsstring) :
  ~ In c p -> drop_until c (p ++ c :: r) = c :: r.
Proof.
  induction p as [|d p IH]; intros H; cbn [app drop_until].
  - now rewrite N.eqb_refl.
  - destruct (N.eqb_spec c d) as [->|_]; [exfalso; apply H; now left|].
    apply IH. intros Hin. apply H. now right.
Qed.

(** The brace match of a text with one braced span between a text without
    opening brace and a text without closing brace is that span. *)
Lemma match_braces_found (pre body post : jsstring) :
  ~ In 123%N pre -> ~ In 125%N post ->
  match_braces (pre ++ (123%N :: body ++ [125%N]) ++ post)
  = Some (123%N :: body ++ [125%N]).
Proof.
  intros Hpre Hpost. unfold match_braces.
  cbn [app]. rewrite drop_until_app by exact Hpre.
  change (123%N :: (body ++ [125%N]) ++ post)
    with ((123%N :: body ++ [125%N]) ++ post).
  rewrite rev_app_distr.
  change (123%N :: body ++ [125%N]) with ((123%N :: body) ++ [125%N]).
  rewrite (rev_app_distr (123%N :: body) [125%N]). cbn [rev app].
  rewrite drop_until_app by (rewrite <- in_rev; exact Hpost).
  change (125%N :: rev body ++ [123%N])
    with ([125%N] ++ (rev body ++ [123%N])).
  rewrite rev_app_distr, rev_app_distr, rev_involutive. reflexivity.
Qed.

Lemma skip_spaces_app (p x : jsstring) (c : char16) (r : jsstring) :
  x = c :: r -> is_space c = false ->
  skip_spaces (p ++ x) = skip_spaces p ++ x.
Proof.
  intros -> Hc. induction p as [|d p IH]; cbn [app skip_spaces].
  - now rewrite Hc.
  - destruct (is_space d); [exact IH | reflexivity].
Qed.

Lemma skip_spaces_keeps_out (c : char16) (s : jsstring) :
  ~ In c s -> ~ In c (skip_spaces s).
Proof.
  intros H Hin. apply H.
  destruct (skip_spaces_suffix s) as (p & Hp). rewrite Hp.
  apply in_or_app. now right.
Qed.

Lemma trim_right_app (y b : jsstring) (d : char16) :
  is_space d = false ->
  rev (skip_spaces (rev ((y ++ [d]) ++ b)))
  = (y ++ [d]) ++ rev (skip_spaces (rev b)).
Proof.
  intros Hd. rewrite rev_app_distr, rev_unit.
  rewrite (skip_spaces_app (rev b) (d :: rev y) d (rev y) eq_refl Hd).
  rewrite rev_app_distr. f_equal.
  rewrite <- rev_unit. apply rev_involutive.
Qed.

(** What [trim] leaves around a braced span. *)
Lemma trim_around_braces (pre body post : jsstring) :
  ~ In 123%N pre -> ~ In 125%N post ->
  exists pre' post',
    trim (pre ++ (123%N :: body ++ [125%N]) ++ post)
    = pre' ++ (123%N :: body ++ [125%N]) ++ post'
    /\ ~ In 123%N pre' /\ ~ In 125%N post'.
Proof.
  intros Hpre Hpost.
  exists (skip_spaces pre), (rev (skip_spaces (rev post))).
  split; [|split].
  - unfold trim.
    rewrite (skip_spaces_app pre _ 123%N ((body ++ [125%N]) ++ post))
      by reflexivity.
    assert (forall q : jsstring,
               skip_spaces pre ++ (123%N :: body ++ [125%N]) ++ q
               = ((skip_spaces pre ++ 123%N :: body) ++ [125%N]) ++ q)
      as Hassoc
      by (intros q; cbn [app]; now rewrite <- !app_assoc).
    rewrite !Hassoc. now apply trim_right_app.
  - now apply skip_spaces_keeps_out.
  - rewrite <- in_rev. apply skip_spaces_keeps_out. now rewrite <- in_rev.
Qed.

(** X16.  [parseJSON] recovers an object from the prose around it: for a
    reply without three backticks in a row that holds a braced span, with no
    opening brace before the span and no closing brace after it, and that
    is not valid JSON as a whole, the value is the value of the span when
    the span is valid JSON, and the empty object when it is not. *)
Theorem object_in_prose_is_recovered (pre body post : jsstring) :
  let span := (123%N :: body ++ [125%N]) in
  let reply := pre ++ span ++ post in
  ~ In 123%N pre -> ~ In 125%N post ->
  fence_free reply ->
  JSON_parse (strip_fences reply) = None ->
  parseJSON reply = match JSON_parse span with
                    | Some v => v
                    | None => JObj []
                    end.
Proof.
  intros span reply Hpre Hpost Hfree Hwhole. unfold parseJSON. cbv zeta.
  rewrite Hwhole. rewrite (strip_fences_fixed reply Hfree).
  destruct (trim_around_braces pre body post Hpre Hpost)
    as (pre' & post' & Htrim & Hpre' & Hpost').
  fold span in Htrim. fold reply in Htrim. rewrite Htrim.
  unfold span. rewrite match_braces_found by assumption. reflexivity.
Qed.

(** X16 on a reply that words its answer around the object
    [{"aiProbability": 70}]. *)
Lemma object_in_prose_is_recovered_witness :
  parseJSON (str "Here is the result: "
               ++ (123%N :: (quoted "aiProbability" ++ str ": 70")
                     ++ [125%N])
               ++ str " Hope it helps.")
  = match JSON_parse (123%N :: (quoted "aiProbability" ++ str ": 70")
                        ++ [125%N]) with
    | Some v => v
    | None => JObj []
    end.
Proof.
  apply (object_in_prose_is_recovered (str "Here is the result: ")
           (quoted "aiProbability" ++ str ": 70") (str " Hope it helps.")).
  - vm_compute. intuition discriminate.
  - vm_compute. intuition discriminate.
  - vm_compute. reflexivity.
  - vm_compute. reflexivity.
Defined.

(* ================================================================== *)
(** * The annotated text of the client *)
(* ================================================================== *)

(** [a] occurs in [b]. *)
Lemma includes_refl (s : jsstring) : includes s s = true.
Proof. apply includes_spec. exists [], []. now rewrite app_nil_r. Qed.

Lemma includes_trans (a b c : jsstring) :
  includes b a = true -> includes c b = true -> includes c a = true.
Proof.
  rewrite !includes_spec. intros (p & q & ->) (p' & q' & ->).
  exists (p' ++ p), (q ++ q'). now rewrite <- !app_assoc.
Qed.

(** The index [indexOf] returns is a place where the text occurs. *)
Lemma index_of_spec (s sub : jsstring) (i : nat) :
  index_of s sub = Some i ->
  exists pre post, s = pre ++ sub ++ post /\ List.length pre = i.
Proof.
  revert i. induction s as [|c s IH]; intros i; cbn [index_of].
  - destruct (strip_prefix sub []) as [r|] eqn:E; [|discriminate].
    intros [= <-]. apply strip_prefix_spec in E. now exists [], r.
  - destruct (strip_prefix sub (c :: s)) as [r|] eqn:E.
    + intros [= <-]. apply strip_prefix_spec in E. now exists [], r.
    + destruct (index_of s sub) as [j|]; [|discriminate].
      intros [= <-]. destruct (IH j eq_refl) as (pre & post & -> & Hlen).
      exists (c :: pre), post. split; [reflexivity|]. simpl. now f_equal.
Qed.

Lemma index_of_none (s sub : jsstring) :
  index_of s sub = None <-> includes s sub = false.
Proof.
  induction s as [|c s IH]; cbn [index_of includes].
  - destruct (strip_prefix sub []); split; congruence.
  - destruct (strip_prefix sub (c :: s)); [split; congruence|].
    rewrite <- IH. destruct (index_of s sub); split; cbn; congruence.
Qed.

Lemma index_of_prefix (p r : jsstring) : index_of (p ++ r) p = Some O.
Proof.
  assert (strip_prefix p (p ++ r) = Some r) as H
    by now apply strip_prefix_spec.
  destruct (p ++ r); cbn [index_of]; now rewrite H.
Qed.

(** The three substrings [HighlightedText] cuts at an index. *)
Lemma cut_at_index (pre sub post : jsstring) :
  firstn (List.length pre) (pre ++ sub ++ post) = pre
  /\ firstn (List.length sub)
       (skipn (List.length pre) (pre ++ sub ++ post)) = sub
  /\ skipn (List.length pre + List.length sub) (pre ++ sub ++ post) = post.
Proof.
  split; [|split].
  - rewrite firstn_app, Nat.sub_diag, firstn_all. cbn [firstn].
    apply app_nil_r.
  - rewrite skipn_app, Nat.sub_diag, skipn_all. cbn [skipn app].
    rewrite firstn_app, Nat.sub_diag, firstn_all. cbn [firstn].
    apply app_nil_r.
  - rewrite app_assoc, <- length_app.
    rewrite skipn_app, Nat.sub_diag, skipn_all. reflexivity.
Qed.

(** What one part becomes, read at the place of the match. *)
Lemma split_part_found (section : Client.suspicious_section)
    (pre post : jsstring) (i : nat) :
  index_of (pre ++ Client.text section ++ post) (Client.text section)
  = Some i ->
  List.length pre = i ->
  Client.split_part section
    (Client.Plain (pre ++ Client.text section ++ post))
  = match pre with [] => [] | _ :: _ => [Client.Plain pre] end
    ++ [Client.Mark (Client.mark section (Client.text section))]
    ++ match post with [] => [] | _ :: _ => [Client.Plain post] end.
Proof.
  intros Hi Hlen. unfold Client.split_part. rewrite Hi. cbv zeta.
  destruct (cut_at_index pre (Client.text section) post) as (H1 & H2 & H3).
  subst i. rewrite H1, H2, H3. reflexivity.
Qed.

Lemma split_part_cases (section : Client.suspicious_section) (p : Client.part) :
  Client.split_part section p = [p]
  \/ exists pre post,
       p = Client.Plain (pre ++ Client.text section ++ post)
       /\ Client.split_part section p
          = match pre with [] => [] | _ :: _ => [Client.Plain pre] end
            ++ [Client.Mark (Client.mark section (Client.text section))]
            ++ match post with [] => [] | _ :: _ => [Client.Plain post] end.
Proof.
  destruct p as [s|e]; [|now left].
  destruct (index_of s (Client.text section)) as [i|] eqn:E.
  - right. destruct (index_of_spec _ _ _ E) as (pre & post & -> & Hlen).
    exists pre, post. split; [reflexivity|].
    now apply split_part_found with (i := i).
  - left. unfold Client.split_part. now rewrite E.
Qed.

Lemma split_part_text (section : Client.suspicious_section) (p : Client.part) :
  concat (map part_text (Client.split_part section p)) = part_text p.
Proof.
  destruct (split_part_cases section p) as [->|(pre & post & -> & ->)].
  - cbn. apply app_nil_r.
  - destruct pre, post; cbn; rewrite ?app_nil_r; reflexivity.
Qed.

Lemma step_text (section : Client.suspicious_section)
    (parts : list Client.part) :
  concat (map part_text (flat_map (Client.split_part section) parts))
  = concat (map part_text parts).
Proof.
  induction parts as [|p parts IH]; [reflexivity|].
  cbn [flat_map map concat].
  now rewrite map_app, concat_app, split_part_text, IH.
Qed.

Lemma steps_text (sections : list Client.suspicious_section) :
  forall parts,
    concat (map part_text
              (fold_left
                 (fun parts section =>
                    flat_map (Client.split_part section) parts)
                 sections parts))
    = concat (map part_text parts).
Proof.
  induction sections as [|s sections IH]; intros parts; [reflexivity|].
  cbn [fold_left]. now rewrite IH, step_text.
Qed.

(** X17.  [HighlightedText] shows the text it is given: whatever the
    sections are, the strings and the spans it returns, read in order, spell
    the text, with nothing lost, repeated or moved. *)
Theorem highlighting_keeps_the_text (text : jsstring)
    (sections : option (list Client.suspicious_section)) :
  text_content (Client.HighlightedText text sections) = text.
Proof.
  destruct sections as [[|s l]|]; try reflexivity.
  unfold Client.HighlightedText, text_content.
  rewrite steps_text. cbn. apply app_nil_r.
Qed.

Lemma insert_longer_perm (s : Client.suspicious_section)
    (l : list Client.suspicious_section) :
  Permutation (Client.insert_longer s l) (s :: l).
Proof.
  induction l as [|x l IH]; cbn [Client.insert_longer]; [reflexivity|].
  destruct (_ <=? _)%nat; [reflexivity|].
  rewrite IH. apply perm_swap.
Qed.

Lemma sort_by_length_desc_perm (l : list Client.suspicious_section) :
  Permutation (Client.sort_by_length_desc l) l.
Proof.
  induction l as [|x l IH]; cbn; [reflexivity|].
  rewrite insert_longer_perm. now constructor.
Qed.

Lemma includes_piece (text pre sub post : jsstring) :
  includes text (pre ++ sub ++ post) = true ->
  includes text pre = true /\ includes text sub = true
  /\ includes text post = true.
Proof.
  intros H. repeat split; apply (includes_trans _ _ _ ) with (2 := H);
    apply includes_spec.
  - exists [], (sub ++ post). reflexivity.
  - exists pre, post. reflexivity.
  - exists (pre ++ sub), []. now rewrite app_nil_r, <- app_assoc.
Qed.

Lemma split_part_ok (text : jsstring)
    (sections : list Client.suspicious_section)
    (section : Client.suspicious_section) (p : Client.part) :
  In section sections ->
  part_ok text sections p ->
  Forall (part_ok text sections) (Client.split_part section p).
Proof.
  intros Hin Hp.
  destruct (split_part_cases section p) as [->|(pre & post & -> & ->)].
  - now constructor.
  - cbn [part_ok] in Hp.
    destruct (includes_piece _ _ _ _ Hp) as (H1 & H2 & H3).
    apply Forall_app. split; [destruct pre; repeat constructor; exact H1|].
    constructor.
    + cbn [part_ok]. eauto.
    + destruct post; repeat constructor; exact H3.
Qed.

Lemma steps_ok (text : jsstring) (sections : list Client.suspicious_section) :
  forall todo parts,
    (forall s, In s todo -> In s sections) ->
    Forall (part_ok text sections) parts ->
    Forall (part_ok text sections)
      (fold_left
         (fun parts section => flat_map (Client.split_part section) parts)
         todo parts).
Proof.
  induction todo as [|s todo IH]; intros parts Hsub Hok; [exact Hok|].
  cbn [fold_left]. apply IH; [intros x Hx; apply Hsub; now right|].
  rewrite flat_map_concat_map. apply Forall_concat.
  apply Forall_map. eapply Forall_impl; [|exact Hok].
  intros p Hp. apply split_part_ok; [apply Hsub; now left | exact Hp].
Qed.

(** X18.  Every span [HighlightedText] returns marks a section it was given:
    the span shows the text of the section, its title and its classes are
    those of the severity and the reason of that section, and the text of
    the section occurs in the text.  No span is invented, and no span shows
    a part of a section only. *)
Theorem spans_mark_given_sections (text : jsstring)
    (sections : list Client.suspicious_section) (e : Client.span) :
  In e (marks (Client.HighlightedText text (Some sections))) ->
  exists section,
    In section sections
    /\ e = Client.mark section (Client.text section)
    /\ Client.children e = Client.text section
    /\ Client.title e
       = Client.severity section ++ str " Severity: "
           ++ Client.reason section
    /\ includes text (Client.text section) = true.
Proof.
  destruct sections as [|s0 l]; [contradiction|].
  set (sections := s0 :: l). unfold Client.HighlightedText. fold sections.
  cbn [marks]. intros H. apply in_flat_map in H.
  destruct H as (p & Hp & He).
  destruct p as [x|e']; [contradiction|]. destruct He as [->|[]].
  assert (Forall (part_ok text sections)
            (fold_left
               (fun parts section =>
                  flat_map (Client.split_part section) parts)
               (Client.sort_by_length_desc sections) [Client.Plain text]))
    as Hok.
  { apply steps_ok.
    - intros s Hs.
      apply (Permutation_in _ (sort_by_length_desc_perm sections) Hs).
    - constructor; [|constructor]. apply includes_refl. }
  rewrite Forall_forall in Hok. specialize (Hok _ Hp). cbn [part_ok] in Hok.
  destruct Hok as (section & Hin & -> & Hinc).
  exists section. repeat split; auto.
Qed.

(** X18 on the text "ab cd ab" and the section "cd" of high severity. *)
Lemma spans_mark_given_sections_witness :
  exists section,
    In section [{| Client.text := str "cd"; Client.reason := str "copied";
                   Client.severity := str "High" |}]
    /\ Client.mark {| Client.text := str "cd";
                      Client.reason := str "copied";
                      Client.severity := str "High" |} (str "cd")
       = Client.mark section (Client.text section)
    /\ Client.children
         (Client.mark {| Client.text := str "cd";
                         Client.reason := str "copied";
                         Client.severity := str "High" |} (str "cd"))
       = Client.text section
    /\ Client.title
         (Client.mark {| Client.text := str "cd";
                         Client.reason := str "copied";
                         Client.severity := str "High" |} (str "cd"))
       = Client.severity section ++ str " Severity: "
           ++ Client.reason section
    /\ includes (str "ab cd ab") (Client.text section) = true.
Proof.
  apply (spans_mark_given_sections (str "ab cd ab")
           [{| Client.text := str "cd"; Client.reason := str "copied";
               Client.severity := str "High" |}]
           (Client.mark {| Client.text := str "cd";
                           Client.reason := str "copied";
                           Client.severity := str "High" |} (str "cd"))).
  vm_compute. left. reflexivity.
Defined.

(** ** The longest section goes first *)

Lemma insert_longer_bound (n : nat) (s : Client.suspicious_section)
    (l : list Client.suspicious_section) :
  (List.length (Client.text s) <= n)%nat ->
  Forall (fun x => (List.length (Client.text x) <= n)%nat) l ->
  Forall (fun x => (List.length (Client.text x) <= n)%nat)
    (Client.insert_longer s l).
Proof.
  intros Hs Hl.
  apply (Permutation_Forall (Permutation_sym (insert_longer_perm s l))).
  now constructor.
Qed.

Lemma sort_by_length_desc_bound (n : nat)
    (l : list Client.suspicious_section) :
  Forall (fun x => (List.length (Client.text x) <= n)%nat) l ->
  Forall (fun x => (List.length (Client.text x) <= n)%nat)
    (Client.sort_by_length_desc l).
Proof.
  apply Permutation_Forall, Permutation_sym, sort_by_length_desc_perm.
Qed.

(** The first of the longest sections is the first to be worked on. *)
Lemma sort_by_length_desc_head (l1 l2 : list Client.suspicious_section)
    (s : Client.suspicious_section) :
  Forall (fun x => (List.length (Client.text x)
                    < List.length (Client.text s))%nat) l1 ->
  Forall (fun x => (List.length (Client.text x)
                    <= List.length (Client.text s))%nat) l2 ->
  Client.sort_by_length_desc (l1 ++ s :: l2)
  = s :: Client.sort_by_length_desc (l1 ++ l2).
Proof.
  intros H1 H2. induction H1 as [|x l1 Hx H1 IH].
  - cbn [app Client.sort_by_length_desc fold_right].
    fold (Client.sort_by_length_desc l2).
    pose proof (sort_by_length_desc_bound _ _ H2) as Hb.
    destruct (Client.sort_by_length_desc l2) as [|y ys];
      [reflexivity|]. cbn [Client.insert_longer].
    apply Forall_inv in Hb.
    destruct (Nat.leb_spec (List.length (Client.text y))
                (List.length (Client.text s))); [reflexivity | lia].
  - cbn [app Client.sort_by_length_desc fold_right].
    fold (Client.sort_by_length_desc (l1 ++ s :: l2)).
    fold (Client.sort_by_length_desc (l1 ++ l2)).
    rewrite IH. cbn [Client.insert_longer].
    destruct (Nat.leb_spec (List.length (Client.text s))
                (List.length (Client.text x))); [lia | reflexivity].
Qed.

(** A span stays where it is while the other sections are worked on. *)
Lemma steps_keep_mark (sections : list Client.suspicious_section)
    (e : Client.span) :
  forall ps1 ps2,
  exists qs1 qs2,
    fold_left
      (fun parts section => flat_map (Client.split_part section) parts)
      sections (ps1 ++ Client.Mark e :: ps2)
    = qs1 ++ Client.Mark e :: qs2
    /\ concat (map part_text qs1) = concat (map part_text ps1).
Proof.
  induction sections as [|s sections IH]; intros ps1 ps2.
  - exists ps1, ps2. auto.
  - cbn [fold_left]. rewrite flat_map_app. cbn [flat_map Client.split_part].
    cbn [app].
    destruct (IH (flat_map (Client.split_part s) ps1)
                (flat_map (Client.split_part s) ps2))
      as (qs1 & qs2 & -> & Ht).
    exists qs1, qs2. split; [reflexivity|]. now rewrite Ht, step_text.
Qed.

(** X19.  The section worked on first is always found where it first
    occurs: when a section is longer than every section before it in the
    list and at least as long as every section after it, and its text occurs
    in the text, the result holds the span of that section, and what is
    shown before the span is the text up to the first occurrence. *)
Theorem longest_section_is_marked (text : jsstring)
    (l1 l2 : list Client.suspicious_section)
    (section : Client.suspicious_section) (i : nat) :
  Forall (fun x => (List.length (Client.text x)
                    < List.length (Client.text section))%nat) l1 ->
  Forall (fun x => (List.length (Client.text x)
                    <= List.length (Client.text section))%nat) l2 ->
  index_of text (Client.text section) = Some i ->
  exists before after,
    Client.HighlightedText text (Some (l1 ++ section :: l2))
    = Client.Block
        (before
           ++ Client.Mark (Client.mark section (Client.text section))
           :: after)
    /\ concat (map part_text before) = firstn i text.
Proof.
  intros H1 H2 Hi.
  assert (Client.HighlightedText text (Some (l1 ++ section :: l2))
          = Client.Block
              (fold_left
                 (fun parts s => flat_map (Client.split_part s) parts)
                 (Client.sort_by_length_desc (l1 ++ section :: l2))
                 [Client.Plain text])) as ->
    by (destruct l1; reflexivity).
  rewrite sort_by_length_desc_head by assumption.
  cbn [fold_left flat_map]. rewrite app_nil_r.
  destruct (index_of_spec _ _ _ Hi) as (pre & post & -> & Hlen).
  rewrite (split_part_found section pre post i Hi Hlen).
  destruct (steps_keep_mark (Client.sort_by_length_desc (l1 ++ l2))
              (Client.mark section (Client.text section))
              match pre with [] => [] | _ :: _ => [Client.Plain pre] end
              match post with [] => [] | _ :: _ => [Client.Plain post] end)
    as (qs1 & qs2 & Hq & Ht).
  exists qs1, qs2. cbn [app] in Hq |- *. rewrite Hq.
  split; [reflexivity|]. rewrite Ht.
  destruct (cut_at_index pre (Client.text section) post) as (Hc & _).
  subst i. rewrite Hc. destruct pre; cbn; rewrite ?app_nil_r; reflexivity.
Qed.

(** X19 on the text "ab cd ab" with the sections "ab" and "cd ab": the
    longer one, though second in the list, is marked at index 3. *)
Lemma longest_section_is_marked_witness :
  exists before after,
    Client.HighlightedText (str "ab cd ab")
      (Some ([{| Client.text := str "ab"; Client.reason := str "twice";
                 Client.severity := str "Low" |}]
               ++ {| Client.text := str "cd ab";
                     Client.reason := str "copied";
                     Client.severity := str "High" |} :: []))
    = Client.Block
        (before
           ++ Client.Mark
                (Client.mark {| Client.text := str "cd ab";
                                Client.reason := str "copied";
                                Client.severity := str "High" |}
                   (Client.text {| Client.text := str "cd ab";
                                   Client.reason := str "copied";
                                   Client.severity := str "High" |}))
           :: after)
    /\ concat (map part_text before) = firstn 3 (str "ab cd ab").
Proof.
  apply (longest_section_is_marked (str "ab cd ab")
           [{| Client.text := str "ab"; Client.reason := str "twice";
               Client.severity := str "Low" |}] []
           {| Client.text := str "cd ab"; Client.reason := str "copied";
              Client.severity := str "High" |} 3).
  - repeat constructor.
  - constructor.
  - vm_compute. reflexivity.
Defined.

(** X20.  Sections that do not occur in the text change nothing: when no
    section occurs, the result is the text as one string, with no span. *)
Theorem absent_sections_mark_nothing (text : jsstring)
    (s0 : Client.suspicious_section)
    (sections : list Client.suspicious_section) :
  Forall (fun s => includes text (Client.text s) = false) (s0 :: sections) ->
  Client.HighlightedText text (Some (s0 :: sections))
  = Client.Block [Client.Plain text].
Proof.
  intros H. unfold Client.HighlightedText. f_equal.
  apply (Permutation_Forall
           (Permutation_sym (sort_by_length_desc_perm (s0 :: sections))))
    in H.
  induction H as [|s l Hs _ IH]; [reflexivity|].
  cbn [fold_left flat_map Client.split_part].
  apply index_of_none in Hs. rewrite Hs. exact IH.
Qed.

Lemma absent_sections_mark_nothing_witness :
  Client.HighlightedText (str "ab cd ab")
    (Some [{| Client.text := str "abc"; Client.reason := str "copied";
              Client.severity := str "High" |}])
  = Client.Block [Client.Plain (str "ab cd ab")].
Proof.
  apply (absent_sections_mark_nothing (str "ab cd ab")).
  repeat constructor.
Defined.

(* ================================================================== *)
(** * The user name the profile page sends *)
(* ================================================================== *)

Lemma split_on_nonempty (c : char16) (s : jsstring) : split_on c s <> [].
Proof.
  induction s as [|d s IH]; cbn [split_on]; [discriminate|].
  destruct (N.eqb d c); [discriminate|].
  destruct (split_on c s); [contradiction | discriminate].
Qed.

(** Splitting at a separator splits both sides of it. *)
Lemma split_on_app (c : char16) (a b : jsstring) :
  split_on c (a ++ c :: b) = split_on c a ++ split_on c b.
Proof.
  induction a as [|d a IH]; cbn [app split_on].
  - now rewrite N.eqb_refl.
  - destruct (N.eqb d c); [now rewrite IH|]. rewrite IH.
    pose proof (split_on_nonempty c a) as Hne.
    destruct (split_on c a); [contradiction | reflexivity].
Qed.

Lemma split_on_whole (c : char16) (s : jsstring) :
  ~ In c s -> split_on c s = [s].
Proof.
  induction s as [|d s IH]; intros H; [reflexivity|]. cbn [split_on].
  destruct (N.eqb_spec d c) as [->|_]; [exfalso; apply H; now left|].
  rewrite IH; [reflexivity|]. intros Hin. apply H. now right.
Qed.

Lemma split_on_pieces (c : char16) (s : jsstring) :
  Forall (fun piece => ~ In c piece) (split_on c s).
Proof.
  induction s as [|d s IH]; cbn [split_on].
  - constructor; [intros []|constructor].
  - destruct (N.eqb_spec d c) as [->|Hne].
    + constructor; [intros []|exact IH].
    + destruct (split_on c s) as [|piece rest]; inversion IH; subst.
      * constructor; [|constructor]. intros [->|[]]. congruence.
      * constructor; [|assumption]. intros [->|Hin]; [congruence|auto].
Qed.

Lemma split_on_separators (c : char16) (k : nat) :
  split_on c (repeat c k) = repeat [] (S k).
Proof.
  induction k as [|k IH]; [reflexivity|].
  cbn [repeat split_on]. rewrite N.eqb_refl, IH. reflexivity.
Qed.

Lemma filter_empty_pieces (k : nat) :
  filter (fun s : jsstring => match s with [] => false | _ :: _ => true end)
    (repeat [] k) = [].
Proof. induction k; [reflexivity | exact IHk]. Qed.

(** X21.  The user name [ProfileVerifier] sends is the last segment of the
    address that is not empty: the name after the last slash, with any
    slashes at the end of the address ignored.  An address without a slash
    is sent whole.  The name is empty only for an empty address, and it
    holds a slash only when the address has no segment at all, in which
    case the address itself is sent. *)
Theorem username_is_the_last_segment :
  (forall base name k,
      name <> [] -> ~ In 47%N name ->
      Client.username (base ++ 47%N :: name ++ repeat 47%N k) = name)
  /\ (forall url, ~ In 47%N url -> Client.username url = url)
  /\ (forall url, url <> [] -> Client.username url <> [])
  /\ (forall url,
         In 47%N (Client.username url) -> Client.username url = url).
Proof.
  assert (forall name k,
             ~ In 47%N name ->
             split_on 47%N (name ++ repeat 47%N k) = name :: repeat [] k)
    as Htail.
  { intros name [|k] Hn; [now rewrite app_nil_r, split_on_whole|].
    cbn [repeat]. rewrite split_on_app, split_on_whole by exact Hn.
    now rewrite split_on_separators. }
  split; [|split; [|split]].
  - intros base name k Hne Hn. unfold Client.username.
    rewrite split_on_app, Htail by exact Hn.
    rewrite filter_app. cbn [filter].
    destruct name as [|c name]; [congruence|].
    rewrite filter_empty_pieces.
    apply last_last.
  - intros url Hn. unfold Client.username. rewrite split_on_whole by exact Hn.
    destruct url; reflexivity.
  - intros url Hne. unfold Client.username.
    set (f := fun s : list char16 =>
                match s with [] => false | _ :: _ => true end).
    destruct (filter f (split_on 47%N url)) as [|x l] eqn:E; [exact Hne|].
    assert (In (last (x :: l) url) (filter f (split_on 47%N url))) as Hin.
    { rewrite E. destruct (exists_last (l := x :: l)) as (l' & a & Hl);
        [discriminate|].
      rewrite Hl, last_last. apply in_or_app. right. now left. }
    apply filter_In in Hin. destruct Hin as [_ Hf].
    destruct (last (x :: l) url); [discriminate Hf | discriminate].
  - intros url. unfold Client.username.
    set (f := fun s : list char16 =>
                match s with [] => false | _ :: _ => true end).
    destruct (filter f (split_on 47%N url)) as [|x l] eqn:E; [reflexivity|].
    intros Hslash. exfalso.
    assert (In (last (x :: l) url) (filter f (split_on 47%N url))) as Hin.
    { rewrite E. destruct (exists_last (l := x :: l)) as (l' & a & Hl);
        [discriminate|].
      rewrite Hl, last_last. apply in_or_app. right. now left. }
    apply filter_In in Hin. destruct Hin as [Hin _].
    pose proof (split_on_pieces 47%N url) as Hp.
    rewrite Forall_forall in Hp. exact (Hp _ Hin Hslash).
Qed.

(** X21 on "https://instagram.com/ada/", on "ada" and on "//". *)
Lemma username_is_the_last_segment_witness :
  Client.username (str "https://instagram.com" ++ 47%N :: str "ada"
                     ++ repeat 47%N 1) = str "ada"
  /\ Client.username (str "ada") = str "ada"
  /\ Client.username (str "ada") <> []
  /\ Client.username (str "//") = str "//".
Proof.
  destruct username_is_the_last_segment as (H1 & H2 & H3 & H4).
  split; [|split; [|split]].
  - apply (H1 (str "https://instagram.com") (str "ada") 1%nat).
    + discriminate.
    + vm_compute. intuition discriminate.
  - apply (H2 (str "ada")). vm_compute. intuition discriminate.
  - apply (H3 (str "ada")). discriminate.
  - apply (H4 (str "//")). vm_compute. left. reflexivity.
Defined.

(* ================================================================== *)
(** * The verdict of the result page *)
(* ================================================================== *)

Lemma js_ge_trans (a b c : number) :
  js_ge a b = true -> js_ge b c = true -> js_ge a c = true.
Proof.
  destruct a as [x| | |], b as [y| | |], c as [z| | |]; cbn [js_ge];
    try congruence.
  rewrite !Qle_bool_iff. intros H1 H2. now apply Qle_trans with y.
Qed.

Lemma verdict_of_number (r : json) (x : number) :
  field (str "aiProbability") r = Some (JNum x) ->
  exists c,
    Client.verdictColor r = Some c
    /\ Client.label c
       = if js_ge x (of_Z 70) then str "LIKELY AI / FAKE"
         else if js_ge x (of_Z 40) then str "SUSPICIOUS"
         else str "LIKELY AUTHENTIC".
Proof.
  intros H. unfold Client.verdictColor. rewrite H.
  cbn [nullish_or to_number]. eexists. split; [reflexivity|].
  destruct (js_ge x (of_Z 70)); [reflexivity|].
  destruct (js_ge x (of_Z 40)); reflexivity.
Qed.

Lemma js_ge_threshold (q : Q) (n : Z) :
  -100 <= n <= 100 ->
  js_ge (Fin q) (of_Z n) = true <-> (inject_Z n <= q)%Q.
Proof.
  intros Hn.
  assert (of_Z n = Fin (inject_Z n)) as ->.
  { apply of_Z_integer. change (2 ^ 53) with 9007199254740992. lia. }
  cbn [js_ge]. apply Qle_bool_iff.
Qed.

(** X22.  The verdict follows the AI score at the thresholds 70 and 40: a
    result whose [aiProbability] is the number q is shown as likely AI when
    q >= 70, as suspicious when 40 <= q < 70, and as likely authentic when
    q < 40.  So the verdict is monotone: of two results with numeric
    [aiProbability], the one with the greater or equal score never gets the
    milder verdict.  A result object without [aiProbability], or with
    [null] there, is shown as likely authentic.  Where [aiProbability] has
    no primitive value the comparison throws and there is no verdict. *)
Theorem verdict_follows_the_score :
  (forall r q,
      field (str "aiProbability") r = Some (JNum (Fin q)) ->
      exists c,
        Client.verdictColor r = Some c
        /\ ((70 <= q)%Q -> Client.label c = str "LIKELY AI / FAKE")
        /\ ((40 <= q)%Q -> (q < 70)%Q -> Client.label c = str "SUSPICIOUS")
        /\ ((q < 40)%Q -> Client.label c = str "LIKELY AUTHENTIC"))
  /\ (forall r1 r2 x y,
         field (str "aiProbability") r1 = Some (JNum x) ->
         field (str "aiProbability") r2 = Some (JNum y) ->
         js_ge y x = true ->
         exists c1 c2,
           Client.verdictColor r1 = Some c1
           /\ Client.verdictColor r2 = Some c2
           /\ (verdict_rank c1 <= verdict_rank c2)%nat)
  /\ (forall props,
         not_nullish (get_prop (str "aiProbability") props) = false ->
         exists c,
           Client.verdictColor (JObj props) = Some c
           /\ Client.label c = str "LIKELY AUTHENTIC")
  /\ (forall r a,
         field (str "aiProbability") r = Some a -> to_number a = None ->
         Client.verdictColor r = None).
Proof.
  split; [|split; [|split]].
  - intros r q H. destruct (verdict_of_number r (Fin q) H) as (c & Hc & Hl).
    exists c. split; [exact Hc|]. rewrite Hl.
    pose proof (js_ge_threshold q 70 ltac:(lia)) as H70.
    pose proof (js_ge_threshold q 40 ltac:(lia)) as H40.
    change (inject_Z 70) with 70%Q in H70.
    change (inject_Z 40) with 40%Q in H40.
    destruct (js_ge (Fin q) (of_Z 70)).
    + assert (70 <= q)%Q as Hq by now apply H70.
      split; [reflexivity|]. split.
      * intros _ Hlt. exfalso. now apply (Qlt_not_le q 70).
      * intros Hlt. exfalso. apply (Qlt_not_le q 40 Hlt).
        apply Qle_trans with 70%Q; [discriminate | exact Hq].
    + assert (~ (70 <= q)%Q) as Hq
        by (intros Hq; apply H70 in Hq; discriminate Hq).
      split; [intros Hge; contradiction|].
      destruct (js_ge (Fin q) (of_Z 40)).
      * assert (40 <= q)%Q as Hq' by now apply H40.
        split; [reflexivity|].
        intros Hlt. exfalso. now apply (Qlt_not_le q 40).
      * split; [|reflexivity].
        intros Hge. apply H40 in Hge. discriminate Hge.
  - intros r1 r2 x y H1 H2 Hge.
    destruct (verdict_of_number r1 x H1) as (c1 & Hc1 & Hl1).
    destruct (verdict_of_number r2 y H2) as (c2 & Hc2 & Hl2).
    exists c1, c2. split; [exact Hc1|]. split; [exact Hc2|].
    unfold verdict_rank. rewrite Hl1, Hl2.
    destruct (js_ge x (of_Z 70)) eqn:E70.
    + rewrite (js_ge_trans _ _ _ Hge E70). reflexivity.
    + destruct (js_ge x (of_Z 40)) eqn:E40.
      * rewrite (js_ge_trans _ _ _ Hge E40).
        destruct (js_ge y (of_Z 70)); vm_compute; lia.
      * destruct (js_ge y (of_Z 70)); [vm_compute; lia|].
        destruct (js_ge y (of_Z 40)); vm_compute; lia.
  - intros props Hr. unfold Client.verdictColor. cbn [field].
    assert (nullish_or (get_prop (str "aiProbability") props)
              (JNum (of_Z 0)) = JNum (of_Z 0)) as ->.
    { destruct (get_prop (str "aiProbability") props) as [[]|];
        try discriminate Hr; reflexivity. }
    eexists. split; [reflexivity|]. vm_compute. reflexivity.
  - intros r a Ha Hn. unfold Client.verdictColor. rewrite Ha.
    assert (nullish_or (Some a) (JNum (of_Z 0)) = a) as ->
      by (destruct a; [discriminate Hn | reflexivity ..]).
    now rewrite Hn.
Qed.

(** X22 on the scores 72, 41.5 and 12, on the pair 41 and 72, on the empty
    object and on an [aiProbability] without primitive value. *)
Lemma verdict_follows_the_score_witness :
  (exists c,
      Client.verdictColor (JObj [(str "aiProbability", JNum (Fin 72))])
      = Some c /\ Client.label c = str "LIKELY AI / FAKE")
  /\ (exists c,
        Client.verdictColor
          (JObj [(str "aiProbability", JNum (Fin (83 # 2)))])
        = Some c /\ Client.label c = str "SUSPICIOUS")
  /\ (exists c,
        Client.verdictColor (JObj [(str "aiProbability", JNum (Fin 12))])
        = Some c /\ Client.label c = str "LIKELY AUTHENTIC")
  /\ (exists c1 c2,
        Client.verdictColor (JObj [(str "aiProbability", JNum (of_Z 41))])
        = Some c1
        /\ Client.verdictColor
             (JObj [(str "aiProbability", JNum (of_Z 72))]) = Some c2
        /\ (verdict_rank c1 <= verdict_rank c2)%nat)
  /\ (exists c,
        Client.verdictColor (JObj []) = Some c
        /\ Client.label c = str "LIKELY AUTHENTIC")
  /\ Client.verdictColor
       (JObj [(str "aiProbability",
               JObj [(str "toString", JNum (of_Z 1))])]) = None.
Proof.
  destruct verdict_follows_the_score as (Hlabel & Hmono & Hnone & Hthrow).
  split; [|split; [|split; [|split; [|split]]]].
  - destruct (Hlabel (JObj [(str "aiProbability", JNum (Fin 72))]) 72%Q
                eq_refl) as (c & Hc & H70 & _).
    exists c. split; [exact Hc|]. apply H70. discriminate.
  - destruct (Hlabel (JObj [(str "aiProbability", JNum (Fin (83 # 2)))])
                (83 # 2) eq_refl) as (c & Hc & _ & H40 & _).
    exists c. split; [exact Hc|]. apply H40; [discriminate | reflexivity].
  - destruct (Hlabel (JObj [(str "aiProbability", JNum (Fin 12))]) 12%Q
                eq_refl) as (c & Hc & _ & _ & H0).
    exists c. split; [exact Hc|]. apply H0. reflexivity.
  - apply (Hmono (JObj [(str "aiProbability", JNum (of_Z 41))])
             (JObj [(str "aiProbability", JNum (of_Z 72))])
             (of_Z 41) (of_Z 72)).
    + reflexivity.
    + reflexivity.
    + vm_compute. reflexivity.
  - apply (Hnone []). reflexivity.
  - apply (Hthrow (JObj [(str "aiProbability",
                          JObj [(str "toString", JNum (of_Z 1))])])
             (JObj [(str "toString", JNum (of_Z 1))])).
    + reflexivity.
    + reflexivity.
Defined.
